(** * Verification of the NYTimes / Guardian backfill scripts

    A shallow embedding of [web_scraping_pt1.py] (module [NYTimes]) and
    [web_scraping_guardian.py] (module [Guardian]): the multi-query merge,
    the pagination pass, the monthly orchestrator, the backfill driver and
    the final combination of the monthly files, followed by the properties
    of the specification that were checked against them.

    Conventions of the model
    - JSON objects are typed records; a field that the scripts read with
      [d.get(k)] or [d.get(k, default)] is a [JField], which keeps apart a
      missing key, a JSON [null] and a string.
    - A pandas DataFrame is the list of its rows, in index order.
    - The network, the clock and the disk are explicit: every
      [requests.get] and every [time.sleep] is logged in a trace, and the
      output directory is a finite map from paths to DataFrames.  Console
      output is not modelled.
    - Python exceptions are values of [Res]; [try ... except Exception]
      is [try_except].
    - Years are unbounded integers ([datetime.MAXYEAR] is not modelled). *)

From Stdlib Require Import ZArith List Bool Ascii String Lia Permutation Sorted.
From stdpp Require Import base decidable option list gmap strings fin_maps pretty.
Import ListNotations.

Local Open Scope string_scope.
Local Open Scope list_scope.
Local Open Scope Z_scope.

(** ** JSON fields and table cells *)

(** What a key of a JSON object can hold, as far as the scripts look. *)
Inductive JField : Type :=
| Missing
| Null
| Str (s : string).

(** A Python value stored in a DataFrame column: [None] or a string. *)
Inductive Cell : Type :=
| CNone
| CStr (s : string).

#[global] Instance Cell_eq_dec : EqDecision Cell.
Proof. solve_decision. Defined.

(** [d.get(k)] *)
Definition get (f : JField) : Cell :=
  match f with
  | Str s => CStr s
  | Missing | Null => CNone
  end.

(** [d.get(k, dflt)]: the default only replaces a missing key. *)
Definition get_default (f : JField) (dflt : string) : Cell :=
  match f with
  | Missing => CStr dflt
  | Null => CNone
  | Str s => CStr s
  end.

(** Python truthiness of a cell: [None] and [''] are falsy. *)
Definition truthy (c : Cell) : bool :=
  match c with
  | CNone => false
  | CStr s => negb (String.eqb s "")
  end.

(** The identity key is "non-empty" when it is a string other than ['']. *)
Definition nonempty_key (c : Cell) : Prop := exists s, c = CStr s /\ s <> "".

(** ** The deduplicator *)

Section Dedup.
Context {A : Type} (key : A -> Cell).

Definition has_key (k : Cell) (r : A) : bool := bool_decide (key r = k).

(** [df.drop_duplicates(subset=[key], keep='first')]: one pass in
    index order that remembers the keys already kept. *)
Fixpoint drop_duplicates_seen (seen : list Cell) (df : list A) : list A :=
  match df with
  | [] => []
  | r :: rest =>
      if bool_decide (key r ∈ seen)
      then drop_duplicates_seen seen rest
      else r :: drop_duplicates_seen (key r :: seen) rest
  end.

Definition drop_duplicates (df : list A) : list A :=
  drop_duplicates_seen [] df.

(** The row of [df] that [keep='first'] retains for key [k]. *)
Definition first_with (k : Cell) (df : list A) : list A :=
  match List.find (has_key k) df with
  | Some r => [r]
  | None => []
  end.

End Dedup.

(** The loop that merges the documents of the five queries
    ([for doc in docs: url = doc.get(...); if url and url not in seen ...]).
    [field] reads the identity key of a raw document. *)
Section Merge.
Context {D : Type} (field : D -> JField).

Definition merge_step (st : list D * gset string) (doc : D) : list D * gset string :=
  let '(all_docs, seen_urls) := st in
  match get (field doc) with
  | CStr url =>
      if truthy (CStr url) && negb (bool_decide (url ∈ seen_urls))
      then (all_docs ++ [doc], {[url]} ∪ seen_urls)
      else st
  | CNone => st
  end.

Definition merge_docs (docs : list D) (st : list D * gset string) : list D * gset string :=
  fold_left merge_step docs st.

(** One merge over a whole sequence of documents, from empty accumulators. *)
Definition merged (docs : list D) : list D := fst (merge_docs docs ([], ∅)).

Definition raw_key (d : D) : Cell := get (field d).

End Merge.

(** ** Calendar dates ([datetime.date]) *)

Record date : Type := mkdate { year : Z; month : Z; day : Z }.

(** [datetime._is_leap] *)
Definition is_leap (y : Z) : bool :=
  (y mod 4 =? 0) && (negb (y mod 100 =? 0) || (y mod 400 =? 0)).

(** [datetime._days_in_month], with its table [_DAYS_IN_MONTH]. *)
Definition DAYS_IN_MONTH : list Z :=
  [-1; 31; 28; 31; 30; 31; 30; 31; 31; 30; 31; 30; 31].

Definition days_in_month (y m : Z) : Z :=
  if (m =? 2) && is_leap y then 29 else nth (Z.to_nat m) DAYS_IN_MONTH (-1).

(** [d - datetime.timedelta(days=1)] *)
Definition sub_one_day (d : date) : date :=
  if 1 <? day d then mkdate (year d) (month d) (day d - 1)
  else if month d =? 1 then mkdate (year d - 1) 12 31
  else mkdate (year d) (month d - 1) (days_in_month (year d) (month d - 1)).

(** [d1 <= d2] on dates: the order of the triples (year, month, day). *)
Definition date_leb (d1 d2 : date) : bool :=
  (year d1 <? year d2) ||
  ((year d1 =? year d2) &&
   ((month d1 <? month d2) || ((month d1 =? month d2) && (day d1 <=? day d2)))).

(** The months and days the constructor [datetime.date(y, m, d)]
    accepts (its bounds on the year are those of [py_date] below). *)
Definition valid_date (d : date) : Prop :=
  1 <= month d <= 12 /\ 1 <= day d <= days_in_month (year d) (month d).

(** The query window of a month, as the three fetch functions compute it:
    [start_date = date(year, month, 1)] and [end_date] the day before the
    first day of the next month.  This is the value of the computation
    where it has one; [py_month_window] below adds the [ValueError] of the
    constructor outside the range of [datetime]. *)
Definition month_window (y m : Z) : date * date :=
  let start_date := mkdate y m 1 in
  let end_date :=
    if m =? 12 then sub_one_day (mkdate (y + 1) 1 1)
    else sub_one_day (mkdate y (m + 1) 1) in
  (start_date, end_date).

(** The date the driver moves to after the month of [current], where
    [datetime] has it; [py_next_month] below adds the [ValueError] of the
    constructor. *)
Definition next_month (current : date) : date :=
  if month current =? 12 then mkdate (year current + 1) 1 1
  else mkdate (year current) (month current + 1) 1.

(** Months counted from year 0: the position of a month in the calendar. *)
Definition month_index (y m : Z) : Z := 12 * y + (m - 1).

(** The calendar positions of the months from the month of [start_date]
    to the month of [end_date], both included, in calendar order. *)
Definition month_span (start_date end_date : date) : list Z :=
  let first := month_index (year start_date) (month start_date) in
  let last := month_index (year end_date) (month end_date) in
  map (fun k => first + Z.of_nat k) (seq 0 (Z.to_nat (last - first + 1))).

(** The number of turns the driver's loop takes. *)
Definition months_to_visit (current end_date : date) : nat :=
  if date_leb current end_date then length (month_span current end_date) else 0%nat.

(** [range(lo, hi)] *)
Definition py_range (lo hi : nat) : list Z :=
  map Z.of_nat (seq lo (hi - lo)%nat).

(** [enumerate(l)] *)
Definition enumerate {A : Type} (l : list A) : list (Z * A) :=
  combine (py_range 0 (length l)) l.

(** [f'{month:02d}'] for a month number. *)
Definition pad2 (n : Z) : string :=
  if n <? 10 then String.append "0" (pretty n) else pretty n.

(** ** Requests, responses and the world the scripts run in *)

(** The five boolean queries of the multi-query pass, in the order of the
    list [queries], and the broad query of the pagination pass. *)
Inductive Query : Type := Q1 | Q2 | Q3 | Q4 | Q5 | QSingle.

Definition queries : list Query := [Q1; Q2; Q3; Q4; Q5].

(** The parameters of one GET that vary: query, date window and page.
    (The window is kept as dates; [strftime] renders it on the wire.) *)
Record Request : Type := mkRequest {
  rq_query : Query;
  rq_from : date;
  rq_to : date;
  rq_page : Z
}.

(** Python exceptions that reach an [except Exception] clause. *)
Inductive Exn : Type :=
| TransportError      (* raised by [requests.get] *)
| JSONDecodeError     (* raised by [response.json()] *)
| FileNotFoundError   (* raised by [pd.read_csv] *)
| ValueError.         (* raised by [pd.to_datetime] *)

(** The outcome of running a piece of the script. [OutOfFuel] belongs to
    the model only: the bound given to a [while] loop was too small. *)
Inductive Res (A : Type) : Type :=
| Ok (a : A)
| Exc (e : Exn)
| OutOfFuel.
Arguments Ok {A} a.
Arguments Exc {A} e.
Arguments OutOfFuel {A}.

Section Effects.
(** [D]: raw documents of the source; [R]: rows of its DataFrames. *)
Context {D R : Type}.

(** The object under the key ['response']: the document array
    (['docs'] or ['results']) and the pagination metadata.  A page
    count is an integer or absent. *)
Record RespObj : Type := mkRespObj {
  r_docs : option (list D);
  r_pages : option Z;
  r_currentPage : option Z
}.

(** A decoded JSON body: the empty object, an object without the key
    ['response'], or an object with it.  These are the bodies of the
    shape the two APIs document.  A body of another shape (one that is
    no object, a ['response'] that is [null] or no object, a page count
    that is no number) is outside the model: on such a body of a page
    the scripts raise outside any [try]. *)
Inductive Body : Type :=
| BEmpty
| BOther
| BResponse (r : RespObj).

(** An HTTP response; [json_body = None] when [response.json()] raises. *)
Record Response : Type := mkResponse {
  status_code : Z;
  json_body : option Body
}.

(** What [requests.get] does: raise, or return a response. *)
Inductive Outcome : Type :=
| Raised
| Responded (resp : Response).

Inductive Event : Type :=
| EvRequest (rq : Request) (o : Outcome)
| EvSleep (secs : Z).

(** The network answers a request knowing everything that happened
    before it. *)
Definition Net : Type := list Event -> Request -> Outcome.

Record World : Type := mkWorld {
  fs : gmap string (list R);
  trace : list Event
}.

Definition log (evs : list Event) (w : World) : World :=
  mkWorld (fs w) (trace w ++ evs).

Definition M (A : Type) : Type := World -> Res A * World.

Definition ret {A} (a : A) : M A := fun w => (Ok a, w).

Definition bind {A B} (m : M A) (k : A -> M B) : M B :=
  fun w =>
    match m w with
    | (Ok a, w') => k a w'
    | (Exc e, w') => (Exc e, w')
    | (OutOfFuel, w') => (OutOfFuel, w')
    end.

Definition raise {A} (e : Exn) : M A := fun w => (Exc e, w).

Definition out_of_fuel {A} : M A := fun w => (OutOfFuel, w).

(** [try: m  except Exception: h] — what [m] did to the world stays. *)
Definition try_except {A} (m : M A) (h : Exn -> M A) : M A :=
  fun w =>
    match m w with
    | (Exc e, w') => h e w'
    | r => r
    end.

(** [time.sleep(secs)] *)
Definition sleep (secs : Z) : M unit :=
  fun w => (Ok tt, log [EvSleep secs] w).

Variable net : Net.

(** [requests.get(base_url, params=..., timeout=30)] *)
Definition requests_get (rq : Request) : M Response :=
  fun w =>
    let o := net (trace w) rq in
    match o with
    | Raised => (Exc TransportError, log [EvRequest rq o] w)
    | Responded resp => (Ok resp, log [EvRequest rq o] w)
    end.

(** [response.json()] *)
Definition json (resp : Response) : M Body :=
  match json_body resp with
  | Some b => ret b
  | None => raise JSONDecodeError
  end.

(** [os.path.exists(path)] *)
Definition path_exists (path : string) : M bool :=
  fun w => (Ok (bool_decide (is_Some (fs w !! path))), w).

(** [pd.read_csv(path)] *)
Definition read_csv (path : string) : M (list R) :=
  fun w =>
    match fs w !! path with
    | Some df => (Ok df, w)
    | None => (Exc FileNotFoundError, w)
    end.

(** [df.to_csv(path, index=False)].  The file system maps a path to the
    frame [pd.read_csv] gives for it, and the model keeps a frame as it
    was written: it does not follow pandas in reading an empty cell back
    as NaN. *)
Definition to_csv (df : list R) (path : string) : M unit :=
  fun w => (Ok tt, mkWorld (<[path := df]> (fs w)) (trace w)).

(** Truthiness of what [search_trump_covid_single] returns:
    [None] and [{}] are falsy. *)
Definition body_truthy (response : option Body) : bool :=
  match response with
  | None | Some BEmpty => false
  | Some _ => true
  end.

(** The requests of a list of events, in order. *)
Definition requests_of (evs : list Event) : list Request :=
  omap (fun ev => match ev with EvRequest rq _ => Some rq | EvSleep _ => None end) evs.

(** Every HTTP 429 in [evs] is followed at once by a pause of [cd]
    seconds. *)
Fixpoint cooled (cd : Z) (evs : list Event) : bool :=
  match evs with
  | [] => true
  | EvRequest _ (Responded resp) :: rest =>
      if status_code resp =? 429
      then match rest with
           | EvSleep secs :: _ => (secs =? cd) && cooled cd rest
           | _ => false
           end
      else cooled cd rest
  | _ :: rest => cooled cd rest
  end.

(** *** Vocabulary for statements about runs *)

(** The answer [search_trump_covid_single] extracts from an outcome. *)
Definition single_result (o : Outcome) : option Body :=
  match o with
  | Raised => None
  | Responded resp =>
      if status_code resp =? 429 then None
      else if negb (status_code resp =? 200) then None
      else json_body resp
  end.

(** The documents an outcome hands to the merge loop of the
    multi-query pass: those of a 200 response whose body decodes and
    holds the document array. *)
Definition delivered (o : Outcome) : list D :=
  match single_result o with
  | Some (BResponse r) => default [] (r_docs r)
  | _ => []
  end.

Definition rate_limited (o : Outcome) : bool :=
  match o with
  | Responded resp => status_code resp =? 429
  | Raised => false
  end.

(** A request that brought no usable response: an exception, or a
    status other than 200. *)
Definition failed (o : Outcome) : bool :=
  match o with
  | Responded resp => negb (status_code resp =? 200)
  | Raised => true
  end.

Definition outcomes_of (evs : list Event) : list Outcome :=
  omap (fun ev => match ev with EvRequest _ o => Some o | EvSleep _ => None end) evs.

Definition delivered_docs (evs : list Event) : list D :=
  flat_map delivered (outcomes_of evs).

(** The events [evs], logged after the trace [tr], carry the answers
    of the network [net]. *)
Fixpoint answered (tr evs : list Event) : Prop :=
  match evs with
  | [] => True
  | ev :: rest =>
      match ev with
      | EvRequest rq o => o = net tr rq
      | EvSleep _ => True
      end /\ answered (tr ++ [ev]) rest
  end.

(** What one request of a fetch function logs: the request with its
    outcome and, after a 429, the cool-down of [cd] seconds. *)
Definition fetch_events (cd : Z) (rq : Request) (o : Outcome) : list Event :=
  EvRequest rq o :: (if rate_limited o then [EvSleep cd] else []).
End Effects.

Arguments RespObj : clear implicits.
Arguments Body : clear implicits.
Arguments Response : clear implicits.
Arguments Outcome : clear implicits.
Arguments Event : clear implicits.
Arguments Net : clear implicits.
Arguments World : clear implicits.
Arguments M : clear implicits.

(** A request asks for one whole calendar month: from its first day to
    its last day. *)
Definition whole_month (rq : Request) : Prop :=
  let y := year (rq_from rq) in
  let m := month (rq_from rq) in
  1 <= m <= 12 /\
  rq_from rq = mkdate y m 1 /\
  rq_to rq = mkdate y m (days_in_month y m).

(** The outcomes [os] of the pages requested by a pagination pass that
    may request at most [n] pages: no outcome but the last fulfils a stop
    condition, and the pass ends either on an outcome that does or when
    the [n] pages are used up. *)
Inductive stops_at_first {O : Type} (stops : O -> bool) : nat -> list O -> Prop :=
| run_ceiling : stops_at_first stops 0 []
| run_stop n o : stops o = true -> stops_at_first stops (S n) [o]
| run_next n o os :
    stops o = false -> stops_at_first stops n os ->
    stops_at_first stops (S n) (o :: os).

Declare Scope script_scope.
Delimit Scope script_scope with script.
Notation "x <- m ;; k" := (bind m (fun x => k))
  (at level 20, m at level 99, k at level 200, only parsing) : script_scope.
Notation "' pat <- m ;; k" := (bind m (fun x => match x with pat => k end))
  (at level 20, pat pattern, m at level 99, k at level 200, only parsing) : script_scope.
Notation "m ;; k" := (bind m (fun _ => k))
  (at level 100, k at level 200, only parsing, right associativity) : script_scope.
Local Open Scope script_scope.

(** ** Directory listing and sorting *)

Fixpoint strip_prefix (pre s : string) : option string :=
  match pre, s with
  | EmptyString, _ => Some s
  | String a pre', String b s' => if Ascii.eqb a b then strip_prefix pre' s' else None
  | String _ _, EmptyString => None
  end.

Fixpoint ends_with (suf s : string) : bool :=
  String.eqb s suf ||
  match s with
  | EmptyString => false
  | String _ s' => ends_with suf s'
  end.

Fixpoint has_char (c : ascii) (s : string) : bool :=
  match s with
  | EmptyString => false
  | String a s' => Ascii.eqb a c || has_char c s'
  end.

(** Does [path] match the pattern [dir/*.csv]?  The star stands for a
    file name: no separator in it, and no leading dot. *)
Definition matches_csv (dir path : string) : bool :=
  match strip_prefix (String.append dir "/") path with
  | Some name =>
      ends_with ".csv" name && negb (has_char "/"%char name) &&
      negb (String.prefix "." name)
  | None => false
  end.

Fixpoint insert_path (p : string) (l : list string) : list string :=
  match l with
  | [] => [p]
  | q :: l' => if String.leb p q then p :: l else q :: insert_path p l'
  end.

(** [sorted(paths)]: strings in lexicographic order. *)
Definition sorted (paths : list string) : list string :=
  fold_right insert_path [] paths.

(** [sorted(glob.glob(dir + '/*.csv'))] *)
Definition sorted_glob_csv {D R} (dir : string) : M D R (list string) :=
  fun w => (Ok (sorted (List.filter (matches_csv dir) (map fst (map_to_list (fs w))))), w).

(** [[pd.read_csv(f) for f in files]] *)
Fixpoint read_all {D R} (files : list string) : M D R (list (list R)) :=
  match files with
  | [] => ret []
  | f :: rest =>
      df <- read_csv f ;;
      dfs <- read_all rest ;;
      ret (df :: dfs)
  end.

(** What [pd.to_datetime] makes of one value of the column: it raises
    [ValueError] on a string that is no date, it gives [NaT] for a
    missing value, and a timestamp otherwise. *)
Inductive Parsed : Type :=
| Unparseable
| NaT
| Timestamp (t : Z).

Definition parses (p : Parsed) : bool :=
  match p with
  | Unparseable => false
  | NaT | Timestamp _ => true
  end.

Definition timestamp_of (p : Parsed) : option Z :=
  match p with
  | Timestamp t => Some t
  | Unparseable | NaT => None
  end.

Section SortValues.
(** [ts] is the timestamp of the row's [pub_date]; [None] is [NaT]. *)
Context {R : Type} (ts : R -> option Z).

(** [a] may stand before [b] when sorting descending, [NaT] last. *)
Definition precedes (a b : option Z) : bool :=
  match a, b with
  | Some x, Some y => y <=? x
  | Some _, None => true
  | None, Some _ => false
  | None, None => true
  end.

Fixpoint insert_desc (r : R) (l : list R) : list R :=
  match l with
  | [] => [r]
  | x :: l' =>
      if precedes (ts r) (ts x) then r :: l else x :: insert_desc r l'
  end.

(** [df.sort_values('pub_date', ascending=False)].  pandas promises the
    order of the timestamps and nothing about ties; the properties
    below use no more than that. *)
Definition sort_values (df : list R) : list R :=
  fold_right insert_desc [] df.

Definition desc (a b : R) : Prop := precedes (ts a) (ts b) = true.

End SortValues.

(** * [web_scraping_pt1.py]: the NYTimes script *)

Module NYTimes.

(** An entry of a document's ['keywords'] array. *)
Record Keyword : Type := mkKeyword { kw_name : JField; kw_value : JField }.

(** The value under ['headline']: missing, an object with its ['main']
    field, or anything else ([null], a string, ...). *)
Inductive JHeadline : Type :=
| HMissing
| HDict (main : JField)
| HNotDict.

Inductive JKeywords : Type :=
| KMissing
| KList (kws : list Keyword)
| KNotList.

(** A raw document of ['response']['docs'].  The columns that
    [parse_articles] copies with a plain [article.get(name, default)]
    are represented by [snippet] and [section_name]; [word_count],
    [abstract], [news_desk], [subsection_name], [type_of_material] and
    [byline] are read the same way and cannot raise. *)
Record Doc : Type := mkDoc {
  d_headline : JHeadline;
  d_pub_date : JField;
  d_snippet : JField;
  d_web_url : JField;
  d_section_name : JField;
  d_keywords : JKeywords
}.

Record Row : Type := mkRow {
  headline : Cell;
  pub_date : Cell;
  snippet : Cell;
  web_url : Cell;
  section_name : Cell;
  keywords : Cell
}.

(** [[kw['value'] for kw in kws if kw.get('name') == 'subject']],
    [None] when it (or the [join] over it) raises. *)
Fixpoint subject_values (kws : list Keyword) : option (list string) :=
  match kws with
  | [] => Some []
  | kw :: rest =>
      if bool_decide (get (kw_name kw) = CStr "subject")
      then match kw_value kw, subject_values rest with
           | Str v, Some vs => Some (v :: vs)
           | _, _ => None
           end
      else subject_values rest
  end.

(** The body of the [try] in [parse_articles]; [None] stands for the
    bare [except: continue]. *)
Definition parse_row (article : Doc) : option Row :=
  match d_headline article with
  | HNotDict => None
  | h =>
      let headline :=
        match h with
        | HDict main => get_default main ""
        | _ => CStr ""
        end in
      match
        match d_keywords article with
        | KMissing => Some []
        | KList kws => subject_values kws
        | KNotList => None
        end
      with
      | None => None
      | Some vs =>
          Some {| headline := headline;
                  pub_date := get_default (d_pub_date article) "";
                  snippet := get_default (d_snippet article) "";
                  web_url := get_default (d_web_url article) "";
                  section_name := get_default (d_section_name article) "";
                  keywords := CStr (String.concat ", " vs) |}
      end
  end.

(** [parse_articles(response)] *)
Definition parse_articles (response : option (Body Doc)) : list Row :=
  match response with
  | None | Some BEmpty | Some BOther => []
  | Some (BResponse r) =>
      match r_docs r with
      | None => []
      | Some articles => omap parse_row articles
      end
  end.

(** [len(df)] *)
Definition len {A} (df : list A) : Z := Z.of_nat (length df).

(** [pd.to_datetime] is a parameter of the final combination:
    [to_datetime c] is what it makes of the value [c] of the column
    [pub_date]; [timestamp] is the timestamp of a row, [None] for NaT. *)
Definition timestamp (to_datetime : Cell -> Parsed) (r : Row) : option Z :=
  timestamp_of (to_datetime (pub_date r)).

Definition output_dir : string := "nytimes_trump_covid".

(** [f'nytimes_trump_covid/{year}-{month:02d}.csv'] *)
Definition csv_path (y m : Z) : string :=
  String.append output_dir
    (String.append "/" (String.append (pretty y)
       (String.append "-" (String.append (pad2 m) ".csv")))).

Definition combined_path : string := "nytimes_trump_covid/combined.csv".

Section Script.
Variable net : Net Doc.

#[local] Abbreviation M := (M Doc Row).

(** One turn of [for i, query in enumerate(queries)] in
    [search_trump_covid_comprehensive]; [st] is
    [(all_docs, seen_urls)]. *)
Definition query_step (start_date end_date : date) (page : Z)
    (i : Z) (query : Query) (st : list Doc * gset string)
  : M (list Doc * gset string) :=
  try_except
    ((if 0 <? i then sleep 2 else ret tt) ;;
     response <- requests_get net (mkRequest query start_date end_date page) ;;
     if status_code response =? 429 then
       sleep 60 ;;
       ret st
     else if negb (status_code response =? 200) then
       ret st
     else
       json_response <- json response ;;
       match json_response with
       | BResponse r =>
           match r_docs r with
           | Some docs => ret (merge_docs d_web_url docs st)
           | None => ret st
           end
       | _ => ret st
       end)
    (fun _ => ret st).

Fixpoint query_loop (start_date end_date : date) (page : Z)
    (qs : list (Z * Query)) (st : list Doc * gset string)
  : M (list Doc * gset string) :=
  match qs with
  | [] => ret st
  | (i, query) :: rest =>
      st' <- query_step start_date end_date page i query st ;;
      query_loop start_date end_date page rest st'
  end.

(** The documents the five queries leave in [all_docs]. *)
Definition comprehensive_docs (y m page : Z) : M (list Doc) :=
  let '(start_date, end_date) := month_window y m in
  st <- query_loop start_date end_date page (enumerate queries) ([], ∅) ;;
  ret (fst st).

(** [search_trump_covid_comprehensive(year, month, page)] *)
Definition search_trump_covid_comprehensive (y m page : Z) : M (option (Body Doc)) :=
  all_docs <- comprehensive_docs y m page ;;
  match all_docs with
  | _ :: _ => ret (Some (BResponse (mkRespObj (Some all_docs) None None)))
  | [] => ret None
  end.

(** [search_trump_covid_single(year, month, page)] *)
Definition search_trump_covid_single (y m page : Z) : M (option (Body Doc)) :=
  let '(start_date, end_date) := month_window y m in
  try_except
    (response <- requests_get net (mkRequest QSingle start_date end_date page) ;;
     if status_code response =? 429 then
       sleep 60 ;;
       ret None
     else if negb (status_code response =? 200) then
       ret None
     else
       b <- json response ;;
       ret (Some b))
    (fun _ => ret None).

(** [for page in range(1, 15)] of [get_all_articles_for_month], as a
    recursion over the pages left; every [break] returns. *)
Fixpoint page_loop (y m : Z) (pages : list Z) (all_articles : list (list Row))
  : M (list (list Row)) :=
  match pages with
  | [] => ret all_articles
  | page :: rest =>
      sleep 7 ;;
      response <- search_trump_covid_single y m page ;;
      if negb (body_truthy response) then ret all_articles
      else
        let df := parse_articles response in
        if len df =? 0 then ret all_articles
        else
          let all_articles := all_articles ++ [df] in
          if len df <? 10 then ret all_articles
          else page_loop y m rest all_articles
  end.

(** [get_all_articles_for_month(year, month)] *)
Definition get_all_articles_for_month (y m : Z) : M (list Row) :=
  response <- search_trump_covid_comprehensive y m 0 ;;
  let all_articles :=
    if body_truthy response then
      let df := parse_articles response in
      if 0 <? len df then [df] else []
    else [] in
  all_articles <- page_loop y m (py_range 1 15) all_articles ;;
  match all_articles with
  | _ :: _ => ret (drop_duplicates web_url (concat all_articles))
  | [] => ret []
  end.

(** The body of the [while] loop of [scrape_by_month] for one month:
    the DataFrame [df] it binds and the count it records. *)
Definition month_body (y m : Z) : M (list Row * Z) :=
  let csv_path := csv_path y m in
  present <- path_exists csv_path ;;
  if present then
    df <- read_csv csv_path ;;
    ret (df, len df)
  else
    df <- get_all_articles_for_month y m ;;
    if 0 <? len df then
      to_csv df csv_path ;;
      ret (df, len df)
    else ret (df, 0).

(** [while current <= end_date] of [scrape_by_month]; the loop state
    is [current], [total] and [monthly_counts] (each entry: year,
    month and count — the script formats the first two as
    ['YYYY-MM']). *)
Fixpoint scrape_loop (fuel : nat) (current end_date : date)
    (total : Z) (monthly_counts : list (Z * Z * Z))
  : M (Z * list (Z * Z * Z)) :=
  if date_leb current end_date then
    match fuel with
    | O => out_of_fuel
    | S fuel' =>
        let y := year current in
        let m := month current in
        '(_, count) <- month_body y m ;;
        scrape_loop fuel' (next_month current) end_date
          (total + count) (monthly_counts ++ [(y, m, count)])
    end
  else ret (total, monthly_counts).

(** [scrape_by_month(start_date, end_date)] *)
Definition scrape_by_month (fuel : nat) (start_date end_date : date)
  : M (Z * list (Z * Z * Z)) :=
  scrape_loop fuel start_date end_date 0 [].

(** The module-level code under "Combine all files"; it yields the
    frame written to [combined.csv], or [None] when no file matched;
    [pd.to_datetime] raises when a [pub_date] of the deduplicated frame
    is no date, before anything is sorted or written. *)
Definition combine_all_files (to_datetime : Cell -> Parsed) : M (option (list Row)) :=
  files <- sorted_glob_csv output_dir ;;
  match files with
  | _ :: _ =>
      dfs <- read_all files ;;
      let combined := concat dfs in
      let combined := drop_duplicates web_url combined in
      if forallb (fun r => parses (to_datetime (pub_date r))) combined then
        let combined := sort_values (timestamp to_datetime) combined in
        to_csv combined combined_path ;;
        ret (Some combined)
      else
        raise ValueError
  | [] => ret None
  end.

(** The whole script. *)
Definition main (fuel : nat) (to_datetime : Cell -> Parsed)
    (start_date end_date : date) : M (option (list Row)) :=
  scrape_by_month fuel start_date end_date ;;
  combine_all_files to_datetime.
End Script.

(** *** Stop conditions of the pagination pass

    They are read off the outcome [o] of the request for a page:
    [no_page]: the request failed, or the body is the empty object
    ([if not response: break]); [empty_page]: a page with zero parsed
    documents ([if len(df) == 0: break]); [short_page]: a page with
    fewer than 10 results ([if len(df) < 10: break]). *)
Definition no_page (o : Outcome Doc) : bool :=
  negb (body_truthy (single_result o)).

Definition empty_page (o : Outcome Doc) : bool :=
  body_truthy (single_result o) && (len (parse_articles (single_result o)) =? 0).

Definition short_page (o : Outcome Doc) : bool :=
  body_truthy (single_result o) && (len (parse_articles (single_result o)) <? 10).

Definition page_stops (o : Outcome Doc) : bool :=
  no_page o || empty_page o || short_page o.

(** The pages of the pagination pass: [range(1, 15)]. *)
Definition pages : list Z := py_range 1 15.

(** The requests of the multi-query pass and of the pagination pass
    for the window [(s, e)]. *)
Definition query_requests (s e : date) (page : Z) : list Request :=
  map (fun q => mkRequest q s e page) queries.

Definition page_requests (s e : date) (ps : list Z) : list Request :=
  map (fun p => mkRequest QSingle s e p) ps.

(** The frames the pagination pass appends for the outcomes [os] of
    its requests: the parsed pages that are not empty. *)
Definition page_frames (os : list (Outcome Doc)) : list (list Row) :=
  List.filter (fun df => negb (len df =? 0))
    (map (fun o => parse_articles (single_result o)) os).

(** The rows of a month before [drop_duplicates]: the parsed documents
    of the multi-query pass (events [evs_q]) followed by the parsed
    pages of the pagination pass (events [evs_p]). *)
Definition month_rows (evs_q evs_p : list (Event Doc)) : list Row :=
  omap parse_row (merged d_web_url (delivered_docs evs_q)) ++
  flat_map (fun o => parse_articles (single_result o)) (outcomes_of evs_p).

End NYTimes.

(** * [web_scraping_guardian.py]: the Guardian script *)

Module Guardian.

(** An entry of a document's ['tags'] array. *)
Record Tag : Type := mkTag { tag_type : JField; tag_webTitle : JField }.

Inductive JTags : Type :=
| TMissing
| TList (tags : list Tag)
| TNotList.

(** The object under ['fields']. *)
Record Fields : Type := mkFields {
  f_headline : JField;
  f_standfirst : JField;
  f_trailText : JField;
  f_byline : JField
}.

Inductive JFields : Type :=
| FMissing
| FDict (f : Fields)
| FNotDict.

(** A raw document of ['response']['results'].  [sectionName] stands
    for the columns copied with a plain [article.get(name, '')]
    ([pillarName] and [type] are read the same way), [byline] for
    those copied from [fields] ([wordcount] likewise). *)
Record Doc : Type := mkDoc {
  d_id : JField;
  d_webTitle : JField;
  d_webPublicationDate : JField;
  d_webUrl : JField;
  d_sectionName : JField;
  d_fields : JFields;
  d_tags : JTags
}.

Record Row : Type := mkRow {
  headline : Cell;
  pub_date : Cell;
  snippet : Cell;
  web_url : Cell;
  abstract : Cell;
  section_name : Cell;
  byline : Cell;
  keywords : Cell;
  article_id : Cell
}.

(** [[tag.get('webTitle', '') for tag in tags if tag.get('type') == 'keyword']],
    [None] when the [join] over it raises (a title that is [null]). *)
Fixpoint keyword_titles (tags : list Tag) : option (list string) :=
  match tags with
  | [] => Some []
  | tag :: rest =>
      if bool_decide (get (tag_type tag) = CStr "keyword")
      then match get_default (tag_webTitle tag) "", keyword_titles rest with
           | CStr t, Some ts => Some (t :: ts)
           | _, _ => None
           end
      else keyword_titles rest
  end.

(** Python's [a or b] on cells. *)
Definition cell_or (a b : Cell) : Cell := if truthy a then a else b.

(** The body of the [try] in [parse_guardian_articles]; [None] stands
    for [except Exception: continue]. *)
Definition parse_row (article : Doc) : option Row :=
  match d_fields article with
  | FNotDict => None
  | jf =>
      let fields :=
        match jf with
        | FDict f => f
        | _ => mkFields Missing Missing Missing Missing
        end in
      let snippet :=
        cell_or (get_default (f_standfirst fields) "")
                (get_default (f_trailText fields) "") in
      match
        match d_tags article with
        | TMissing => Some []
        | TList tags => keyword_titles tags
        | TNotList => None
        end
      with
      | None => None
      | Some ts =>
          Some {| headline :=
                    match f_headline fields with
                    | Missing => get_default (d_webTitle article) ""
                    | Null => CNone
                    | Str s => CStr s
                    end;
                  pub_date := get_default (d_webPublicationDate article) "";
                  snippet := snippet;
                  web_url := get_default (d_webUrl article) "";
                  abstract := snippet;
                  section_name := get_default (d_sectionName article) "";
                  byline := get_default (f_byline fields) "";
                  keywords := CStr (String.concat ", " ts);
                  article_id := get_default (d_id article) "" |}
      end
  end.

(** [parse_guardian_articles(response)] *)
Definition parse_guardian_articles (response : option (Body Doc)) : list Row :=
  match response with
  | None | Some BEmpty | Some BOther => []
  | Some (BResponse r) =>
      match r_docs r with
      | None => []
      | Some articles => omap parse_row articles
      end
  end.

(** [len(df)] *)
Definition len {A} (df : list A) : Z := Z.of_nat (length df).

(** [pd.to_datetime] is a parameter of the final combination:
    [to_datetime c] is what it makes of the value [c] of the column
    [pub_date]; [timestamp] is the timestamp of a row, [None] for NaT. *)
Definition timestamp (to_datetime : Cell -> Parsed) (r : Row) : option Z :=
  timestamp_of (to_datetime (pub_date r)).

Definition output_dir : string := "guardian_trump_covid".

(** [f'{output_dir}/{year}-{month:02d}.csv'] *)
Definition csv_path (y m : Z) : string :=
  String.append output_dir
    (String.append "/" (String.append (pretty y)
       (String.append "-" (String.append (pad2 m) ".csv")))).

Definition combined_path : string := "guardian_trump_covid/combined.csv".

Definition max_pages : Z := 20.

(** [response.get('response', {}).get(name, 0)] for the two
    pagination fields. *)
Definition total_pages_of (response : option (Body Doc)) : Z :=
  match response with
  | Some (BResponse r) => default 0 (r_pages r)
  | _ => 0
  end.

Definition current_page_of (response : option (Body Doc)) : Z :=
  match response with
  | Some (BResponse r) => default 0 (r_currentPage r)
  | _ => 0
  end.

Section Script.
Variable net : Net Doc.

#[local] Abbreviation M := (M Doc Row).

(** One turn of [for i, query in enumerate(queries)] in
    [search_trump_covid_comprehensive]; [st] is
    [(all_articles, seen_ids)]. *)
Definition query_step (from_date to_date : date) (page : Z)
    (i : Z) (query : Query) (st : list Doc * gset string)
  : M (list Doc * gset string) :=
  try_except
    ((if 0 <? i then sleep 1 else ret tt) ;;
     response <- requests_get net (mkRequest query from_date to_date page) ;;
     if status_code response =? 429 then
       sleep 10 ;;
       ret st
     else if negb (status_code response =? 200) then
       ret st
     else
       json_response <- json response ;;
       match json_response with
       | BResponse r =>
           match r_docs r with
           | Some results => ret (merge_docs d_id results st)
           | None => ret st
           end
       | _ => ret st
       end)
    (fun _ => ret st).

Fixpoint query_loop (from_date to_date : date) (page : Z)
    (qs : list (Z * Query)) (st : list Doc * gset string)
  : M (list Doc * gset string) :=
  match qs with
  | [] => ret st
  | (i, query) :: rest =>
      st' <- query_step from_date to_date page i query st ;;
      query_loop from_date to_date page rest st'
  end.

(** The documents the five queries leave in [all_articles]. *)
Definition comprehensive_docs (from_date to_date : date) (page : Z) : M (list Doc) :=
  st <- query_loop from_date to_date page (enumerate queries) ([], ∅) ;;
  ret (fst st).

(** [search_trump_covid_comprehensive(from_date, to_date, page)] *)
Definition search_trump_covid_comprehensive (from_date to_date : date) (page : Z)
  : M (option (Body Doc)) :=
  all_articles <- comprehensive_docs from_date to_date page ;;
  match all_articles with
  | _ :: _ => ret (Some (BResponse (mkRespObj (Some all_articles) None None)))
  | [] => ret None
  end.

(** [search_trump_covid_single(from_date, to_date, page)] *)
Definition search_trump_covid_single (from_date to_date : date) (page : Z)
  : M (option (Body Doc)) :=
  try_except
    (response <- requests_get net (mkRequest QSingle from_date to_date page) ;;
     if status_code response =? 429 then
       sleep 10 ;;
       ret None
     else if negb (status_code response =? 200) then
       ret None
     else
       b <- json response ;;
       ret (Some b))
    (fun _ => ret None).

(** [while page <= max_pages] of [get_all_articles_for_month]; every
    [break] returns. *)
Fixpoint page_loop (fuel : nat) (from_date to_date : date) (page : Z)
    (all_articles : list (list Row)) : M (list (list Row)) :=
  if page <=? max_pages then
    match fuel with
    | O => out_of_fuel
    | S fuel' =>
        sleep 1 ;;
        response <- search_trump_covid_single from_date to_date page ;;
        if negb (body_truthy response) then ret all_articles
        else
          let total_pages := total_pages_of response in
          let current_page := current_page_of response in
          let df := parse_guardian_articles response in
          if len df =? 0 then ret all_articles
          else
            let all_articles := all_articles ++ [df] in
            if total_pages <=? current_page then ret all_articles
            else page_loop fuel' from_date to_date (page + 1) all_articles
    end
  else ret all_articles.

(** [get_all_articles_for_month(year, month)]; [fuel] bounds the
    turns of the pagination loop. *)
Definition get_all_articles_for_month (fuel : nat) (y m : Z) : M (list Row) :=
  let '(from_date, to_date) := month_window y m in
  response <- search_trump_covid_comprehensive from_date to_date 1 ;;
  let all_articles :=
    if body_truthy response then
      let df := parse_guardian_articles response in
      if 0 <? len df then [df] else []
    else [] in
  all_articles <- page_loop fuel from_date to_date 2 all_articles ;;
  match all_articles with
  | _ :: _ => ret (drop_duplicates article_id (concat all_articles))
  | [] => ret []
  end.

(** The body of the [while] loop of [scrape_by_month] for one month:
    the DataFrame [df] it binds and the count it records. *)
Definition month_body (pfuel : nat) (y m : Z) : M (list Row * Z) :=
  let csv_path := csv_path y m in
  present <- path_exists csv_path ;;
  if present then
    df <- read_csv csv_path ;;
    ret (df, len df)
  else
    df <- get_all_articles_for_month pfuel y m ;;
    if 0 <? len df then
      to_csv df csv_path ;;
      ret (df, len df)
    else ret (df, 0).

(** [while current <= end_date] of [scrape_by_month]. *)
Fixpoint scrape_loop (pfuel fuel : nat) (current end_date : date)
    (total : Z) (monthly_counts : list (Z * Z * Z))
  : M (Z * list (Z * Z * Z)) :=
  if date_leb current end_date then
    match fuel with
    | O => out_of_fuel
    | S fuel' =>
        let y := year current in
        let m := month current in
        '(_, count) <- month_body pfuel y m ;;
        scrape_loop pfuel fuel' (next_month current) end_date
          (total + count) (monthly_counts ++ [(y, m, count)])
    end
  else ret (total, monthly_counts).

(** [scrape_by_month(start_date, end_date)] *)
Definition scrape_by_month (pfuel fuel : nat) (start_date end_date : date)
  : M (Z * list (Z * Z * Z)) :=
  scrape_loop pfuel fuel start_date end_date 0 [].

(** The module-level code under "Combine all files"; it yields the
    frame written to [combined.csv], or [None] when no file matched;
    [pd.to_datetime] raises when a [pub_date] of the deduplicated frame
    is no date, before anything is sorted or written. *)
Definition combine_all_files (to_datetime : Cell -> Parsed) : M (option (list Row)) :=
  files <- sorted_glob_csv output_dir ;;
  match files with
  | _ :: _ =>
      dfs <- read_all files ;;
      let combined := concat dfs in
      let combined := drop_duplicates article_id combined in
      if forallb (fun r => parses (to_datetime (pub_date r))) combined then
        let combined := sort_values (timestamp to_datetime) combined in
        to_csv combined combined_path ;;
        ret (Some combined)
      else
        raise ValueError
  | [] => ret None
  end.

(** The whole script. *)
Definition main (pfuel fuel : nat) (to_datetime : Cell -> Parsed)
    (start_date end_date : date) : M (option (list Row)) :=
  scrape_by_month pfuel fuel start_date end_date ;;
  combine_all_files to_datetime.
End Script.

(** *** Stop conditions of the pagination pass

    Read off the outcome [o] of the request for a page: [no_page]: the
    request failed, or the body is the empty object
    ([if not response: break]); [empty_page]: a page with zero parsed
    documents ([if len(df) == 0: break]); [last_page]: the pagination
    metadata reports [currentPage >= pages]. *)
Definition no_page (o : Outcome Doc) : bool :=
  negb (body_truthy (single_result o)).

Definition empty_page (o : Outcome Doc) : bool :=
  body_truthy (single_result o) &&
  (len (parse_guardian_articles (single_result o)) =? 0).

Definition last_page (o : Outcome Doc) : bool :=
  body_truthy (single_result o) &&
  (total_pages_of (single_result o) <=? current_page_of (single_result o)).

Definition page_stops (o : Outcome Doc) : bool :=
  no_page o || empty_page o || last_page o.

(** [n] consecutive page numbers starting with [page]. *)
Definition pages_from (page : Z) (n : nat) : list Z :=
  map (fun k => page + Z.of_nat k) (seq 0 n).

Definition query_requests (s e : date) (page : Z) : list Request :=
  map (fun q => mkRequest q s e page) queries.

Definition page_requests (s e : date) (ps : list Z) : list Request :=
  map (fun p => mkRequest QSingle s e p) ps.

(** The frames the pagination pass appends for the outcomes [os] of
    its requests: the parsed pages that are not empty. *)
Definition page_frames (os : list (Outcome Doc)) : list (list Row) :=
  List.filter (fun df => negb (len df =? 0))
    (map (fun o => parse_guardian_articles (single_result o)) os).

(** The rows of a month before [drop_duplicates]. *)
Definition month_rows (evs_q evs_p : list (Event Doc)) : list Row :=
  omap parse_row (merged d_id (delivered_docs evs_q)) ++
  flat_map (fun o => parse_guardian_articles (single_result o)) (outcomes_of evs_p).

End Guardian.

(** * Concrete inputs used by the examples below *)

Module Examples.

(** A reader for timestamps: the decimal digits of the string, in
    order (so ["2023-08-01"] reads as [20230801]); the empty string
    and [None] are NaT, and a string without a digit is no date. *)
Fixpoint digits_value (s : string) (acc : Z) : Z :=
  match s with
  | EmptyString => acc
  | String c s' =>
      let n := Z.of_nat (nat_of_ascii c) in
      if (48 <=? n) && (n <=? 57) then digits_value s' (10 * acc + (n - 48))
      else digits_value s' acc
  end.

Fixpoint has_digit (s : string) : bool :=
  match s with
  | EmptyString => false
  | String c s' =>
      let n := Z.of_nat (nat_of_ascii c) in
      ((48 <=? n) && (n <=? 57)) || has_digit s'
  end.

Definition to_datetime (c : Cell) : Parsed :=
  match c with
  | CStr s =>
      if String.eqb s "" then NaT
      else if has_digit s then Timestamp (digits_value s 0)
      else Unparseable
  | CNone => NaT
  end.

(** NYTimes documents and rows with the given URL and date. *)
Definition nyt_doc (url pub : string) : NYTimes.Doc :=
  NYTimes.mkDoc (NYTimes.HDict (Str url)) (Str pub) Missing (Str url) Missing
    NYTimes.KMissing.

Definition nyt_row (url pub : string) : NYTimes.Row :=
  NYTimes.mkRow (CStr url) (CStr pub) (CStr "") (CStr url) (CStr "") (CStr "").

(** A document whose JSON object has no ['web_url'] key. *)
Definition nyt_doc_without_url : NYTimes.Doc :=
  NYTimes.mkDoc (NYTimes.HDict (Str "Untitled")) (Str "2023-08-05") Missing Missing
    Missing NYTimes.KMissing.

(** Guardian documents and rows with the given id and date. *)
Definition gdn_doc (id pub : string) : Guardian.Doc :=
  Guardian.mkDoc (Str id) (Str id) (Str pub) Missing Missing Guardian.FMissing
    Guardian.TMissing.

Definition gdn_row (id pub : string) : Guardian.Row :=
  Guardian.mkRow (CStr id) (CStr pub) (CStr "") (CStr "") (CStr "") (CStr "")
    (CStr "") (CStr "") (CStr id).

(** A 200 response carrying [docs]. *)
Definition ok_page {D} (docs : list D) : Outcome D :=
  Responded (mkResponse 200 (Some (BResponse (mkRespObj (Some docs) None None)))).

(** A response with status [code] and a body that does not decode. *)
Definition status_only {D} (code : Z) : Outcome D :=
  Responded (mkResponse code None).

(** Networks.  [net_down]: every request raises.  [net_quiet]: every
    request succeeds with zero documents.  [net_pages code]: the five
    queries each return the document [u1]; every page of the
    pagination pass is answered with status [code].  [net_no_url]: the
    queries return nothing and page 1 holds one document without
    ['web_url']. *)
Definition net_down {D} : Net D := fun _ _ => Raised.

Definition net_quiet {D} : Net D := fun _ _ => ok_page [].

Definition net_pages (code : Z) : Net NYTimes.Doc := fun _ rq =>
  match rq_query rq with
  | QSingle => status_only code
  | _ => ok_page [nyt_doc "u1" "2023-08-01"]
  end.

Definition net_no_url : Net NYTimes.Doc := fun _ rq =>
  match rq_query rq with
  | QSingle => ok_page [nyt_doc_without_url]
  | _ => ok_page []
  end.

Definition gdn_net_quiet : Net Guardian.Doc := net_quiet.

(** An empty disk and an empty trace. *)
Definition nyt_fresh : World NYTimes.Doc NYTimes.Row := mkWorld ∅ [].
Definition gdn_fresh : World Guardian.Doc Guardian.Row := mkWorld ∅ [].

(** A disk on which August 2023 is already persisted. *)
Definition nyt_august : list NYTimes.Row :=
  [nyt_row "u1" "2023-08-01"; nyt_row "u2" "2023-08-02"].

Definition nyt_resumed : World NYTimes.Doc NYTimes.Row :=
  mkWorld (<[NYTimes.csv_path 2023 8 := nyt_august]> ∅) [].

Definition gdn_august : list Guardian.Row :=
  [gdn_row "world/1" "2023-08-01"].

Definition gdn_resumed : World Guardian.Doc Guardian.Row :=
  mkWorld (<[Guardian.csv_path 2023 8 := gdn_august]> ∅) [].

(** Two monthly files with the key sets {u1, u2} and {u2, u3}; the two
    rows of [u2] differ in their date. *)
Definition nyt_two_files : World NYTimes.Doc NYTimes.Row :=
  mkWorld
    (<[NYTimes.csv_path 2023 8 := [nyt_row "u1" "2023-08-01"; nyt_row "u2" "2023-08-31"]]>
       (<[NYTimes.csv_path 2023 9 := [nyt_row "u2" "2023-09-01"; nyt_row "u3" "2023-09-02"]]>
          ∅))
    [].

(** The disk of a second run: the monthly file of August 2023, and the
    [combined.csv] of an earlier run that still holds the row [u9] of a
    month whose file is gone. *)
Definition nyt_second_run : World NYTimes.Doc NYTimes.Row :=
  mkWorld
    (<[NYTimes.csv_path 2023 8 := [nyt_row "u1" "2023-08-01"]]>
       (<[NYTimes.combined_path :=
            [nyt_row "u9" "2023-09-02"; nyt_row "u1" "2023-08-01"]]> ∅))
    [].

End Examples.

(** * Further vocabulary *)

(** Two requests stand next to each other in the trace, with no pause
    between them. *)
Fixpoint back_to_back {D} (evs : list (Event D)) : bool :=
  match evs with
  | [] => false
  | ev :: rest =>
      match ev, rest with
      | EvRequest _ _, EvRequest _ _ :: _ => true
      | _, _ => false
      end || back_to_back rest
  end.

(** The events are none, or begin with a pause. *)
Definition sleep_led {D} (evs : list (Event D)) : bool :=
  match evs with
  | [] | EvSleep _ :: _ => true
  | EvRequest _ _ :: _ => false
  end.

(** The piece of script [m] ends normally and logs events among which
    no two requests are back to back; with [led], its events begin with
    a pause (or there are none). *)
Definition paced_run {D R A} (led : bool) (m : M D R A) : Prop :=
  forall w, exists a evs,
    m w = (Ok a, log evs w) /\
    back_to_back evs = false /\
    (led = true -> sleep_led evs = true).

(** The months [(year, month)] of [n] turns of the driver's loop that
    begins at [current]. *)
Fixpoint months_from (current : date) (n : nat) : list (Z * Z) :=
  match n with
  | O => []
  | S n' => (year current, month current) :: months_from (next_month current) n'
  end.

(** The driver's loop as an iteration over the months it visits: the
    loop body [body] for each month in turn, with the loop's
    accumulators [total] and [monthly_counts]. *)
Fixpoint visit_months {D R} (body : Z -> Z -> M D R (list R * Z))
    (months : list (Z * Z)) (total : Z) (monthly_counts : list (Z * Z * Z))
  : M D R (Z * list (Z * Z * Z)) :=
  match months with
  | [] => ret (total, monthly_counts)
  | (y, m) :: rest =>
      '(_, count) <- body y m ;;
      visit_months body rest (total + count) (monthly_counts ++ [(y, m, count)])
  end.

(** The sum of the counts of the entries of [monthly_counts]. *)
Definition sum_counts (monthly_counts : list (Z * Z * Z)) : Z :=
  fold_right (fun c acc => c.2 + acc) 0 monthly_counts.

(** A string of decimal digits. *)
Fixpoint digits_only (s : string) : bool :=
  match s with
  | EmptyString => true
  | String c s' =>
      let n := Z.of_nat (nat_of_ascii c) in
      (48 <=? n) && (n <=? 57) && digits_only s'
  end.

(** A string that begins with a decimal digit. *)
Definition starts_with_digit (s : string) : bool :=
  match s with
  | EmptyString => false
  | String c _ =>
      let n := Z.of_nat (nat_of_ascii c) in
      (48 <=? n) && (n <=? 57)
  end.

(** The path [f'{dir}/{year}-{month:02d}.csv'] of either script. *)
Definition monthly_path (dir : string) (y m : Z) : string :=
  String.append dir
    (String.append "/" (String.append (pretty y)
       (String.append "-" (String.append (pad2 m) ".csv")))).

(** [combined] is a combination of the [.csv] files that the directory
    [dir] holds in the world [w]: newest first with the rows without a
    date last, one row for each key, every row out of a listed file, and
    every key of a listed file present. *)
Definition combined_from {D R} (key : R -> Cell) (ts : R -> option Z)
    (dir : string) (w : World D R) (combined : list R) : Prop :=
  Sorted (desc ts) combined /\
  NoDup (map key combined) /\
  (forall l1 a l2, combined = l1 ++ a :: l2 -> ts a = None ->
                   Forall (fun b => ts b = None) l2) /\
  (forall r, In r combined ->
     exists f df, matches_csv dir f = true /\ fs w !! f = Some df /\ In r df) /\
  (forall f df r, matches_csv dir f = true -> fs w !! f = Some df -> In r df ->
     exists r', In r' combined /\ key r' = key r).

(** A page of two documents whose second has a [headline] that is not an
    object, and a page whose only document has [fields] that is not an
    object: the [try] of the parser skips these documents. *)
Definition nyt_page_bad_headline : Outcome NYTimes.Doc :=
  Examples.ok_page
    [Examples.nyt_doc "u1" "2023-08-01";
     NYTimes.mkDoc NYTimes.HNotDict (Str "2023-08-02") Missing (Str "u2") Missing
       NYTimes.KMissing].

Definition gdn_page_bad_fields : Outcome Guardian.Doc :=
  Examples.ok_page
    [Guardian.mkDoc (Str "world/1") (Str "t") (Str "2023-08-01") Missing Missing
       Guardian.FNotDict Guardian.TMissing].

(** A disk whose one monthly file holds a row with a [pub_date] that is
    no date. *)
Definition nyt_bad_date : World NYTimes.Doc NYTimes.Row :=
  mkWorld (<[NYTimes.csv_path 2023 8 := [Examples.nyt_row "u1" "not a date"]]> ∅) [].

(** Networks that deliver documents of every kind.  The first query
    brings a document and one with the key ['']; the first page of the
    pagination pass brings a document and one that does not parse. *)
Definition nyt_net_mixed : Net NYTimes.Doc := fun _ rq =>
  match rq_query rq with
  | Q1 =>
      Examples.ok_page [Examples.nyt_doc "u0" "2023-08-03"; Examples.nyt_doc "" "2023-08-04"]
  | QSingle => if rq_page rq =? 1 then nyt_page_bad_headline else Examples.ok_page []
  | _ => Examples.ok_page []
  end.

Definition gdn_page_mixed : Outcome Guardian.Doc :=
  Examples.ok_page
    [Examples.gdn_doc "world/1" "2023-08-01";
     Guardian.mkDoc (Str "world/2") (Str "t") (Str "2023-08-02") Missing Missing
       Guardian.FNotDict Guardian.TMissing].

Definition gdn_net_mixed : Net Guardian.Doc := fun _ rq =>
  match rq_query rq with
  | Q1 =>
      Examples.ok_page [Examples.gdn_doc "world/0" "2023-08-03"; Examples.gdn_doc "" "2023-08-04"]
  | QSingle => if rq_page rq =? 2 then gdn_page_mixed else Examples.ok_page []
  | _ => Examples.ok_page []
  end.

(** ** Dates as [datetime] has them *)

Definition MINYEAR : Z := 1.
Definition MAXYEAR : Z := 9999.

(** [datetime.date(y, m, d)]; [None] stands for the [ValueError] the
    constructor raises for a year outside [MINYEAR..MAXYEAR], a month
    outside 1..12 or a day the month does not have. *)
Definition py_date (y m d : Z) : option date :=
  if (MINYEAR <=? y) && (y <=? MAXYEAR) && (1 <=? m) && (m <=? 12) &&
     (1 <=? d) && (d <=? days_in_month y m)
  then Some (mkdate y m d)
  else None.

(** The window of a month with the checks of the constructor: the
    computation of [month_window], [None] where it raises. *)
Definition py_month_window (y m : Z) : option (date * date) :=
  match py_date y m 1 with
  | None => None
  | Some start_date =>
      match (if m =? 12 then py_date (y + 1) 1 1 else py_date y (m + 1) 1) with
      | None => None
      | Some first_of_next => Some (start_date, sub_one_day first_of_next)
      end
  end.

(** The step of the driver to the next month with the checks of the
    constructor: the computation of [next_month], [None] where it
    raises. *)
Definition py_next_month (current : date) : option date :=
  if month current =? 12 then py_date (year current + 1) 1 1
  else py_date (year current) (month current + 1) 1.

(** The months for which [datetime] has the first day and the first day
    of the month after: every month of the years 1 to 9999 but December
    9999. *)
Definition in_datetime_range (y m : Z) : bool :=
  (1 <=? y) && (y <=? 9999) && (1 <=? m) && (m <=? 12) &&
  negb ((y =? 9999) && (m =? 12)).

(** The last day of a month in the Gregorian calendar, written out
    from the calendar and not from the code: the 31st, or the 30th in
    April, June, September and November; in February the 29th in a year
    that is a multiple of 4 and not of 100, or a multiple of 400, and
    the 28th otherwise.  The windows the code computes are compared
    with it. *)
Definition calendar_last_day (y m : Z) : Z :=
  if m =? 2 then
    if (y mod 4 =? 0) && (negb (y mod 100 =? 0) || (y mod 400 =? 0)) then 29 else 28
  else if (m =? 4) || (m =? 6) || (m =? 9) || (m =? 11) then 30
  else 31.

(** * Properties of the shared definitions *)

Lemma truthy_nonempty c : truthy c = true <-> nonempty_key c.
Proof.
  destruct c as [|s]; simpl.
  - split; [discriminate | intros (s & Hs & _); discriminate].
  - rewrite negb_true_iff. split.
    + intros H. exists s. split; [reflexivity |].
      intros ->. discriminate.
    + intros (s' & [= <-] & Hne). apply String.eqb_neq. exact Hne.
Qed.

Section DedupFacts.
Context {A : Type} (key : A -> Cell).

Lemma has_key_true k r : key r = k -> has_key key k r = true.
Proof. intros H. unfold has_key. apply bool_decide_eq_true_2, H. Qed.

Lemma has_key_false k r : key r <> k -> has_key key k r = false.
Proof. intros H. unfold has_key. apply bool_decide_eq_false_2, H. Qed.

Lemma drop_duplicates_seen_filter df : forall seen k,
  List.filter (has_key key k) (drop_duplicates_seen key seen df) =
  if bool_decide (k ∈ seen) then [] else first_with key k df.
Proof.
  unfold first_with.
  induction df as [|r rest IH]; intros seen k;
    cbn [drop_duplicates_seen List.find].
  - destruct (bool_decide (k ∈ seen)); reflexivity.
  - destruct (decide (key r ∈ seen)) as [Hr | Hr].
    + rewrite (bool_decide_eq_true_2 _ Hr), IH.
      destruct (decide (k ∈ seen)) as [Hk | Hk].
      * rewrite (bool_decide_eq_true_2 _ Hk). reflexivity.
      * rewrite (bool_decide_eq_false_2 _ Hk).
        rewrite has_key_false; [reflexivity |].
        intros Heq. subst k. contradiction.
    + rewrite (bool_decide_eq_false_2 _ Hr). cbn [List.filter].
      destruct (decide (key r = k)) as [Hrk | Hrk].
      * rewrite (has_key_true _ _ Hrk), IH. subst k.
        rewrite bool_decide_eq_true_2 by (left; reflexivity).
        rewrite (bool_decide_eq_false_2 _ Hr). reflexivity.
      * rewrite (has_key_false _ _ Hrk), IH.
        destruct (decide (k ∈ seen)) as [Hk | Hk].
        -- rewrite (bool_decide_eq_true_2 _ Hk).
           rewrite bool_decide_eq_true_2 by (right; exact Hk). reflexivity.
        -- rewrite (bool_decide_eq_false_2 _ Hk).
           rewrite bool_decide_eq_false_2; [reflexivity |].
           intros Hin. apply elem_of_cons in Hin as [Heq | Hin]; [| contradiction].
           subst k. apply Hrk. reflexivity.
Qed.

Lemma drop_duplicates_filter df k :
  List.filter (has_key key k) (drop_duplicates key df) = first_with key k df.
Proof.
  unfold drop_duplicates. rewrite drop_duplicates_seen_filter.
  rewrite bool_decide_eq_false_2; [reflexivity | apply not_elem_of_nil].
Qed.

(** The kept rows are input rows, in input order. *)
Lemma drop_duplicates_seen_sublist df : forall seen,
  sublist (drop_duplicates_seen key seen df) df.
Proof.
  induction df as [|r rest IH]; intros seen; simpl.
  - constructor.
  - destruct (bool_decide (key r ∈ seen)).
    + apply sublist_cons, IH.
    + apply sublist_skip, IH.
Qed.

Lemma drop_duplicates_seen_keys df : forall seen,
  Forall (fun r => key r ∉ seen) (drop_duplicates_seen key seen df) /\
  NoDup (map key (drop_duplicates_seen key seen df)).
Proof.
  induction df as [|r rest IH]; intros seen; simpl.
  - split; constructor.
  - destruct (bool_decide (key r ∈ seen)) eqn:Hr.
    + apply IH.
    + apply bool_decide_eq_false in Hr.
      destruct (IH (key r :: seen)) as [Hout Hnd]. split.
      * constructor; [exact Hr |].
        eapply Forall_impl; [exact Hout |].
        intros x Hx Hin. apply Hx. right. exact Hin.
      * simpl. apply NoDup_cons. split; [| exact Hnd].
        intros Hin. apply list_elem_of_In, in_map_iff in Hin as (x & Hx & Hin).
        rewrite Forall_forall in Hout.
        apply list_elem_of_In in Hin.
        apply (Hout x Hin). rewrite Hx. left.
Qed.

Lemma drop_duplicates_NoDup df : NoDup (map key (drop_duplicates key df)).
Proof. apply drop_duplicates_seen_keys. Qed.

(** Nothing is dropped from a frame whose keys are distinct and new. *)
Lemma drop_duplicates_seen_id df : forall seen,
  NoDup (map key df) ->
  Forall (fun r => key r ∉ seen) df ->
  drop_duplicates_seen key seen df = df.
Proof.
  induction df as [|r rest IH]; intros seen Hnd Hnew; simpl; [reflexivity |].
  simpl in Hnd. apply NoDup_cons in Hnd as [Hr Hnd].
  apply Forall_cons in Hnew as [Hr' Hnew].
  rewrite bool_decide_eq_false_2 by exact Hr'. f_equal.
  apply IH; [exact Hnd |].
  rewrite Forall_forall in Hnew |- *. intros x Hx Hin.
  apply elem_of_cons in Hin as [Heq | Hin].
  - apply Hr. rewrite <- Heq. apply list_elem_of_In, in_map, list_elem_of_In, Hx.
  - exact (Hnew x Hx Hin).
Qed.

Lemma drop_duplicates_id df :
  NoDup (map key df) -> drop_duplicates key df = df.
Proof.
  intros Hnd. apply drop_duplicates_seen_id; [exact Hnd |].
  apply Forall_forall. intros x _. apply not_elem_of_nil.
Qed.

Lemma drop_duplicates_idem df :
  drop_duplicates key (drop_duplicates key df) = drop_duplicates key df.
Proof. apply drop_duplicates_id, drop_duplicates_NoDup. Qed.

Lemma drop_duplicates_In df r : In r (drop_duplicates key df) -> In r df.
Proof.
  intros Hin. apply list_elem_of_In.
  eapply elem_of_sublist; [apply list_elem_of_In, Hin |].
  apply drop_duplicates_seen_sublist.
Qed.
End DedupFacts.


Section MergeFacts.
Context {D : Type} (field : D -> JField).

Lemma merge_docs_app docs1 docs2 st :
  merge_docs field (docs1 ++ docs2) st = merge_docs field docs2 (merge_docs field docs1 st).
Proof. apply fold_left_app. Qed.

Lemma merge_docs_cons d rest st :
  merge_docs field (d :: rest) st = merge_docs field rest (merge_step field st d).
Proof. reflexivity. Qed.

Lemma merge_docs_filter docs : forall all_docs seen_urls k,
  List.filter (has_key (raw_key field) (CStr k)) (fst (merge_docs field docs (all_docs, seen_urls))) =
  List.filter (has_key (raw_key field) (CStr k)) all_docs ++
  (if truthy (CStr k) && negb (bool_decide (k ∈ seen_urls))
   then first_with (raw_key field) (CStr k) docs else []).
Proof.
  unfold first_with.
  induction docs as [|d rest IH]; intros all_docs seen_urls k.
  - simpl. destruct (_ && _); rewrite app_nil_r; reflexivity.
  - rewrite merge_docs_cons. cbn [List.find].
    unfold merge_step. destruct (get (field d)) as [|url] eqn:Hd.
    + rewrite IH. rewrite has_key_false; [reflexivity |].
      unfold raw_key. rewrite Hd. discriminate.
    + destruct (truthy (CStr url) && negb (bool_decide (url ∈ seen_urls))) eqn:Hg.
      * rewrite IH, List.filter_app. cbn [List.filter].
        destruct (decide (url = k)) as [-> | Hne].
        -- rewrite (has_key_true (raw_key field) (CStr k) d) by (unfold raw_key; rewrite Hd; reflexivity).
           rewrite (bool_decide_eq_true_2 (k ∈ {[k]} ∪ seen_urls)) by set_solver.
           rewrite Hg. cbn [negb]. rewrite andb_false_r, app_nil_r. reflexivity.
        -- rewrite (has_key_false (raw_key field) (CStr k) d)
             by (unfold raw_key; rewrite Hd; congruence).
           rewrite app_nil_r.
           rewrite (bool_decide_ext (k ∈ {[url]} ∪ seen_urls) (k ∈ seen_urls));
             [reflexivity |].
           rewrite elem_of_union, elem_of_singleton. intuition congruence.
      * rewrite IH. destruct (decide (url = k)) as [-> | Hne].
        -- rewrite Hg. reflexivity.
        -- rewrite (has_key_false (raw_key field) (CStr k) d)
             by (unfold raw_key; rewrite Hd; congruence).
           reflexivity.
Qed.

(** Every merged document carries a truthy key. *)
Lemma merge_docs_truthy docs : forall all_docs seen_urls,
  Forall (fun d => truthy (raw_key field d) = true) all_docs ->
  Forall (fun d => truthy (raw_key field d) = true) (fst (merge_docs field docs (all_docs, seen_urls))).
Proof.
  induction docs as [|d rest IH]; intros all_docs seen_urls Hall; [exact Hall |].
  rewrite merge_docs_cons.
  unfold merge_step. destruct (get (field d)) as [|url] eqn:Hd; [apply IH, Hall |].
  destruct (truthy (CStr url) && negb (bool_decide (url ∈ seen_urls))) eqn:Hg;
    [| apply IH, Hall].
  apply IH, Forall_app. split; [exact Hall |].
  constructor; [| constructor].
  unfold raw_key. rewrite Hd. apply andb_true_iff in Hg. apply Hg.
Qed.

Lemma merged_first k docs :
  k <> "" ->
  List.filter (has_key (raw_key field) (CStr k)) (merged field docs) = first_with (raw_key field) (CStr k) docs.
Proof.
  intros Hk. unfold merged. rewrite merge_docs_filter. simpl List.filter.
  rewrite bool_decide_eq_false_2 by set_solver.
  replace (truthy (CStr k)) with true; [reflexivity |].
  symmetry. apply truthy_nonempty. exists k. auto.
Qed.

Lemma merged_truthy docs : Forall (fun d => truthy (raw_key field d) = true) (merged field docs).
Proof. apply merge_docs_truthy. constructor. Qed.
End MergeFacts.


Section SortValuesFacts.
Context {R : Type} (ts : R -> option Z).

Lemma precedes_total a b : precedes a b = false -> precedes b a = true.
Proof.
  destruct a as [x|], b as [y|]; simpl; try congruence.
  rewrite Z.leb_gt, Z.leb_le. lia.
Qed.

Lemma insert_desc_perm r l : Permutation (r :: l) (insert_desc ts r l).
Proof.
  induction l as [|x l IH]; simpl; [reflexivity |].
  destruct (precedes (ts r) (ts x)); [reflexivity |].
  rewrite perm_swap. apply perm_skip, IH.
Qed.

Lemma sort_values_perm df : Permutation df (sort_values ts df).
Proof.
  induction df as [|r df IH]; simpl; [reflexivity |].
  rewrite <- insert_desc_perm. apply perm_skip, IH.
Qed.

Lemma insert_desc_sorted r l : Sorted (desc ts) l -> Sorted (desc ts) (insert_desc ts r l).
Proof.
  induction l as [|x l IH]; intros Hs; simpl.
  - repeat constructor.
  - destruct (precedes (ts r) (ts x)) eqn:Hrx.
    + constructor; [exact Hs |]. constructor. exact Hrx.
    + apply Sorted_inv in Hs as [Hs Hhd].
      constructor; [apply IH, Hs |].
      destruct l as [|y l]; simpl.
      * constructor. apply precedes_total, Hrx.
      * destruct (precedes (ts r) (ts y)).
        -- constructor. apply precedes_total, Hrx.
        -- constructor. apply HdRel_inv in Hhd. exact Hhd.
Qed.

Lemma sort_values_sorted df : Sorted (desc ts) (sort_values ts df).
Proof.
  induction df as [|r df IH]; simpl; [constructor |].
  apply insert_desc_sorted, IH.
Qed.
End SortValuesFacts.


(** ** The monad and the trace *)

Section EffectFacts.
Context {D R : Type}.
Implicit Types (w : World D R) (evs : list (Event D)).

Lemma log_nil w : log [] w = w.
Proof. destruct w. unfold log. simpl. rewrite app_nil_r. reflexivity. Qed.

Lemma log_log evs1 evs2 w : log evs2 (log evs1 w) = log (evs1 ++ evs2) w.
Proof. unfold log. simpl. rewrite app_assoc. reflexivity. Qed.

Lemma fs_log evs w : fs (log evs w) = fs w.
Proof. reflexivity. Qed.

Lemma trace_log evs w : trace (log evs w) = trace w ++ evs.
Proof. reflexivity. Qed.

Lemma bind_ok {A B} (m : M D R A) (k : A -> M D R B) w a w' :
  m w = (Ok a, w') -> bind m k w = k a w'.
Proof. intros H. unfold bind. rewrite H. reflexivity. Qed.

Lemma requests_of_app evs1 evs2 :
  requests_of (evs1 ++ evs2) = requests_of evs1 ++ requests_of evs2.
Proof. apply omap_app. Qed.

Lemma outcomes_of_app evs1 evs2 :
  outcomes_of (evs1 ++ evs2) = outcomes_of evs1 ++ outcomes_of evs2.
Proof. apply omap_app. Qed.

Lemma delivered_docs_app evs1 evs2 :
  delivered_docs (evs1 ++ evs2) = delivered_docs evs1 ++ delivered_docs evs2.
Proof. unfold delivered_docs. rewrite outcomes_of_app. apply flat_map_app. Qed.

Lemma cooled_app cd evs1 evs2 :
  cooled cd evs1 = true -> cooled cd evs2 = true -> cooled cd (evs1 ++ evs2) = true.
Proof.
  intros H1 H2. induction evs1 as [|ev rest IH]; [exact H2 |].
  destruct ev as [rq [|resp] | secs]; cbn [app cooled] in *; auto.
  destruct (status_code resp =? 429); auto.
  destruct rest as [|[rq' o' | secs] rest']; try discriminate.
  cbn [app] in *. apply andb_true_iff in H1 as [Hs Hc].
  rewrite Hs. cbn [andb]. apply IH, Hc.
Qed.

Lemma answered_app (net : Net D) evs1 : forall tr evs2,
  answered net tr (evs1 ++ evs2) <->
  answered net tr evs1 /\ answered net (tr ++ evs1) evs2.
Proof.
  induction evs1 as [|ev rest IH]; intros tr evs2; cbn [app answered].
  - rewrite app_nil_r. tauto.
  - rewrite IH, <- app_assoc. cbn [app]. tauto.
Qed.

Lemma cooled_fetch_events cd rq (o : Outcome D) :
  cooled cd (fetch_events cd rq o) = true.
Proof.
  unfold fetch_events. destruct o as [|resp]; cbn; [reflexivity |].
  destruct (status_code resp =? 429) eqn:H; cbn; rewrite ?H; cbn; [| reflexivity].
  rewrite Z.eqb_refl. reflexivity.
Qed.

Lemma requests_of_fetch_events cd rq (o : Outcome D) :
  requests_of (fetch_events cd rq o) = [rq].
Proof. unfold fetch_events. destruct (rate_limited o); reflexivity. Qed.

Lemma outcomes_of_fetch_events cd rq (o : Outcome D) :
  outcomes_of (fetch_events cd rq o) = [o].
Proof. unfold fetch_events. destruct (rate_limited o); reflexivity. Qed.

Lemma answered_fetch_events (net : Net D) tr cd rq :
  answered net tr (fetch_events cd rq (net tr rq)).
Proof.
  unfold fetch_events. destruct (rate_limited _); cbn; auto.
Qed.

(** A failed request delivers nothing to the merge loop, and
    [search_trump_covid_single] answers [None] for it. *)
Lemma failed_single_result (o : Outcome D) :
  failed o = true -> single_result o = None.
Proof.
  destruct o as [|resp]; cbn; [reflexivity |].
  intros H. rewrite H. destruct (status_code resp =? 429); reflexivity.
Qed.

Lemma failed_delivered (o : Outcome D) : failed o = true -> delivered o = [].
Proof. intros H. unfold delivered. rewrite failed_single_result by exact H. reflexivity. Qed.

Lemma rate_limited_failed (o : Outcome D) : rate_limited o = true -> failed o = true.
Proof.
  destruct o as [|resp]; cbn; [discriminate |].
  intros H. apply Z.eqb_eq in H. rewrite H. reflexivity.
Qed.

(** When every answer of the network satisfies [P], so does every
    outcome recorded in events that carry its answers. *)
Lemma answered_outcomes (net : Net D) (P : Outcome D -> Prop) evs :
  (forall tr rq, P (net tr rq)) ->
  forall tr, answered net tr evs -> Forall P (outcomes_of evs).
Proof.
  intros Hnet. induction evs as [|ev rest IH]; intros tr Ha; [constructor |].
  destruct Ha as [Hev Ha]. destruct ev as [rq o | secs]; cbn.
  - constructor; [subst o; apply Hnet | eapply IH, Ha].
  - eapply IH, Ha.
Qed.
End EffectFacts.

(** Case analysis on the answer of the network in a goal about one
    fetch: the exception, then the status 429, another status that is not
    200, and the shapes of a decoded body. *)
Ltac fetch_cases net :=
  match goal with
  | |- context [net ?tr ?rq] =>
      let resp := fresh "resp" in
      let r := fresh "r" in
      destruct (net tr rq) as [|resp] eqn:?;
      [| destruct (status_code resp =? 429) eqn:?;
         [| destruct (status_code resp =? 200) eqn:?;
            [destruct (json_body resp) as [[| |r]|] eqn:?;
             [| | destruct (r_docs r) eqn:? |] |]]]
  end.

Ltac same_world :=
  cbn [trace log fs app negb default id];
  repeat match goal with
         | H : r_docs _ = _ |- _ => rewrite H; clear H
         end;
  cbn [trace log fs app negb default id]; rewrite ?log_log; reflexivity.

(** ** Dates *)

Lemma month_window_first_last y m :
  1 <= m <= 12 ->
  month_window y m = (mkdate y m 1, mkdate y m (days_in_month y m)).
Proof.
  intros Hm. unfold month_window. f_equal.
  assert (m = 1 \/ m = 2 \/ m = 3 \/ m = 4 \/ m = 5 \/ m = 6 \/ m = 7 \/
          m = 8 \/ m = 9 \/ m = 10 \/ m = 11 \/ m = 12) as Hcases by lia.
  repeat destruct Hcases as [-> | Hcases]; try subst m;
    cbn [Z.eqb Pos.eqb Z.add Pos.add Pos.succ]; unfold sub_one_day;
    cbn [day month year Z.ltb Z.compare Pos.compare Pos.compare_cont Z.eqb Pos.eqb
         Z.sub Z.add Z.opp Z.pos_sub Z.succ_double Z.pred_double Z.double
         Pos.pred_double];
    try reflexivity.
  f_equal. lia.
Qed.

Lemma days_in_february y : days_in_month y 2 = if is_leap y then 29 else 28.
Proof. unfold days_in_month. destruct (is_leap y); reflexivity. Qed.

Lemma days_in_month_pos y m : 1 <= m <= 12 -> 28 <= days_in_month y m <= 31.
Proof.
  intros Hm.
  assert (m = 1 \/ m = 2 \/ m = 3 \/ m = 4 \/ m = 5 \/ m = 6 \/ m = 7 \/
          m = 8 \/ m = 9 \/ m = 10 \/ m = 11 \/ m = 12) as Hcases by lia.
  repeat destruct Hcases as [-> | Hcases]; try subst m;
    try (rewrite days_in_february; destruct (is_leap y); lia);
    unfold days_in_month; cbn [Z.eqb Pos.eqb andb];
    change (28 <= 31 <= 31) || change (28 <= 30 <= 31) || idtac; lia.
Qed.

Lemma date_leb_index d1 d2 :
  date_leb d1 d2 = true ->
  month_index (year d1) (month d1) <= month_index (year d2) (month d2) \/
  ~ (1 <= month d1 <= 12 /\ 1 <= month d2 <= 12).
Proof.
  unfold date_leb, month_index. intros H.
  apply orb_true_iff in H as [H | H]; [apply Z.ltb_lt in H; lia |].
  apply andb_true_iff in H as [Hy H]. apply Z.eqb_eq in Hy.
  apply orb_true_iff in H as [H | H]; [apply Z.ltb_lt in H; lia |].
  apply andb_true_iff in H as [H _]. apply Z.eqb_eq in H. lia.
Qed.

(** After the first turn, [current] is the first day of a month, and the
    loop condition only compares calendar positions. *)
Lemma date_leb_next_month current end_date :
  1 <= month current <= 12 -> valid_date end_date ->
  date_leb (next_month current) end_date = true <->
  month_index (year current) (month current) + 1 <=
  month_index (year end_date) (month end_date).
Proof.
  intros Hc [He Hd]. unfold next_month, date_leb, month_index.
  destruct (month current =? 12) eqn:H12; cbn [year month day].
  - apply Z.eqb_eq in H12.
    rewrite orb_true_iff, andb_true_iff, orb_true_iff, andb_true_iff.
    rewrite !Z.ltb_lt, !Z.eqb_eq, Z.leb_le. lia.
  - apply Z.eqb_neq in H12.
    rewrite orb_true_iff, andb_true_iff, orb_true_iff, andb_true_iff.
    rewrite !Z.ltb_lt, !Z.eqb_eq, Z.leb_le. lia.
Qed.

Lemma next_month_index current :
  1 <= month current <= 12 ->
  month_index (year (next_month current)) (month (next_month current)) =
  month_index (year current) (month current) + 1 /\
  1 <= month (next_month current) <= 12.
Proof.
  intros Hc. unfold next_month, month_index.
  destruct (month current =? 12) eqn:H12; cbn [year month].
  - apply Z.eqb_eq in H12. lia.
  - apply Z.eqb_neq in H12. lia.
Qed.

Lemma month_span_cons current end_date :
  month_index (year current) (month current) <=
  month_index (year end_date) (month end_date) ->
  1 <= month current <= 12 ->
  month_span current end_date =
  month_index (year current) (month current) ::
  (if month_index (year current) (month current) + 1 <=?
      month_index (year end_date) (month end_date)
   then month_span (next_month current) end_date else []).
Proof.
  intros Hle Hm. unfold month_span.
  destruct (next_month_index current Hm) as [Hnext _]. rewrite Hnext.
  set (first := month_index (year current) (month current)) in *.
  set (last := month_index (year end_date) (month end_date)) in *.
  replace (Z.to_nat (last - first + 1)) with (S (Z.to_nat (last - first))) by lia.
  cbn [seq map]. f_equal; [lia |].
  destruct (first + 1 <=? last) eqn:H.
  - apply Z.leb_le in H. rewrite <- seq_shift, map_map.
    replace (Z.to_nat (last - (first + 1) + 1)) with (Z.to_nat (last - first)) by lia.
    apply map_ext. intros k. lia.
  - apply Z.leb_gt in H. replace (Z.to_nat (last - first)) with 0%nat by lia.
    reflexivity.
Qed.

Lemma whole_month_window q y m page :
  1 <= m <= 12 ->
  whole_month (mkRequest q (month_window y m).1 (month_window y m).2 page).
Proof.
  intros Hm. rewrite (month_window_first_last y m Hm).
  unfold whole_month. cbn. auto.
Qed.

(** ** Listing *)

Lemma insert_path_In p q l : In q (insert_path p l) <-> q = p \/ In q l.
Proof.
  induction l as [|x l IH]; cbn.
  - intuition.
  - destruct (String.leb p x); cbn; [intuition |]. rewrite IH. intuition.
Qed.

Lemma sorted_In q l : In q (sorted l) <-> In q l.
Proof.
  induction l as [|p l IH]; cbn; [tauto |].
  rewrite insert_path_In, IH. intuition.
Qed.

Lemma read_all_ok {D R} (files : list string) (w : World D R) :
  Forall (fun f => is_Some (fs w !! f)) files ->
  exists dfs,
    read_all files w = (Ok dfs, w) /\
    Forall2 (fun f df => fs w !! f = Some df) files dfs.
Proof.
  induction files as [|f rest IH]; intros Hall.
  - exists []. split; [reflexivity | constructor].
  - apply Forall_cons in Hall as [[df Hf] Hall].
    destruct (IH Hall) as (dfs & Hrun & Hdfs).
    exists (df :: dfs). split; [| constructor; assumption].
    cbn [read_all]. unfold read_csv at 1, bind at 1. rewrite Hf.
    unfold bind at 1. rewrite Hrun. reflexivity.
Qed.

Lemma sorted_glob_csv_listed {D R} (dir : string) (w : World D R) :
  exists files,
    sorted_glob_csv dir w = (Ok files, w) /\
    (forall f, In f files <-> is_Some (fs w !! f) /\ matches_csv dir f = true).
Proof.
  eexists. split; [reflexivity |].
  intros f. rewrite sorted_In, filter_In, in_map_iff. split.
  - intros [([f' df] & Heq & Hin) Hm]. cbn in Heq. subst f'. split; [| exact Hm].
    exists df. apply elem_of_map_to_list, list_elem_of_In, Hin.
  - intros [[df Hf] Hm]. split; [| exact Hm].
    exists (f, df). split; [reflexivity |].
    apply list_elem_of_In, elem_of_map_to_list, Hf.
Qed.

Lemma delivered_docs_nil {D} (net : Net D) (evs : list (Event D)) tr :
  (forall tr' rq, delivered (net tr' rq) = []) ->
  answered net tr evs ->
  delivered_docs evs = [].
Proof.
  intros Hnet Hans. unfold delivered_docs.
  pose proof (answered_outcomes net (fun o => delivered o = []) evs Hnet tr Hans) as Hall.
  induction Hall as [|o os Ho _ IH]; [reflexivity |].
  cbn [flat_map]. rewrite Ho, IH. reflexivity.
Qed.

(** Closed goals about concrete dates and fuel. *)
Ltac valid_date_tac :=
  unfold valid_date; cbn [year month day];
  split; [lia |];
  match goal with |- _ <= _ <= ?d => let v := eval vm_compute in d in change d with v end;
  lia.

Ltac fuel_tac := apply Nat.leb_le; vm_compute; reflexivity.

(** A pass that may still request a page requests at least one. *)
Lemma stops_at_first_nonempty {O} (stops : O -> bool) n os :
  stops_at_first stops (S n) os -> os <> [].
Proof. intros H. inversion H; discriminate. Qed.

Lemma stops_at_first_length {O} (stops : O -> bool) n os :
  stops_at_first stops n os -> (length os <= n)%nat.
Proof. induction 1; cbn; lia. Qed.

(** * Properties of the NYTimes script *)

Module NYTimesFacts.
Import NYTimes.

Section Script.
Variable net : Net Doc.
Implicit Types (w : World Doc Row) (evs : list (Event Doc)).

(** One query of the multi-query pass: it never raises, it logs an
    optional pause, the request and the cool-down after a 429, and it
    merges what the response delivered. *)
Lemma nyt_query_step_run s e page i q st w :
  let pre := if 0 <? i then [EvSleep 2] else [] in
  let rq := mkRequest q s e page in
  let o := net (trace w ++ pre) rq in
  query_step net s e page i q st w =
  (Ok (merge_docs d_web_url (delivered o) st), log (pre ++ fetch_events 60 rq o) w).
Proof.
  cbv zeta.
  unfold query_step, try_except, bind, sleep, requests_get, json, ret, raise,
    delivered, single_result, fetch_events, rate_limited.
  destruct (0 <? i); cbn [trace log fs app]; rewrite ?app_nil_r.
  all: fetch_cases net; same_world.
Qed.

(** The request of a pagination page. *)
Lemma nyt_search_trump_covid_single_run y m page w :
  let rq := mkRequest QSingle (month_window y m).1 (month_window y m).2 page in
  let o := net (trace w) rq in
  search_trump_covid_single net y m page w =
  (Ok (single_result o), log (fetch_events 60 rq o) w).
Proof.
  cbv zeta.
  unfold search_trump_covid_single, try_except, bind, sleep, requests_get, json,
    ret, raise, single_result, fetch_events, rate_limited.
  destruct (month_window y m) as [s e]. cbn [fst snd].
  fetch_cases net; same_world.
Qed.

Lemma nyt_query_loop_run s e page qs : forall st w,
  exists evs,
    query_loop net s e page qs st w =
      (Ok (merge_docs d_web_url (delivered_docs evs) st), log evs w) /\
    requests_of evs = map (fun iq => mkRequest iq.2 s e page) qs /\
    cooled 60 evs = true /\
    answered net (trace w) evs.
Proof.
  induction qs as [|[i q] rest IH]; intros st w.
  - exists []. cbn. rewrite log_nil. auto.
  - cbn [query_loop]. erewrite bind_ok by apply nyt_query_step_run.
    match goal with |- context [log ?evs1 w] => set (evs1' := evs1) end.
    match goal with |- context [delivered ?o1] => set (o := o1) end.
    destruct (IH (merge_docs d_web_url (delivered o) st) (log evs1' w))
      as (evs2 & Hrun & Hreq & Hcool & Hans).
    exists (evs1' ++ evs2). rewrite Hrun, log_log. repeat split.
    + rewrite delivered_docs_app, merge_docs_app. do 3 f_equal.
      subst evs1'. rewrite delivered_docs_app.
      unfold delivered_docs at 2. rewrite outcomes_of_fetch_events.
      cbn [flat_map]. rewrite app_nil_r.
      destruct (0 <? i); reflexivity.
    + rewrite requests_of_app, Hreq. subst evs1'.
      rewrite requests_of_app, requests_of_fetch_events.
      destruct (0 <? i); reflexivity.
    + apply cooled_app; [| exact Hcool]. subst evs1'.
      apply cooled_app; [destruct (0 <? i); reflexivity |].
      apply cooled_fetch_events.
    + apply answered_app. split; [| exact Hans].
      subst evs1'. apply answered_app. split.
      * destruct (0 <? i); cbn; auto.
      * apply answered_fetch_events.
Qed.

Lemma nyt_comprehensive_docs_run y m page w :
  exists evs,
    comprehensive_docs net y m page w =
      (Ok (merged d_web_url (delivered_docs evs)), log evs w) /\
    requests_of evs =
      query_requests (month_window y m).1 (month_window y m).2 page /\
    cooled 60 evs = true /\
    answered net (trace w) evs.
Proof.
  unfold comprehensive_docs. destruct (month_window y m) as [s e]. cbn [fst snd].
  destruct (nyt_query_loop_run s e page (enumerate queries) ([], ∅) w)
    as (evs & Hrun & Hreq & Hcool & Hans).
  exists evs. erewrite bind_ok by exact Hrun. auto.
Qed.

(** [search_trump_covid_comprehensive] answers [None] exactly when
    [all_docs] is empty. *)
Lemma nyt_search_trump_covid_comprehensive_run y m page w :
  exists evs,
    let all_docs := merged d_web_url (delivered_docs evs) in
    comprehensive_docs net y m page w = (Ok all_docs, log evs w) /\
    search_trump_covid_comprehensive net y m page w =
      (Ok (match all_docs with
           | [] => None
           | _ :: _ => Some (BResponse (mkRespObj (Some all_docs) None None))
           end), log evs w) /\
    requests_of evs =
      query_requests (month_window y m).1 (month_window y m).2 page /\
    cooled 60 evs = true /\
    answered net (trace w) evs.
Proof.
  destruct (nyt_comprehensive_docs_run y m page w) as (evs & Hrun & Hrest).
  exists evs. cbv zeta. split; [exact Hrun |]. split; [| exact Hrest].
  unfold search_trump_covid_comprehensive. erewrite bind_ok by exact Hrun.
  destruct (merged d_web_url (delivered_docs evs)); reflexivity.
Qed.

Lemma nyt_parse_articles_falsy (response : option (Body Doc)) :
  body_truthy response = false -> parse_articles response = [].
Proof. destruct response as [[| |r]|]; cbn; congruence. Qed.

Lemma nyt_len_0 {A} (df : list A) : (len df =? 0) = true <-> df = [].
Proof.
  unfold len. rewrite Z.eqb_eq. destruct df; cbn; [tauto |].
  split; [lia | discriminate].
Qed.

Lemma nyt_page_stops_false o :
  page_stops o = false ->
  body_truthy (single_result o) = true /\
  (len (parse_articles (single_result o)) =? 0) = false /\
  (len (parse_articles (single_result o)) <? 10) = false.
Proof.
  unfold page_stops, no_page, empty_page, short_page.
  destruct (body_truthy (single_result o)); cbn; [| discriminate].
  intros H. apply orb_false_iff in H. tauto.
Qed.

(** The pagination pass: it never raises; it requests the pages in
    order, stopping at the first outcome with a stop condition or
    when no page is left; it appends the pages that are not empty. *)
Lemma nyt_page_loop_run y m ps : forall all_articles w,
  exists evs,
    page_loop net y m ps all_articles w =
      (Ok (all_articles ++ page_frames (outcomes_of evs)), log evs w) /\
    requests_of evs =
      page_requests (month_window y m).1 (month_window y m).2
        (firstn (length (outcomes_of evs)) ps) /\
    stops_at_first page_stops (length ps) (outcomes_of evs) /\
    cooled 60 evs = true /\
    answered net (trace w) evs.
Proof.
  induction ps as [|page rest IH]; intros all_articles w.
  - exists []. cbn. rewrite log_nil, app_nil_r.
    repeat split; auto. constructor.
  - cbn [page_loop]. unfold sleep at 1.
    erewrite bind_ok by reflexivity.
    erewrite bind_ok by apply nyt_search_trump_covid_single_run.
    rewrite log_log. cbn [trace log app].
    set (rq := mkRequest QSingle (month_window y m).1 (month_window y m).2 page).
    set (o := net (trace w ++ [EvSleep 7]) rq).
    set (evs1 := EvSleep 7 :: fetch_events 60 rq o).
    assert (Hreq1 : requests_of evs1 = [rq])
      by (subst evs1; unfold fetch_events; destruct (rate_limited o); reflexivity).
    assert (Hout1 : outcomes_of evs1 = [o])
      by (subst evs1; unfold fetch_events; destruct (rate_limited o); reflexivity).
    assert (Hcool1 : cooled 60 evs1 = true)
      by (subst evs1; apply (cooled_app 60 [EvSleep 7]); [reflexivity | apply cooled_fetch_events]).
    assert (Hans1 : answered net (trace w) evs1).
    { subst evs1. cbn [answered]. split; [exact I |]. apply answered_fetch_events. }
    destruct (page_stops o) eqn:Hstop.
    + (* a stop condition holds: this request is the last one *)
      exists evs1. rewrite Hout1. cbn [length firstn].
      split; [| split; [exact Hreq1 | split; [apply run_stop; exact Hstop | split; assumption]]].
      unfold page_stops, no_page, empty_page, short_page in Hstop.
      unfold page_frames. cbn [map List.filter].
      destruct (body_truthy (single_result o)) eqn:Ht; cbn [negb andb orb] in *.
      * destruct (len (parse_articles (single_result o)) =? 0) eqn:H0;
          cbn [negb orb] in *.
        -- unfold ret. rewrite app_nil_r. reflexivity.
        -- rewrite Hstop. reflexivity.
      * rewrite (nyt_parse_articles_falsy _ Ht). cbn. unfold ret.
        rewrite app_nil_r. reflexivity.
    + (* no stop condition: the frame is kept and the next page is requested *)
      destruct (nyt_page_stops_false o Hstop) as (Ht & H0 & H10).
      rewrite Ht, H0, H10. cbn [negb].
      destruct (IH (all_articles ++ [parse_articles (single_result o)]) (log evs1 w))
        as (evs2 & Hrun & Hreq & Hrunp & Hcool & Hans).
      exists (evs1 ++ evs2). rewrite Hrun, log_log.
      rewrite outcomes_of_app, Hout1. cbn [app length firstn].
      split; [| split; [| split; [| split]]].
      * unfold page_frames. cbn [map List.filter]. rewrite H0. cbn [negb].
        rewrite <- app_assoc. reflexivity.
      * rewrite requests_of_app, Hreq1, Hreq. reflexivity.
      * apply run_next; assumption.
      * apply cooled_app; assumption.
      * apply answered_app. split; assumption.
Qed.

Lemma nyt_concat_page_frames os :
  concat (page_frames os) =
  flat_map (fun o => parse_articles (single_result o)) os.
Proof.
  unfold page_frames. induction os as [|o os IH]; [reflexivity |].
  cbn [map List.filter flat_map].
  destruct (len (parse_articles (single_result o)) =? 0) eqn:H0; cbn [negb].
  - apply nyt_len_0 in H0. rewrite H0, IH. reflexivity.
  - cbn [concat]. rewrite IH. reflexivity.
Qed.

(** The monthly orchestrator: it never raises and leaves the disk
    alone; its requests are the five queries on page 0 followed by
    the pages of the pagination pass, all for the window of the
    month; the Monthly Dataset is [drop_duplicates] of the rows in
    the order they came in. *)
Lemma nyt_get_all_articles_for_month_run y m w :
  exists evs_q evs_p,
    get_all_articles_for_month net y m w =
      (Ok (drop_duplicates web_url (month_rows evs_q evs_p)),
       log (evs_q ++ evs_p) w) /\
    requests_of evs_q =
      query_requests (month_window y m).1 (month_window y m).2 0 /\
    requests_of evs_p =
      page_requests (month_window y m).1 (month_window y m).2
        (firstn (length (outcomes_of evs_p)) pages) /\
    stops_at_first page_stops 14 (outcomes_of evs_p) /\
    cooled 60 (evs_q ++ evs_p) = true /\
    answered net (trace w) (evs_q ++ evs_p).
Proof.
  destruct (nyt_search_trump_covid_comprehensive_run y m 0 w)
    as (evs_q & _ & Hrun & Hreq & Hcool & Hans).
  cbv zeta in Hrun.
  unfold get_all_articles_for_month. erewrite bind_ok by exact Hrun.
  set (all_docs := merged d_web_url (delivered_docs evs_q)) in *.
  match goal with |- context [page_loop net y m _ ?a] => set (all0 := a) end.
  destruct (nyt_page_loop_run y m pages all0 (log evs_q w))
    as (evs_p & Hrunp & Hreqp & Hstops & Hcoolp & Hansp).
  exists evs_q, evs_p. fold pages. erewrite bind_ok by exact Hrunp.
  rewrite log_log. repeat split; auto.
  - assert (Hcat : concat (all0 ++ page_frames (outcomes_of evs_p)) =
                   month_rows evs_q evs_p).
    { rewrite concat_app, nyt_concat_page_frames. unfold month_rows. f_equal.
      subst all0. fold all_docs. destruct all_docs as [|d ds]; [reflexivity |].
      cbn [body_truthy parse_articles r_docs].
      destruct (0 <? len (omap parse_row (d :: ds))) eqn:Hlen.
      - cbn [concat]. apply app_nil_r.
      - apply Z.ltb_ge in Hlen. unfold len in Hlen.
        destruct (omap parse_row (d :: ds)); [reflexivity | cbn in Hlen; lia]. }
    rewrite <- Hcat.
    destruct (all0 ++ page_frames (outcomes_of evs_p)) eqn:Hall; reflexivity.
  - apply cooled_app; assumption.
  - apply answered_app. split; assumption.
Qed.

(** Resume: a month whose file is on disk costs nothing and changes
    nothing. *)
Lemma nyt_month_body_resume y m w df :
  fs w !! csv_path y m = Some df ->
  month_body net y m w = (Ok (df, len df), w).
Proof.
  intros Hf. unfold month_body, path_exists, read_csv, bind, ret. cbv zeta.
  rewrite Hf. rewrite bool_decide_eq_true_2 by eauto. cbv beta iota.
  rewrite Hf. reflexivity.
Qed.

(** Fetch: a month without a file is fetched, and written when the
    result is not empty. *)
Lemma nyt_month_body_fetch y m w :
  fs w !! csv_path y m = None ->
  exists evs_q evs_p,
    let df := drop_duplicates web_url (month_rows evs_q evs_p) in
    month_body net y m w =
      (Ok (df, len df),
       mkWorld (if 0 <? len df then <[csv_path y m := df]> (fs w) else fs w)
               (trace w ++ evs_q ++ evs_p)) /\
    requests_of evs_q =
      query_requests (month_window y m).1 (month_window y m).2 0 /\
    requests_of evs_p =
      page_requests (month_window y m).1 (month_window y m).2
        (firstn (length (outcomes_of evs_p)) pages) /\
    stops_at_first page_stops 14 (outcomes_of evs_p) /\
    cooled 60 (evs_q ++ evs_p) = true /\
    answered net (trace w) (evs_q ++ evs_p).
Proof.
  intros Hf.
  destruct (nyt_get_all_articles_for_month_run y m w) as (evs_q & evs_p & Hrun & Hrest).
  exists evs_q, evs_p. cbv zeta. split; [| exact Hrest].
  unfold month_body. cbv zeta. unfold path_exists at 1, bind at 1. rewrite Hf.
  rewrite bool_decide_eq_false_2 by (intros [? ?]; discriminate).
  erewrite bind_ok by exact Hrun.
  set (df := drop_duplicates web_url (month_rows evs_q evs_p)).
  destruct (0 <? len df) eqn:Hlen.
  - reflexivity.
  - apply Z.ltb_ge in Hlen.
    assert (H0 : len df = 0) by (unfold len in *; lia).
    rewrite H0. reflexivity.
Qed.

Lemma nyt_requests_whole_month y m (evs_q evs_p : list (Event Doc)) k ps :
  1 <= m <= 12 ->
  requests_of evs_q =
    query_requests (month_window y m).1 (month_window y m).2 k ->
  requests_of evs_p =
    page_requests (month_window y m).1 (month_window y m).2 ps ->
  Forall whole_month (requests_of (evs_q ++ evs_p)).
Proof.
  intros Hm Hq Hp. rewrite requests_of_app, Hq, Hp.
  apply Forall_app. split; apply Forall_map, Forall_forall; intros x _;
    apply whole_month_window, Hm.
Qed.

(** The driver's loop: with enough fuel it ends normally whatever
    the network answers; it visits the months in calendar order up
    to the month of [end_date]; it never touches a file that was
    there; its requests ask for whole months and every 429 is
    followed by the cool-down. *)
Lemma nyt_scrape_loop_run end_date : forall fuel current total monthly_counts w,
  valid_date end_date ->
  1 <= month current <= 12 ->
  (months_to_visit current end_date <= fuel)%nat ->
  exists total' new fs' evs,
    scrape_loop net fuel current end_date total monthly_counts w =
      (Ok (total', monthly_counts ++ new), mkWorld fs' (trace w ++ evs)) /\
    fs w ⊆ fs' /\
    map (fun c => month_index c.1.1 c.1.2) new =
      (if date_leb current end_date then month_span current end_date else []) /\
    Forall (fun c => 1 <= c.1.2 <= 12) new /\
    Forall whole_month (requests_of evs) /\
    cooled 60 evs = true /\
    answered net (trace w) evs.
Proof.
  intros fuel. induction fuel as [|fuel IH];
    intros current total monthly_counts w Hend Hcur Hfuel;
    unfold months_to_visit in Hfuel; cbn [scrape_loop];
    destruct (date_leb current end_date) eqn:Hle.
  - exfalso. destruct (date_leb_index _ _ Hle) as [Hidx | Hbad];
      [| apply Hbad; split; [exact Hcur | apply Hend]].
    rewrite (month_span_cons _ _ Hidx Hcur) in Hfuel. cbn in Hfuel. lia.
  - exists total, [], (fs w), []. rewrite !app_nil_r. destruct w.
    split; [reflexivity |]. split; [reflexivity |]. split; [reflexivity |].
    split; [constructor |]. split; [constructor |].
    split; [reflexivity | exact I].
  - destruct (date_leb_index _ _ Hle) as [Hidx | Hbad];
      [| exfalso; apply Hbad; split; [exact Hcur | apply Hend]].
    rewrite (month_span_cons _ _ Hidx Hcur) in Hfuel |- *.
    destruct (next_month_index current Hcur) as [Hnext Hnextm].
    pose proof (date_leb_next_month current end_date Hcur Hend) as Hiff.
    set (y := year current) in *. set (m := month current) in *.
    assert (Hbody : exists df fs1 evs1,
              month_body net y m w = (Ok (df, len df), mkWorld fs1 (trace w ++ evs1)) /\
              fs w ⊆ fs1 /\ Forall whole_month (requests_of evs1) /\
              cooled 60 evs1 = true /\ answered net (trace w) evs1).
    { destruct (fs w !! csv_path y m) as [df|] eqn:Hf.
      - exists df, (fs w), []. rewrite (nyt_month_body_resume y m w df Hf).
        rewrite app_nil_r. destruct w.
        split; [reflexivity |]. split; [reflexivity |].
        split; [constructor |]. split; [reflexivity | exact I].
      - destruct (nyt_month_body_fetch y m w Hf)
          as (evs_q & evs_p & Hrun & Hq & Hp & _ & Hcool & Hans).
        cbv zeta in Hrun. eexists _, _, (evs_q ++ evs_p).
        split; [exact Hrun |]. split; [| split; [| split; assumption]].
        + cbn [fs]. destruct (0 <? _); [apply insert_subseteq, Hf | reflexivity].
        + exact (nyt_requests_whole_month y m evs_q evs_p 0 _ Hcur Hq Hp). }
    destruct Hbody as (df & fs1 & evs1 & Hrun & Hsub & Hwm & Hcool & Hans).
    erewrite bind_ok by exact Hrun.
    assert (Hfuel' : (months_to_visit (next_month current) end_date <= fuel)%nat).
    { unfold months_to_visit.
      destruct (date_leb (next_month current) end_date); [| lia].
      pose proof (proj1 Hiff eq_refl) as Hn. apply Z.leb_le in Hn.
      rewrite Hn in Hfuel. cbn [length] in Hfuel. lia. }
    destruct (IH (next_month current) (total + len df)
                (monthly_counts ++ [(y, m, len df)])
                (mkWorld fs1 (trace w ++ evs1)) Hend Hnextm Hfuel')
      as (total' & new & fs' & evs2 & Hrun2 & Hsub2 & Hspan & Hmon & Hwm2 & Hcool2 & Hans2).
    exists total', ((y, m, len df) :: new), fs', (evs1 ++ evs2).
    rewrite Hrun2. cbn [fs trace] in *. rewrite <- !app_assoc. cbn [app].
    split; [reflexivity |]. split; [etrans; eassumption |].
    split; [| split; [| split; [| split]]].
    + cbn [map fst snd]. f_equal. rewrite Hspan.
      destruct (date_leb (next_month current) end_date).
      * pose proof (proj1 Hiff eq_refl) as Hn. apply Z.leb_le in Hn.
        rewrite Hn. reflexivity.
      * destruct (month_index y m + 1 <=? _) eqn:Hn'; [| reflexivity].
        apply Z.leb_le, Hiff in Hn'. discriminate.
    + constructor; [exact Hcur | exact Hmon].
    + rewrite requests_of_app. apply Forall_app. split; assumption.
    + apply cooled_app; assumption.
    + apply answered_app. split; assumption.
  - exists total, [], (fs w), []. rewrite !app_nil_r. destruct w.
    split; [reflexivity |]. split; [reflexivity |]. split; [reflexivity |].
    split; [constructor |]. split; [constructor |].
    split; [reflexivity | exact I].
Qed.
End Script.

(** The final combination reads every file that matches
    [nytimes_trump_covid/*.csv], in the order of the sorted paths. *)
Lemma nyt_combine_all_files_run to_datetime (w : World Doc Row) :
  exists files,
    (forall f, In f files <-> is_Some (fs w !! f) /\ matches_csv output_dir f = true) /\
    match files with
    | [] => combine_all_files to_datetime w = (Ok None, w)
    | _ :: _ =>
        exists dfs,
          Forall2 (fun f df => fs w !! f = Some df) files dfs /\
          let deduplicated := drop_duplicates web_url (concat dfs) in
          let combined := sort_values (timestamp to_datetime) deduplicated in
          combine_all_files to_datetime w =
            if forallb (fun r => parses (to_datetime (pub_date r))) deduplicated
            then (Ok (Some combined),
                  mkWorld (<[combined_path := combined]> (fs w)) (trace w))
            else (Exc ValueError, w)
    end.
Proof.
  destruct (sorted_glob_csv_listed (D := Doc) output_dir w) as (files & Hglob & Hfiles).
  exists files. split; [exact Hfiles |].
  unfold combine_all_files. erewrite bind_ok by exact Hglob.
  destruct files as [|f rest]; [reflexivity |].
  destruct (read_all_ok (D := Doc) (f :: rest) w) as (dfs & Hread & Hdfs).
  { apply Forall_forall. intros x Hx. apply Hfiles, list_elem_of_In, Hx. }
  exists dfs. split; [exact Hdfs |]. cbv zeta.
  erewrite bind_ok by exact Hread.
  destruct (forallb _ _); reflexivity.
Qed.
End NYTimesFacts.

Lemma nyt_pages_from_one k :
  Forall (fun p => 1 <= p) (firstn k NYTimes.pages).
Proof.
  apply Forall_take. unfold NYTimes.pages, py_range.
  apply Forall_map, Forall_forall. intros x Hx. apply elem_of_seq in Hx. cbn. lia.
Qed.

(** A request that failed ends the pagination pass. *)
Lemma nyt_failed_page_stops (o : Outcome NYTimes.Doc) :
  failed o = true -> NYTimes.page_stops o = true.
Proof.
  intros H. unfold NYTimes.page_stops, NYTimes.no_page.
  rewrite (failed_single_result o H). reflexivity.
Qed.

(** The rows of the multi-query pass carry a non-empty [web_url]: the
    merge loop admits no other document, and [parse_articles] copies the
    field. *)
Lemma nyt_parse_row_web_url d r :
  NYTimes.parse_row d = Some r ->
  NYTimes.web_url r = get_default (NYTimes.d_web_url d) "".
Proof.
  unfold NYTimes.parse_row.
  destruct (NYTimes.d_headline d); try discriminate;
    destruct (NYTimes.d_keywords d) as [|kws|]; try discriminate;
    try (destruct (NYTimes.subject_values kws); try discriminate);
    intros [= <-]; reflexivity.
Qed.

Lemma nyt_multi_query_rows_nonempty (docs : list NYTimes.Doc) :
  Forall (fun r => nonempty_key (NYTimes.web_url r))
    (omap NYTimes.parse_row (merged NYTimes.d_web_url docs)).
Proof.
  pose proof (merged_truthy NYTimes.d_web_url docs) as Hall.
  induction Hall as [|d ds Hd _ IH]; [constructor |].
  cbn [omap list_omap]. destruct (NYTimes.parse_row d) as [r|] eqn:Hr; [| exact IH].
  constructor; [| exact IH].
  rewrite (nyt_parse_row_web_url d r Hr).
  apply truthy_nonempty in Hd as (s & Hs & Hne). unfold raw_key in Hs.
  destruct (NYTimes.d_web_url d); try discriminate. cbn in *.
  exists s. split; [congruence | exact Hne].
Qed.

(** * Properties of the Guardian script *)

Module GuardianFacts.
Import Guardian.

Section Script.
Variable net : Net Doc.
Implicit Types (w : World Doc Row) (evs : list (Event Doc)).

(** One query of the multi-query pass: it never raises, it logs an
    optional pause, the request and the cool-down after a 429, and it
    merges what the response delivered. *)
Lemma gdn_query_step_run s e page i q st w :
  let pre := if 0 <? i then [EvSleep 1] else [] in
  let rq := mkRequest q s e page in
  let o := net (trace w ++ pre) rq in
  query_step net s e page i q st w =
  (Ok (merge_docs d_id (delivered o) st), log (pre ++ fetch_events 10 rq o) w).
Proof.
  cbv zeta.
  unfold query_step, try_except, bind, sleep, requests_get, json, ret, raise,
    delivered, single_result, fetch_events, rate_limited.
  destruct (0 <? i); cbn [trace log fs app]; rewrite ?app_nil_r.
  all: fetch_cases net; same_world.
Qed.

(** The request of a pagination page. *)
Lemma gdn_search_trump_covid_single_run s e page w :
  let rq := mkRequest QSingle s e page in
  let o := net (trace w) rq in
  search_trump_covid_single net s e page w =
  (Ok (single_result o), log (fetch_events 10 rq o) w).
Proof.
  cbv zeta.
  unfold search_trump_covid_single, try_except, bind, sleep, requests_get, json,
    ret, raise, single_result, fetch_events, rate_limited.
  fetch_cases net; same_world.
Qed.

Lemma gdn_query_loop_run s e page qs : forall st w,
  exists evs,
    query_loop net s e page qs st w =
      (Ok (merge_docs d_id (delivered_docs evs) st), log evs w) /\
    requests_of evs = map (fun iq => mkRequest iq.2 s e page) qs /\
    cooled 10 evs = true /\
    answered net (trace w) evs.
Proof.
  induction qs as [|[i q] rest IH]; intros st w.
  - exists []. cbn. rewrite log_nil. auto.
  - cbn [query_loop]. erewrite bind_ok by apply gdn_query_step_run.
    match goal with |- context [log ?evs1 w] => set (evs1' := evs1) end.
    match goal with |- context [delivered ?o1] => set (o := o1) end.
    destruct (IH (merge_docs d_id (delivered o) st) (log evs1' w))
      as (evs2 & Hrun & Hreq & Hcool & Hans).
    exists (evs1' ++ evs2). rewrite Hrun, log_log. repeat split.
    + rewrite delivered_docs_app, merge_docs_app. do 3 f_equal.
      subst evs1'. rewrite delivered_docs_app.
      unfold delivered_docs at 2. rewrite outcomes_of_fetch_events.
      cbn [flat_map]. rewrite app_nil_r.
      destruct (0 <? i); reflexivity.
    + rewrite requests_of_app, Hreq. subst evs1'.
      rewrite requests_of_app, requests_of_fetch_events.
      destruct (0 <? i); reflexivity.
    + apply cooled_app; [| exact Hcool]. subst evs1'.
      apply cooled_app; [destruct (0 <? i); reflexivity |].
      apply cooled_fetch_events.
    + apply answered_app. split; [| exact Hans].
      subst evs1'. apply answered_app. split.
      * destruct (0 <? i); cbn; auto.
      * apply answered_fetch_events.
Qed.

Lemma gdn_comprehensive_docs_run s e page w :
  exists evs,
    comprehensive_docs net s e page w =
      (Ok (merged d_id (delivered_docs evs)), log evs w) /\
    requests_of evs = query_requests s e page /\
    cooled 10 evs = true /\
    answered net (trace w) evs.
Proof.
  unfold comprehensive_docs.
  destruct (gdn_query_loop_run s e page (enumerate queries) ([], ∅) w)
    as (evs & Hrun & Hreq & Hcool & Hans).
  exists evs. erewrite bind_ok by exact Hrun. auto.
Qed.

(** [search_trump_covid_comprehensive] answers [None] exactly when
    [all_docs] is empty. *)
Lemma gdn_search_trump_covid_comprehensive_run s e page w :
  exists evs,
    let all_docs := merged d_id (delivered_docs evs) in
    comprehensive_docs net s e page w = (Ok all_docs, log evs w) /\
    search_trump_covid_comprehensive net s e page w =
      (Ok (match all_docs with
           | [] => None
           | _ :: _ => Some (BResponse (mkRespObj (Some all_docs) None None))
           end), log evs w) /\
    requests_of evs = query_requests s e page /\
    cooled 10 evs = true /\
    answered net (trace w) evs.
Proof.
  destruct (gdn_comprehensive_docs_run s e page w) as (evs & Hrun & Hrest).
  exists evs. cbv zeta. split; [exact Hrun |]. split; [| exact Hrest].
  unfold search_trump_covid_comprehensive. erewrite bind_ok by exact Hrun.
  destruct (merged d_id (delivered_docs evs)); reflexivity.
Qed.

Lemma gdn_parse_guardian_articles_falsy (response : option (Body Doc)) :
  body_truthy response = false -> parse_guardian_articles response = [].
Proof. destruct response as [[| |r]|]; cbn; congruence. Qed.

Lemma gdn_len_0 {A} (df : list A) : (len df =? 0) = true <-> df = [].
Proof.
  unfold len. rewrite Z.eqb_eq. destruct df; cbn; [tauto |].
  split; [lia | discriminate].
Qed.

Lemma gdn_page_stops_false o :
  page_stops o = false ->
  body_truthy (single_result o) = true /\
  (len (parse_guardian_articles (single_result o)) =? 0) = false /\
  (total_pages_of (single_result o) <=? current_page_of (single_result o)) = false.
Proof.
  unfold page_stops, no_page, empty_page, last_page.
  destruct (body_truthy (single_result o)); cbn; [| discriminate].
  intros H. apply orb_false_iff in H. tauto.
Qed.

(** The pagination pass: with fuel for the pages up to [max_pages]
    it never raises nor runs out; it requests consecutive pages,
    stopping at the first outcome with a stop condition or after page
    [max_pages]; it appends the pages that are not empty. *)
Lemma gdn_page_loop_run s e : forall fuel page all_articles w,
  (Z.to_nat (max_pages + 1 - page) <= fuel)%nat ->
  exists evs,
    page_loop net fuel s e page all_articles w =
      (Ok (all_articles ++ page_frames (outcomes_of evs)), log evs w) /\
    requests_of evs =
      page_requests s e (pages_from page (length (outcomes_of evs))) /\
    stops_at_first page_stops (Z.to_nat (max_pages + 1 - page)) (outcomes_of evs) /\
    cooled 10 evs = true /\
    answered net (trace w) evs.
Proof.
  intros fuel. induction fuel as [|fuel IH]; intros page all_articles w Hfuel;
    cbn [page_loop]; destruct (page <=? max_pages) eqn:Hpage.
  - apply Z.leb_le in Hpage. lia.
  - apply Z.leb_gt in Hpage. exists []. cbn. rewrite log_nil, app_nil_r.
    replace (Z.to_nat (max_pages + 1 - page)) with 0%nat by lia.
    split; [reflexivity |]. split; [reflexivity |].
    split; [constructor |]. split; [reflexivity | exact I].
  - apply Z.leb_le in Hpage.
    replace (Z.to_nat (max_pages + 1 - page))
      with (S (Z.to_nat (max_pages + 1 - (page + 1)))) in * by lia.
    unfold sleep at 1.
    erewrite bind_ok by reflexivity.
    erewrite bind_ok by apply gdn_search_trump_covid_single_run.
    rewrite log_log. cbn [trace log app].
    set (rq := mkRequest QSingle s e page).
    set (o := net (trace w ++ [EvSleep 1]) rq).
    set (evs1 := EvSleep 1 :: fetch_events 10 rq o).
    assert (Hreq1 : requests_of evs1 = [rq])
      by (subst evs1; unfold fetch_events; destruct (rate_limited o); reflexivity).
    assert (Hout1 : outcomes_of evs1 = [o])
      by (subst evs1; unfold fetch_events; destruct (rate_limited o); reflexivity).
    assert (Hcool1 : cooled 10 evs1 = true)
      by (subst evs1; apply (cooled_app 10 [EvSleep 1]); [reflexivity | apply cooled_fetch_events]).
    assert (Hans1 : answered net (trace w) evs1).
    { subst evs1. cbn [answered]. split; [exact I |]. apply answered_fetch_events. }
    assert (Hpage1 : pages_from page 1 = [page])
      by (unfold pages_from; cbn; f_equal; lia).
    destruct (page_stops o) eqn:Hstop.
    + (* a stop condition holds: this request is the last one *)
      exists evs1. rewrite Hout1. cbn [length]. rewrite Hpage1.
      split; [| split; [exact Hreq1 | split; [apply run_stop; exact Hstop | split; assumption]]].
      unfold page_stops, no_page, empty_page, last_page in Hstop.
      unfold page_frames. cbn [map List.filter].
      destruct (body_truthy (single_result o)) eqn:Ht; cbn [negb andb orb] in *.
      * destruct (len (parse_guardian_articles (single_result o)) =? 0) eqn:H0;
          cbn [negb orb] in *.
        -- unfold ret. rewrite app_nil_r. reflexivity.
        -- rewrite Hstop. reflexivity.
      * rewrite (gdn_parse_guardian_articles_falsy _ Ht). cbn. unfold ret.
        rewrite app_nil_r. reflexivity.
    + (* no stop condition: the frame is kept and the next page is requested *)
      destruct (gdn_page_stops_false o Hstop) as (Ht & H0 & Hlast).
      rewrite Ht, H0, Hlast. cbn [negb].
      destruct (IH (page + 1) (all_articles ++ [parse_guardian_articles (single_result o)])
                  (log evs1 w)) as (evs2 & Hrun & Hreq & Hrunp & Hcool & Hans);
        [lia |].
      exists (evs1 ++ evs2). rewrite Hrun, log_log.
      rewrite outcomes_of_app, Hout1. cbn [app length].
      split; [| split; [| split; [| split]]].
      * unfold page_frames. cbn [map List.filter]. rewrite H0. cbn [negb].
        rewrite <- app_assoc. reflexivity.
      * rewrite requests_of_app, Hreq1, Hreq. unfold pages_from, page_requests.
        cbn [seq map app]. f_equal; [f_equal; lia |].
        rewrite <- seq_shift, !map_map. apply map_ext. intros k. f_equal. lia.
      * apply run_next; assumption.
      * apply cooled_app; assumption.
      * apply answered_app. split; assumption.
  - apply Z.leb_gt in Hpage. exists []. cbn. rewrite log_nil, app_nil_r.
    replace (Z.to_nat (max_pages + 1 - page)) with 0%nat by lia.
    split; [reflexivity |]. split; [reflexivity |].
    split; [constructor |]. split; [reflexivity | exact I].
Qed.

Lemma gdn_concat_page_frames os :
  concat (page_frames os) =
  flat_map (fun o => parse_guardian_articles (single_result o)) os.
Proof.
  unfold page_frames. induction os as [|o os IH]; [reflexivity |].
  cbn [map List.filter flat_map].
  destruct (len (parse_guardian_articles (single_result o)) =? 0) eqn:H0; cbn [negb].
  - apply gdn_len_0 in H0. rewrite H0, IH. reflexivity.
  - cbn [concat]. rewrite IH. reflexivity.
Qed.

(** The monthly orchestrator: with fuel for the pages it never
    raises and leaves the disk alone; its requests are the five
    queries on page 1 followed by the pages of the pagination pass
    from page 2 on, all for the window of the month; the Monthly
    Dataset is [drop_duplicates] of the rows in the order they came
    in. *)
Lemma gdn_get_all_articles_for_month_run pfuel y m w :
  (19 <= pfuel)%nat ->
  exists evs_q evs_p,
    get_all_articles_for_month net pfuel y m w =
      (Ok (drop_duplicates article_id (month_rows evs_q evs_p)),
       log (evs_q ++ evs_p) w) /\
    requests_of evs_q =
      query_requests (month_window y m).1 (month_window y m).2 1 /\
    requests_of evs_p =
      page_requests (month_window y m).1 (month_window y m).2
        (pages_from 2 (length (outcomes_of evs_p))) /\
    stops_at_first page_stops 19 (outcomes_of evs_p) /\
    cooled 10 (evs_q ++ evs_p) = true /\
    answered net (trace w) (evs_q ++ evs_p).
Proof.
  intros Hfuel.
  unfold get_all_articles_for_month. destruct (month_window y m) as [s e].
  cbn [fst snd].
  destruct (gdn_search_trump_covid_comprehensive_run s e 1 w)
    as (evs_q & _ & Hrun & Hreq & Hcool & Hans).
  cbv zeta in Hrun. erewrite bind_ok by exact Hrun.
  set (all_docs := merged d_id (delivered_docs evs_q)) in *.
  match goal with |- context [page_loop net pfuel s e 2 ?a] => set (all0 := a) end.
  destruct (gdn_page_loop_run s e pfuel 2 all0 (log evs_q w))
    as (evs_p & Hrunp & Hreqp & Hstops & Hcoolp & Hansp);
    [exact Hfuel |].
  exists evs_q, evs_p. erewrite bind_ok by exact Hrunp.
  rewrite log_log.
  split; [| split; [exact Hreq | split; [exact Hreqp | split; [exact Hstops | split]]]].
  - assert (Hcat : concat (all0 ++ page_frames (outcomes_of evs_p)) =
                   month_rows evs_q evs_p).
    { rewrite concat_app, gdn_concat_page_frames. unfold month_rows. f_equal.
      subst all0. fold all_docs. destruct all_docs as [|d ds]; [reflexivity |].
      cbn [body_truthy parse_guardian_articles r_docs].
      destruct (0 <? len (omap parse_row (d :: ds))) eqn:Hlen.
      - cbn [concat]. apply app_nil_r.
      - apply Z.ltb_ge in Hlen. unfold len in Hlen.
        destruct (omap parse_row (d :: ds)); [reflexivity | cbn in Hlen; lia]. }
    rewrite <- Hcat.
    destruct (all0 ++ page_frames (outcomes_of evs_p)) eqn:Hall; reflexivity.
  - apply cooled_app; assumption.
  - apply answered_app. split; assumption.
Qed.

(** Resume: a month whose file is on disk costs nothing and changes
    nothing. *)
Lemma gdn_month_body_resume pfuel y m w df :
  fs w !! csv_path y m = Some df ->
  month_body net pfuel y m w = (Ok (df, len df), w).
Proof.
  intros Hf. unfold month_body, path_exists, read_csv, bind, ret. cbv zeta.
  rewrite Hf. rewrite bool_decide_eq_true_2 by eauto. cbv beta iota.
  rewrite Hf. reflexivity.
Qed.

(** Fetch: a month without a file is fetched, and written when the
    result is not empty. *)
Lemma gdn_month_body_fetch pfuel y m w :
  (19 <= pfuel)%nat ->
  fs w !! csv_path y m = None ->
  exists evs_q evs_p,
    let df := drop_duplicates article_id (month_rows evs_q evs_p) in
    month_body net pfuel y m w =
      (Ok (df, len df),
       mkWorld (if 0 <? len df then <[csv_path y m := df]> (fs w) else fs w)
               (trace w ++ evs_q ++ evs_p)) /\
    requests_of evs_q =
      query_requests (month_window y m).1 (month_window y m).2 1 /\
    requests_of evs_p =
      page_requests (month_window y m).1 (month_window y m).2
        (pages_from 2 (length (outcomes_of evs_p))) /\
    stops_at_first page_stops 19 (outcomes_of evs_p) /\
    cooled 10 (evs_q ++ evs_p) = true /\
    answered net (trace w) (evs_q ++ evs_p).
Proof.
  intros Hfuel Hf.
  destruct (gdn_get_all_articles_for_month_run pfuel y m w Hfuel)
    as (evs_q & evs_p & Hrun & Hrest).
  exists evs_q, evs_p. cbv zeta. split; [| exact Hrest].
  unfold month_body. cbv zeta. unfold path_exists at 1, bind at 1. rewrite Hf.
  rewrite bool_decide_eq_false_2 by (intros [? ?]; discriminate).
  erewrite bind_ok by exact Hrun.
  set (df := drop_duplicates article_id (month_rows evs_q evs_p)).
  destruct (0 <? len df) eqn:Hlen.
  - reflexivity.
  - apply Z.ltb_ge in Hlen.
    assert (H0 : len df = 0) by (unfold len in *; lia).
    rewrite H0. reflexivity.
Qed.

Lemma gdn_requests_whole_month y m (evs_q evs_p : list (Event Doc)) k ps :
  1 <= m <= 12 ->
  requests_of evs_q =
    query_requests (month_window y m).1 (month_window y m).2 k ->
  requests_of evs_p =
    page_requests (month_window y m).1 (month_window y m).2 ps ->
  Forall whole_month (requests_of (evs_q ++ evs_p)).
Proof.
  intros Hm Hq Hp. rewrite requests_of_app, Hq, Hp.
  apply Forall_app. split; apply Forall_map, Forall_forall; intros x _;
    apply whole_month_window, Hm.
Qed.

(** The driver's loop: with enough fuel it ends normally whatever
    the network answers; it visits the months in calendar order up
    to the month of [end_date]; it never touches a file that was
    there; its requests ask for whole months and every 429 is
    followed by the cool-down. *)
Lemma gdn_scrape_loop_run pfuel end_date : forall fuel current total monthly_counts w,
  (19 <= pfuel)%nat ->
  valid_date end_date ->
  1 <= month current <= 12 ->
  (months_to_visit current end_date <= fuel)%nat ->
  exists total' new fs' evs,
    scrape_loop net pfuel fuel current end_date total monthly_counts w =
      (Ok (total', monthly_counts ++ new), mkWorld fs' (trace w ++ evs)) /\
    fs w ⊆ fs' /\
    map (fun c => month_index c.1.1 c.1.2) new =
      (if date_leb current end_date then month_span current end_date else []) /\
    Forall (fun c => 1 <= c.1.2 <= 12) new /\
    Forall whole_month (requests_of evs) /\
    cooled 10 evs = true /\
    answered net (trace w) evs.
Proof.
  intros fuel. induction fuel as [|fuel IH];
    intros current total monthly_counts w Hpf Hend Hcur Hfuel;
    unfold months_to_visit in Hfuel; cbn [scrape_loop];
    destruct (date_leb current end_date) eqn:Hle.
  - exfalso. destruct (date_leb_index _ _ Hle) as [Hidx | Hbad];
      [| apply Hbad; split; [exact Hcur | apply Hend]].
    rewrite (month_span_cons _ _ Hidx Hcur) in Hfuel. cbn in Hfuel. lia.
  - exists total, [], (fs w), []. rewrite !app_nil_r. destruct w.
    split; [reflexivity |]. split; [reflexivity |]. split; [reflexivity |].
    split; [constructor |]. split; [constructor |].
    split; [reflexivity | exact I].
  - destruct (date_leb_index _ _ Hle) as [Hidx | Hbad];
      [| exfalso; apply Hbad; split; [exact Hcur | apply Hend]].
    rewrite (month_span_cons _ _ Hidx Hcur) in Hfuel |- *.
    destruct (next_month_index current Hcur) as [Hnext Hnextm].
    pose proof (date_leb_next_month current end_date Hcur Hend) as Hiff.
    set (y := year current) in *. set (m := month current) in *.
    assert (Hbody : exists df fs1 evs1,
              month_body net pfuel y m w = (Ok (df, len df), mkWorld fs1 (trace w ++ evs1)) /\
              fs w ⊆ fs1 /\ Forall whole_month (requests_of evs1) /\
              cooled 10 evs1 = true /\ answered net (trace w) evs1).
    { destruct (fs w !! csv_path y m) as [df|] eqn:Hf.
      - exists df, (fs w), []. rewrite (gdn_month_body_resume pfuel y m w df Hf).
        rewrite app_nil_r. destruct w.
        split; [reflexivity |]. split; [reflexivity |].
        split; [constructor |]. split; [reflexivity | exact I].
      - destruct (gdn_month_body_fetch pfuel y m w Hpf Hf)
          as (evs_q & evs_p & Hrun & Hq & Hp & _ & Hcool & Hans).
        cbv zeta in Hrun. eexists _, _, (evs_q ++ evs_p).
        split; [exact Hrun |]. split; [| split; [| split; assumption]].
        + cbn [fs]. destruct (0 <? _); [apply insert_subseteq, Hf | reflexivity].
        + exact (gdn_requests_whole_month y m evs_q evs_p 1 _ Hcur Hq Hp). }
    destruct Hbody as (df & fs1 & evs1 & Hrun & Hsub & Hwm & Hcool & Hans).
    erewrite bind_ok by exact Hrun.
    assert (Hfuel' : (months_to_visit (next_month current) end_date <= fuel)%nat).
    { unfold months_to_visit.
      destruct (date_leb (next_month current) end_date); [| lia].
      pose proof (proj1 Hiff eq_refl) as Hn. apply Z.leb_le in Hn.
      rewrite Hn in Hfuel. cbn [length] in Hfuel. lia. }
    destruct (IH (next_month current) (total + len df)
                (monthly_counts ++ [(y, m, len df)])
                (mkWorld fs1 (trace w ++ evs1)) Hpf Hend Hnextm Hfuel')
      as (total' & new & fs' & evs2 & Hrun2 & Hsub2 & Hspan & Hmon & Hwm2 & Hcool2 & Hans2).
    exists total', ((y, m, len df) :: new), fs', (evs1 ++ evs2).
    rewrite Hrun2. cbn [fs trace] in *. rewrite <- !app_assoc. cbn [app].
    split; [reflexivity |]. split; [etrans; eassumption |].
    split; [| split; [| split; [| split]]].
    + cbn [map fst snd]. f_equal. rewrite Hspan.
      destruct (date_leb (next_month current) end_date).
      * pose proof (proj1 Hiff eq_refl) as Hn. apply Z.leb_le in Hn.
        rewrite Hn. reflexivity.
      * destruct (month_index y m + 1 <=? _) eqn:Hn'; [| reflexivity].
        apply Z.leb_le, Hiff in Hn'. discriminate.
    + constructor; [exact Hcur | exact Hmon].
    + rewrite requests_of_app. apply Forall_app. split; assumption.
    + apply cooled_app; assumption.
    + apply answered_app. split; assumption.
  - exists total, [], (fs w), []. rewrite !app_nil_r. destruct w.
    split; [reflexivity |]. split; [reflexivity |]. split; [reflexivity |].
    split; [constructor |]. split; [constructor |].
    split; [reflexivity | exact I].
Qed.
End Script.

(** The final combination reads every file that matches
    [guardian_trump_covid/*.csv], in the order of the sorted paths. *)
Lemma gdn_combine_all_files_run to_datetime (w : World Doc Row) :
  exists files,
    (forall f, In f files <-> is_Some (fs w !! f) /\ matches_csv output_dir f = true) /\
    match files with
    | [] => combine_all_files to_datetime w = (Ok None, w)
    | _ :: _ =>
        exists dfs,
          Forall2 (fun f df => fs w !! f = Some df) files dfs /\
          let deduplicated := drop_duplicates article_id (concat dfs) in
          let combined := sort_values (timestamp to_datetime) deduplicated in
          combine_all_files to_datetime w =
            if forallb (fun r => parses (to_datetime (pub_date r))) deduplicated
            then (Ok (Some combined),
                  mkWorld (<[combined_path := combined]> (fs w)) (trace w))
            else (Exc ValueError, w)
    end.
Proof.
  destruct (sorted_glob_csv_listed (D := Doc) output_dir w) as (files & Hglob & Hfiles).
  exists files. split; [exact Hfiles |].
  unfold combine_all_files. erewrite bind_ok by exact Hglob.
  destruct files as [|f rest]; [reflexivity |].
  destruct (read_all_ok (D := Doc) (f :: rest) w) as (dfs & Hread & Hdfs).
  { apply Forall_forall. intros x Hx. apply Hfiles, list_elem_of_In, Hx. }
  exists dfs. split; [exact Hdfs |]. cbv zeta.
  erewrite bind_ok by exact Hread.
  destruct (forallb _ _); reflexivity.
Qed.
End GuardianFacts.

Lemma gdn_pages_from_two k :
  Forall (fun p => 2 <= p) (Guardian.pages_from 2 k).
Proof.
  unfold Guardian.pages_from. apply Forall_map, Forall_forall. intros x _. cbn. lia.
Qed.

(** A request that failed ends the pagination pass. *)
Lemma gdn_failed_page_stops (o : Outcome Guardian.Doc) :
  failed o = true -> Guardian.page_stops o = true.
Proof.
  intros H. unfold Guardian.page_stops, Guardian.no_page.
  rewrite (failed_single_result o H). reflexivity.
Qed.

(** The rows of the multi-query pass carry a non-empty [article_id]. *)
Lemma gdn_parse_row_article_id d r :
  Guardian.parse_row d = Some r ->
  Guardian.article_id r = get_default (Guardian.d_id d) "".
Proof.
  unfold Guardian.parse_row.
  destruct (Guardian.d_fields d); try discriminate;
    destruct (Guardian.d_tags d) as [|tags|]; try discriminate;
    try (destruct (Guardian.keyword_titles tags); try discriminate);
    intros [= <-]; reflexivity.
Qed.

Lemma gdn_multi_query_rows_nonempty (docs : list Guardian.Doc) :
  Forall (fun r => nonempty_key (Guardian.article_id r))
    (omap Guardian.parse_row (merged Guardian.d_id docs)).
Proof.
  pose proof (merged_truthy Guardian.d_id docs) as Hall.
  induction Hall as [|d ds Hd _ IH]; [constructor |].
  cbn [omap list_omap]. destruct (Guardian.parse_row d) as [r|] eqn:Hr; [| exact IH].
  constructor; [| exact IH].
  rewrite (gdn_parse_row_article_id d r Hr).
  apply truthy_nonempty in Hd as (s & Hs & Hne). unfold raw_key in Hs.
  destruct (Guardian.d_id d); try discriminate. cbn in *.
  exists s. split; [congruence | exact Hne].
Qed.

(** * The properties of the specification *)

Import Examples.

(** ** C1 — the deduplicator keeps the first occurrence of every key *)

(** C1, as stated, fails on the multi-query merge: a document whose
    identity key is the empty string is dropped, so its key does not
    occur in the output at all. *)
Lemma C1_merge_drops_empty_key :
  ~ (forall (docs : list NYTimes.Doc) (k : string),
       List.filter (has_key (raw_key NYTimes.d_web_url) (CStr k))
         (merged NYTimes.d_web_url docs) =
       first_with (raw_key NYTimes.d_web_url) (CStr k) docs).
Proof.
  intros H. specialize (H [nyt_doc "" "2023-08-01"] "").
  vm_compute in H. discriminate H.
Qed.

(** C1 (amended): the deduplicator's output holds every non-empty
    identity key of its input exactly once, and the row kept for a key is
    its first occurrence in input order.  The multi-query merge
    ([web_url] for NYTimes, [id] for the Guardian) keeps no document
    whose key is missing or empty; [drop_duplicates] ([web_url], resp.
    [article_id]) keeps the first row of every key value. *)
Theorem C1_dedup_keeps_first_occurrence :
  (forall (docs : list NYTimes.Doc) (k : string),
      k <> "" ->
      List.filter (has_key (raw_key NYTimes.d_web_url) (CStr k))
        (merged NYTimes.d_web_url docs) =
      first_with (raw_key NYTimes.d_web_url) (CStr k) docs) /\
  (forall (docs : list Guardian.Doc) (k : string),
      k <> "" ->
      List.filter (has_key (raw_key Guardian.d_id) (CStr k))
        (merged Guardian.d_id docs) =
      first_with (raw_key Guardian.d_id) (CStr k) docs) /\
  (forall docs : list NYTimes.Doc,
      Forall (fun d => nonempty_key (raw_key NYTimes.d_web_url d))
        (merged NYTimes.d_web_url docs)) /\
  (forall docs : list Guardian.Doc,
      Forall (fun d => nonempty_key (raw_key Guardian.d_id d))
        (merged Guardian.d_id docs)) /\
  (forall (df : list NYTimes.Row) (k : Cell),
      List.filter (has_key NYTimes.web_url k) (drop_duplicates NYTimes.web_url df) =
      first_with NYTimes.web_url k df) /\
  (forall (df : list Guardian.Row) (k : Cell),
      List.filter (has_key Guardian.article_id k)
        (drop_duplicates Guardian.article_id df) =
      first_with Guardian.article_id k df).
Proof.
  repeat split.
  - intros docs k Hk. apply merged_first, Hk.
  - intros docs k Hk. apply merged_first, Hk.
  - intros docs. eapply Forall_impl; [apply merged_truthy |].
    intros d Hd. apply truthy_nonempty, Hd.
  - intros docs. eapply Forall_impl; [apply merged_truthy |].
    intros d Hd. apply truthy_nonempty, Hd.
  - intros df k. apply drop_duplicates_filter.
  - intros df k. apply drop_duplicates_filter.
Qed.

Lemma C1_witness :
  "u2" <> "" /\
  List.filter (has_key (raw_key NYTimes.d_web_url) (CStr "u2"))
    (merged NYTimes.d_web_url
       [nyt_doc "u1" "2023-08-01"; nyt_doc "u2" "2023-08-02";
        nyt_doc "u2" "2023-08-03"]) =
  [nyt_doc "u2" "2023-08-02"] /\
  "world/2" <> "" /\
  List.filter (has_key (raw_key Guardian.d_id) (CStr "world/2"))
    (merged Guardian.d_id
       [gdn_doc "world/2" "2023-08-02"; gdn_doc "world/2" "2023-08-03"]) =
  [gdn_doc "world/2" "2023-08-02"].
Proof.
  destruct C1_dedup_keeps_first_occurrence as (Hnyt & Hgdn & _).
  split; [discriminate |]. split.
  - rewrite Hnyt by discriminate. reflexivity.
  - split; [discriminate |]. rewrite Hgdn by discriminate. reflexivity.
Defined.

(** ** C9 — deduplication is idempotent *)

(** C9: [drop_duplicates] returns a frame whose keys are pairwise
    distinct unchanged, and applying it twice is the same as applying it
    once ([web_url] for NYTimes, [article_id] for the Guardian). *)
Theorem C9_drop_duplicates_idempotent :
  (forall df : list NYTimes.Row,
      NoDup (map NYTimes.web_url df) -> drop_duplicates NYTimes.web_url df = df) /\
  (forall df : list NYTimes.Row,
      drop_duplicates NYTimes.web_url (drop_duplicates NYTimes.web_url df) =
      drop_duplicates NYTimes.web_url df) /\
  (forall df : list Guardian.Row,
      NoDup (map Guardian.article_id df) ->
      drop_duplicates Guardian.article_id df = df) /\
  (forall df : list Guardian.Row,
      drop_duplicates Guardian.article_id (drop_duplicates Guardian.article_id df) =
      drop_duplicates Guardian.article_id df).
Proof.
  repeat split.
  - intros df. apply drop_duplicates_id.
  - intros df. apply drop_duplicates_idem.
  - intros df. apply drop_duplicates_id.
  - intros df. apply drop_duplicates_idem.
Qed.

Lemma C9_witness :
  NoDup (map NYTimes.web_url nyt_august) /\
  drop_duplicates NYTimes.web_url nyt_august = nyt_august /\
  NoDup (map Guardian.article_id gdn_august) /\
  drop_duplicates Guardian.article_id gdn_august = gdn_august.
Proof.
  assert (H1 : NoDup (map NYTimes.web_url nyt_august)).
  { apply NoDup_cons. split; [| apply NoDup_singleton].
    intros H. apply list_elem_of_singleton in H. discriminate H. }
  assert (H2 : NoDup (map Guardian.article_id gdn_august)) by apply NoDup_singleton.
  destruct C9_drop_duplicates_idempotent as (Hnyt & _ & Hgdn & _).
  split; [exact H1 |]. split; [exact (Hnyt _ H1) |].
  split; [exact H2 | exact (Hgdn _ H2)].
Defined.

(** ** C2 — a month that is already on disk is not fetched again *)

(** C2: when the monthly file of (year, month) exists, the loop body of
    [scrape_by_month] yields exactly the contents of the file and leaves
    the world as it was: nothing is added to the trace (no request, no
    pause) and the disk is unchanged.  Over a whole run, every file that
    was on disk at the start is still there with the same contents. *)
Theorem C2_existing_month_is_skipped :
  (forall (net : Net NYTimes.Doc) y m (w : World NYTimes.Doc NYTimes.Row) df,
      fs w !! NYTimes.csv_path y m = Some df ->
      NYTimes.month_body net y m w = (Ok (df, NYTimes.len df), w)) /\
  (forall (net : Net Guardian.Doc) pfuel y m (w : World Guardian.Doc Guardian.Row) df,
      fs w !! Guardian.csv_path y m = Some df ->
      Guardian.month_body net pfuel y m w = (Ok (df, Guardian.len df), w)) /\
  (forall (net : Net NYTimes.Doc) fuel start_date end_date
          (w : World NYTimes.Doc NYTimes.Row),
      valid_date start_date -> valid_date end_date ->
      (months_to_visit start_date end_date <= fuel)%nat ->
      exists r w',
        NYTimes.scrape_by_month net fuel start_date end_date w = (Ok r, w') /\
        forall path df, fs w !! path = Some df -> fs w' !! path = Some df) /\
  (forall (net : Net Guardian.Doc) pfuel fuel start_date end_date
          (w : World Guardian.Doc Guardian.Row),
      (19 <= pfuel)%nat ->
      valid_date start_date -> valid_date end_date ->
      (months_to_visit start_date end_date <= fuel)%nat ->
      exists r w',
        Guardian.scrape_by_month net pfuel fuel start_date end_date w = (Ok r, w') /\
        forall path df, fs w !! path = Some df -> fs w' !! path = Some df).
Proof.
  split; [| split; [| split]].
  - intros net y m w df Hf. apply NYTimesFacts.nyt_month_body_resume, Hf.
  - intros net pfuel y m w df Hf. apply GuardianFacts.gdn_month_body_resume, Hf.
  - intros net fuel start_date end_date w [Hs _] He Hfuel.
    destruct (NYTimesFacts.nyt_scrape_loop_run net end_date fuel start_date 0 [] w
                He Hs Hfuel) as (total & new & fs' & evs & Hrun & Hsub & _).
    eexists _, _. split; [exact Hrun |].
    intros path df Hf. cbn [fs]. eapply lookup_weaken; eassumption.
  - intros net pfuel fuel start_date end_date w Hpf [Hs _] He Hfuel.
    destruct (GuardianFacts.gdn_scrape_loop_run net pfuel end_date fuel start_date 0 [] w
                Hpf He Hs Hfuel) as (total & new & fs' & evs & Hrun & Hsub & _).
    eexists _, _. split; [exact Hrun |].
    intros path df Hf. cbn [fs]. eapply lookup_weaken; eassumption.
Qed.

Lemma C2_witness :
  (fs nyt_resumed !! NYTimes.csv_path 2023 8 = Some nyt_august /\
   NYTimes.month_body net_down 2023 8 nyt_resumed = (Ok (nyt_august, 2), nyt_resumed)) /\
  (fs gdn_resumed !! Guardian.csv_path 2023 8 = Some gdn_august /\
   Guardian.month_body net_down 19 2023 8 gdn_resumed = (Ok (gdn_august, 1), gdn_resumed)) /\
  (valid_date (mkdate 2023 8 1) /\ valid_date (mkdate 2023 9 30) /\
   (months_to_visit (mkdate 2023 8 1) (mkdate 2023 9 30) <= 2)%nat /\
   exists r w',
     NYTimes.scrape_by_month net_down 2 (mkdate 2023 8 1) (mkdate 2023 9 30) nyt_resumed =
       (Ok r, w') /\
     forall path df, fs nyt_resumed !! path = Some df -> fs w' !! path = Some df) /\
  ((19 <= 19)%nat /\
   exists r w',
     Guardian.scrape_by_month net_down 19 2 (mkdate 2023 8 1) (mkdate 2023 9 30) gdn_resumed =
       (Ok r, w') /\
     forall path df, fs gdn_resumed !! path = Some df -> fs w' !! path = Some df).
Proof.
  destruct C2_existing_month_is_skipped as (Hnyt & Hgdn & Hnyt_run & Hgdn_run).
  assert (Hf1 : fs nyt_resumed !! NYTimes.csv_path 2023 8 = Some nyt_august)
    by (vm_compute; reflexivity).
  assert (Hf2 : fs gdn_resumed !! Guardian.csv_path 2023 8 = Some gdn_august)
    by (vm_compute; reflexivity).
  assert (Hs : valid_date (mkdate 2023 8 1)) by valid_date_tac.
  assert (He : valid_date (mkdate 2023 9 30)) by valid_date_tac.
  assert (Hfuel : (months_to_visit (mkdate 2023 8 1) (mkdate 2023 9 30) <= 2)%nat)
    by fuel_tac.
  split; [split; [exact Hf1 | exact (Hnyt net_down 2023 8 nyt_resumed nyt_august Hf1)] |].
  split; [split; [exact Hf2 | exact (Hgdn net_down 19%nat 2023 8 gdn_resumed gdn_august Hf2)] |].
  split.
  - split; [exact Hs |]. split; [exact He |]. split; [exact Hfuel |].
    exact (Hnyt_run net_down 2%nat _ _ nyt_resumed Hs He Hfuel).
  - split; [lia |].
    exact (Hgdn_run net_down 19%nat 2%nat _ _ gdn_resumed (le_n 19) Hs He Hfuel).
Defined.

(** ** C10 — the multi-query merge cannot tell "nothing found" from "everything failed" *)

(** C10: [search_trump_covid_comprehensive] issues its five requests,
    never raises, and returns [None] exactly when its accumulated list
    [all_docs] is empty.  It returns [None] when every request fails, and
    also when every request succeeds with zero documents: the caller
    sees the same answer in both cases. *)
Theorem C10_none_iff_no_documents :
  (forall (net : Net NYTimes.Doc) y m page (w : World NYTimes.Doc NYTimes.Row),
      exists evs r,
        let all_docs := merged NYTimes.d_web_url (delivered_docs evs) in
        NYTimes.comprehensive_docs net y m page w = (Ok all_docs, log evs w) /\
        NYTimes.search_trump_covid_comprehensive net y m page w = (Ok r, log evs w) /\
        length (requests_of evs) = 5%nat /\
        (r = None <-> all_docs = []) /\
        (forall body, r = Some body ->
                      body = BResponse (mkRespObj (Some all_docs) None None))) /\
  (forall (net : Net NYTimes.Doc) y m page (w : World NYTimes.Doc NYTimes.Row),
      (forall tr rq, failed (net tr rq) = true) ->
      exists w', NYTimes.search_trump_covid_comprehensive net y m page w = (Ok None, w')) /\
  (forall (net : Net NYTimes.Doc) y m page (w : World NYTimes.Doc NYTimes.Row),
      (forall tr rq, net tr rq = ok_page []) ->
      exists w', NYTimes.search_trump_covid_comprehensive net y m page w = (Ok None, w')) /\
  (forall (net : Net Guardian.Doc) s e page (w : World Guardian.Doc Guardian.Row),
      exists evs r,
        let all_articles := merged Guardian.d_id (delivered_docs evs) in
        Guardian.comprehensive_docs net s e page w = (Ok all_articles, log evs w) /\
        Guardian.search_trump_covid_comprehensive net s e page w = (Ok r, log evs w) /\
        length (requests_of evs) = 5%nat /\
        (r = None <-> all_articles = []) /\
        (forall body, r = Some body ->
                      body = BResponse (mkRespObj (Some all_articles) None None))) /\
  (forall (net : Net Guardian.Doc) s e page (w : World Guardian.Doc Guardian.Row),
      (forall tr rq, failed (net tr rq) = true) ->
      exists w', Guardian.search_trump_covid_comprehensive net s e page w = (Ok None, w')) /\
  (forall (net : Net Guardian.Doc) s e page (w : World Guardian.Doc Guardian.Row),
      (forall tr rq, net tr rq = ok_page []) ->
      exists w', Guardian.search_trump_covid_comprehensive net s e page w = (Ok None, w')).
Proof.
  assert (Hnyt : forall (net : Net NYTimes.Doc) y m page w,
             (forall tr rq, delivered (net tr rq) = []) ->
             exists w', NYTimes.search_trump_covid_comprehensive net y m page w = (Ok None, w')).
  { intros net y m page w Hnet.
    destruct (NYTimesFacts.nyt_search_trump_covid_comprehensive_run net y m page w)
      as (evs & _ & Hrun & _ & _ & Hans).
    cbv zeta in Hrun.
    rewrite (delivered_docs_nil net evs (trace w) Hnet Hans) in Hrun.
    eexists. exact Hrun. }
  assert (Hgdn : forall (net : Net Guardian.Doc) s e page w,
             (forall tr rq, delivered (net tr rq) = []) ->
             exists w', Guardian.search_trump_covid_comprehensive net s e page w = (Ok None, w')).
  { intros net s e page w Hnet.
    destruct (GuardianFacts.gdn_search_trump_covid_comprehensive_run net s e page w)
      as (evs & _ & Hrun & _ & _ & Hans).
    cbv zeta in Hrun.
    rewrite (delivered_docs_nil net evs (trace w) Hnet Hans) in Hrun.
    eexists. exact Hrun. }
  split; [| split; [| split; [| split; [| split]]]].
  - intros net y m page w.
    destruct (NYTimesFacts.nyt_search_trump_covid_comprehensive_run net y m page w)
      as (evs & Hdocs & Hrun & Hreq & _).
    cbv zeta in Hdocs, Hrun. eexists evs, _. cbv zeta.
    split; [exact Hdocs |]. split; [exact Hrun |].
    split; [rewrite Hreq; reflexivity |].
    destruct (merged NYTimes.d_web_url (delivered_docs evs)); split.
    + tauto.
    + discriminate.
    + split; discriminate.
    + intros body [= <-]. reflexivity.
  - intros net y m page w Hnet. apply Hnyt. intros tr rq.
    apply failed_delivered, Hnet.
  - intros net y m page w Hnet. apply Hnyt. intros tr rq. rewrite Hnet. reflexivity.
  - intros net s e page w.
    destruct (GuardianFacts.gdn_search_trump_covid_comprehensive_run net s e page w)
      as (evs & Hdocs & Hrun & Hreq & _).
    cbv zeta in Hdocs, Hrun. eexists evs, _. cbv zeta.
    split; [exact Hdocs |]. split; [exact Hrun |].
    split; [rewrite Hreq; reflexivity |].
    destruct (merged Guardian.d_id (delivered_docs evs)); split.
    + tauto.
    + discriminate.
    + split; discriminate.
    + intros body [= <-]. reflexivity.
  - intros net s e page w Hnet. apply Hgdn. intros tr rq.
    apply failed_delivered, Hnet.
  - intros net s e page w Hnet. apply Hgdn. intros tr rq. rewrite Hnet. reflexivity.
Qed.

Lemma C10_witness :
  ((forall tr rq, failed (@net_down NYTimes.Doc tr rq) = true) /\
   exists w', NYTimes.search_trump_covid_comprehensive net_down 2023 8 0 nyt_fresh =
              (Ok None, w')) /\
  ((forall tr rq, @net_quiet NYTimes.Doc tr rq = ok_page []) /\
   exists w', NYTimes.search_trump_covid_comprehensive net_quiet 2023 8 0 nyt_fresh =
              (Ok None, w')) /\
  ((forall tr rq, failed (@net_down Guardian.Doc tr rq) = true) /\
   exists w', Guardian.search_trump_covid_comprehensive net_down
                (mkdate 2023 8 1) (mkdate 2023 8 31) 1 gdn_fresh = (Ok None, w')) /\
  ((forall tr rq, @net_quiet Guardian.Doc tr rq = ok_page []) /\
   exists w', Guardian.search_trump_covid_comprehensive net_quiet
                (mkdate 2023 8 1) (mkdate 2023 8 31) 1 gdn_fresh = (Ok None, w')).
Proof.
  destruct C10_none_iff_no_documents as (_ & Hn1 & Hn2 & _ & Hg1 & Hg2).
  split; [split; [reflexivity | apply Hn1; reflexivity] |].
  split; [split; [reflexivity | apply Hn2; reflexivity] |].
  split; [split; [reflexivity | apply Hg1; reflexivity] |].
  split; [reflexivity | apply Hg2; reflexivity].
Defined.

(** ** C3 — the Combined Dataset *)

(** What does hold: on a directory that holds monthly files only, the
    combined frame is the deduplicated concatenation of the files in the
    order of their sorted names, sorted by timestamp descending.  For the
    files {u1, u2} and {u2, u3} it holds exactly u1, u2 and u3, and the
    row of u2 is the one of the first file. *)
Example nyt_combine_two_files :
  fst (sorted_glob_csv (D := NYTimes.Doc) NYTimes.output_dir nyt_two_files) =
    Ok ["nytimes_trump_covid/2023-08.csv"; "nytimes_trump_covid/2023-09.csv"] /\
  fst (NYTimes.combine_all_files to_datetime nyt_two_files) =
    Ok (Some [nyt_row "u3" "2023-09-02"; nyt_row "u2" "2023-08-31";
              nyt_row "u1" "2023-08-01"]).
Proof. split; vm_compute; reflexivity. Qed.

(** C3 at its failing input, the disk of a second run.  The pattern
    [nytimes_trump_covid/*.csv] also matches [combined.csv], which the
    first run wrote into the same directory: the file is read back as
    if it were a monthly file, and the row u9, which is in no monthly
    file, is part of the new Combined Dataset. *)
Theorem C3_combined_csv_is_read_back :
  fst (sorted_glob_csv (D := NYTimes.Doc) NYTimes.output_dir nyt_second_run) =
    Ok ["nytimes_trump_covid/2023-08.csv"; "nytimes_trump_covid/combined.csv"] /\
  fs nyt_second_run !! NYTimes.csv_path 2023 8 = Some [nyt_row "u1" "2023-08-01"] /\
  fst (NYTimes.combine_all_files to_datetime nyt_second_run) =
    Ok (Some [nyt_row "u9" "2023-09-02"; nyt_row "u1" "2023-08-01"]).
Proof. repeat split; vm_compute; reflexivity. Qed.

(** ** C8 — the identity key of a retained article *)

(** C8 at its failing input.  The multi-query pass finds nothing and
    page 1 of the pagination pass holds one document without
    ['web_url']: [parse_articles] gives it the key [''], nothing filters
    it, and the row is returned and written to the monthly file. *)
Theorem C8_empty_key_is_retained :
  let row := NYTimes.mkRow (CStr "Untitled") (CStr "2023-08-05") (CStr "") (CStr "")
               (CStr "") (CStr "") in
  fst (NYTimes.get_all_articles_for_month net_no_url 2023 8 nyt_fresh) = Ok [row] /\
  fs (snd (NYTimes.month_body net_no_url 2023 8 nyt_fresh)) !! NYTimes.csv_path 2023 8 =
    Some [row] /\
  ~ nonempty_key (NYTimes.web_url row).
Proof.
  cbv zeta. split; [vm_compute; reflexivity |]. split; [vm_compute; reflexivity |].
  intros (s & Hs & Hne). injection Hs as <-. apply Hne. reflexivity.
Qed.

(** ** C4 — when the pagination pass stops *)

(** C4, as stated, fails: with HTTP 500 as the answer to page 1 the
    pass ends after that request, although no page with zero documents
    and no page with fewer than 10 results was seen and 13 pages were
    left. *)
Lemma C4_failed_request_stops_pagination :
  ~ (forall (net : Net NYTimes.Doc) y m (w : World NYTimes.Doc NYTimes.Row),
       exists evs all_articles,
         NYTimes.page_loop net y m NYTimes.pages [] w = (Ok all_articles, log evs w) /\
         stops_at_first (fun o => NYTimes.empty_page o || NYTimes.short_page o) 14
           (outcomes_of evs)).
Proof.
  intros H.
  destruct (H (net_pages 500) 2023 8 nyt_fresh) as (evs & all_articles & Hrun & Hstops).
  vm_compute in Hrun. injection Hrun as _ Hevs. subst evs.
  inversion Hstops as [| n o Hstop | n o os Hgo Hrest]; subst.
  - vm_compute in Hstop. discriminate Hstop.
  - inversion Hrest.
Qed.

(** C4 (amended): the pagination pass terminates.  It requests
    consecutive pages from the initial one (1 for NYTimes, 2 for the
    Guardian), never a page below it, and it stops at the first request
    whose outcome fulfils one of: (a) a page with zero parsed documents;
    (b) Guardian: the metadata reports [currentPage >= pages];
    (d) NYTimes: a page with fewer than 10 results; (e) no usable
    response at all (HTTP 429, another status that is not 200, an
    exception, or an empty JSON object) — or (c) when the ceiling is
    reached: 14 pagination pages on NYTimes (15 pages with page 0), 19 on
    the Guardian (20 pages with page 1). *)
Theorem C4_pagination_stops :
  (forall (net : Net NYTimes.Doc) y m all_articles (w : World NYTimes.Doc NYTimes.Row),
      exists evs,
        NYTimes.page_loop net y m (py_range 1 15) all_articles w =
          (Ok (all_articles ++ NYTimes.page_frames (outcomes_of evs)), log evs w) /\
        map rq_page (requests_of evs) =
          firstn (length (outcomes_of evs)) (py_range 1 15) /\
        Forall (fun rq => 1 <= rq_page rq) (requests_of evs) /\
        stops_at_first
          (fun o => NYTimes.no_page o || NYTimes.empty_page o || NYTimes.short_page o)
          14 (outcomes_of evs)) /\
  (forall (net : Net Guardian.Doc) pfuel s e all_articles
          (w : World Guardian.Doc Guardian.Row),
      (19 <= pfuel)%nat ->
      exists evs,
        Guardian.page_loop net pfuel s e 2 all_articles w =
          (Ok (all_articles ++ Guardian.page_frames (outcomes_of evs)), log evs w) /\
        map rq_page (requests_of evs) =
          Guardian.pages_from 2 (length (outcomes_of evs)) /\
        Forall (fun rq => 2 <= rq_page rq) (requests_of evs) /\
        stops_at_first
          (fun o => Guardian.no_page o || Guardian.empty_page o || Guardian.last_page o)
          19 (outcomes_of evs)) /\
  (forall o : Outcome NYTimes.Doc,
      NYTimes.no_page o = true <->
      single_result o = None \/ single_result o = Some BEmpty) /\
  (forall o : Outcome Guardian.Doc,
      Guardian.no_page o = true <->
      single_result o = None \/ single_result o = Some BEmpty).
Proof.
  split; [| split; [| split]].
  - intros net y m all_articles w.
    destruct (NYTimesFacts.nyt_page_loop_run net y m (py_range 1 15) all_articles w)
      as (evs & Hrun & Hreq & Hstops & _).
    exists evs. split; [exact Hrun |].
    rewrite Hreq. unfold NYTimes.page_requests. rewrite map_map. cbn [rq_page].
    rewrite map_id. split; [reflexivity |]. split; [| exact Hstops].
    apply Forall_map. cbn [rq_page]. apply nyt_pages_from_one.
  - intros net pfuel s e all_articles w Hfuel.
    destruct (GuardianFacts.gdn_page_loop_run net s e pfuel 2 all_articles w Hfuel)
      as (evs & Hrun & Hreq & Hstops & _).
    exists evs. split; [exact Hrun |].
    rewrite Hreq. unfold Guardian.page_requests. rewrite map_map. cbn [rq_page].
    rewrite map_id. split; [reflexivity |]. split; [| exact Hstops].
    apply Forall_map. cbn [rq_page]. apply gdn_pages_from_two.
  - intros o. unfold NYTimes.no_page.
    destruct (single_result o) as [[| |r]|]; cbn; split; intros H;
      try discriminate; auto; destruct H as [H | H]; discriminate.
  - intros o. unfold Guardian.no_page.
    destruct (single_result o) as [[| |r]|]; cbn; split; intros H;
      try discriminate; auto; destruct H as [H | H]; discriminate.
Qed.

Lemma C4_witness :
  (19 <= 19)%nat /\
  exists evs,
    Guardian.page_loop gdn_net_quiet 19 (mkdate 2023 8 1) (mkdate 2023 8 31) 2 [] gdn_fresh =
      (Ok ([] ++ Guardian.page_frames (outcomes_of evs)), log evs gdn_fresh) /\
    map rq_page (requests_of evs) = Guardian.pages_from 2 (length (outcomes_of evs)) /\
    Forall (fun rq => 2 <= rq_page rq) (requests_of evs) /\
    stops_at_first
      (fun o => Guardian.no_page o || Guardian.empty_page o || Guardian.last_page o)
      19 (outcomes_of evs).
Proof.
  split; [lia |].
  exact (proj1 (proj2 C4_pagination_stops) gdn_net_quiet 19%nat
           (mkdate 2023 8 1) (mkdate 2023 8 31) [] gdn_fresh (le_n 19)).
Defined.

(** ** C5 — the cool-down after HTTP 429 *)

(** C5, as stated, fails for pages: after a 429 on a page of the
    pagination pass the remaining pages of the month are not requested.
    Here page 1 is rate-limited and page 2 is never asked for. *)
Lemma C5_rate_limited_page_ends_pagination :
  ~ (forall (net : Net NYTimes.Doc) y m (w : World NYTimes.Doc NYTimes.Row) rq o,
       let w' := snd (NYTimes.get_all_articles_for_month net y m w) in
       In (EvRequest rq o) (trace w') ->
       rate_limited o = true ->
       rq_query rq = QSingle ->
       rq_page rq < 14 ->
       exists o',
         In (EvRequest (mkRequest QSingle (rq_from rq) (rq_to rq) (rq_page rq + 1)) o')
            (trace w')).
Proof.
  intros H.
  specialize (H (net_pages 429) 2023 8 nyt_fresh
                (mkRequest QSingle (mkdate 2023 8 1) (mkdate 2023 8 31) 1)
                (status_only 429)).
  vm_compute in H.
  destruct H as [o' Hin];
    [solve [repeat ((left; reflexivity) || right)] | reflexivity | reflexivity
     | reflexivity |].
  repeat (destruct Hin as [Hin | Hin]; [discriminate Hin |]).
  exact Hin.
Qed.

(** C5 (amended): every request answered with HTTP 429 is followed at
    once, before any further request, by a pause of the source's
    cool-down (60 seconds for NYTimes, 10 for the Guardian), and the
    month's fetch still ends normally.  In the multi-query pass the
    rate-limited query delivers nothing and all five queries are
    requested whatever their outcomes; the pagination pass then starts.
    A rate-limited page ends the pagination of that month.  The driver
    goes on to the remaining months. *)
Theorem C5_rate_limit_cooldown :
  (forall (net : Net NYTimes.Doc) y m (w : World NYTimes.Doc NYTimes.Row),
      exists df evs_q evs_p,
        NYTimes.get_all_articles_for_month net y m w = (Ok df, log (evs_q ++ evs_p) w) /\
        cooled 60 (evs_q ++ evs_p) = true /\
        map rq_query (requests_of evs_q) = queries /\
        requests_of evs_p <> []) /\
  (forall o : Outcome NYTimes.Doc,
      rate_limited o = true -> delivered o = [] /\ NYTimes.page_stops o = true) /\
  (forall (net : Net NYTimes.Doc) fuel start_date end_date
          (w : World NYTimes.Doc NYTimes.Row),
      valid_date start_date -> valid_date end_date ->
      (months_to_visit start_date end_date <= fuel)%nat ->
      exists total monthly_counts fs' evs,
        NYTimes.scrape_by_month net fuel start_date end_date w =
          (Ok (total, monthly_counts), mkWorld fs' (trace w ++ evs)) /\
        cooled 60 evs = true /\
        length monthly_counts = months_to_visit start_date end_date) /\
  (forall (net : Net Guardian.Doc) pfuel y m (w : World Guardian.Doc Guardian.Row),
      (19 <= pfuel)%nat ->
      exists df evs_q evs_p,
        Guardian.get_all_articles_for_month net pfuel y m w =
          (Ok df, log (evs_q ++ evs_p) w) /\
        cooled 10 (evs_q ++ evs_p) = true /\
        map rq_query (requests_of evs_q) = queries /\
        requests_of evs_p <> []) /\
  (forall o : Outcome Guardian.Doc,
      rate_limited o = true -> delivered o = [] /\ Guardian.page_stops o = true) /\
  (forall (net : Net Guardian.Doc) pfuel fuel start_date end_date
          (w : World Guardian.Doc Guardian.Row),
      (19 <= pfuel)%nat ->
      valid_date start_date -> valid_date end_date ->
      (months_to_visit start_date end_date <= fuel)%nat ->
      exists total monthly_counts fs' evs,
        Guardian.scrape_by_month net pfuel fuel start_date end_date w =
          (Ok (total, monthly_counts), mkWorld fs' (trace w ++ evs)) /\
        cooled 10 evs = true /\
        length monthly_counts = months_to_visit start_date end_date).
Proof.
  split; [| split; [| split; [| split; [| split]]]].
  - intros net y m w.
    destruct (NYTimesFacts.nyt_get_all_articles_for_month_run net y m w)
      as (evs_q & evs_p & Hrun & Hq & Hp & Hstops & Hcool & _).
    eexists _, evs_q, evs_p. split; [exact Hrun |]. split; [exact Hcool |].
    split; [rewrite Hq; reflexivity |].
    intros Hnil. apply (stops_at_first_nonempty _ _ _ Hstops).
    destruct (outcomes_of evs_p) as [|o os] eqn:Hos; [reflexivity |].
    rewrite Hnil in Hp. cbn in Hp. discriminate Hp.
  - intros o Ho. pose proof (rate_limited_failed o Ho) as Hf.
    split; [apply failed_delivered, Hf | apply nyt_failed_page_stops, Hf].
  - intros net fuel start_date end_date w [Hs _] He Hfuel.
    destruct (NYTimesFacts.nyt_scrape_loop_run net end_date fuel start_date 0 [] w
                He Hs Hfuel) as (total & new & fs' & evs & Hrun & _ & Hspan & _ & _ & Hcool & _).
    exists total, new, fs', evs. split; [exact Hrun |]. split; [exact Hcool |].
    unfold months_to_visit. rewrite <- (length_map (fun c => month_index c.1.1 c.1.2) new), Hspan.
    destruct (date_leb start_date end_date); reflexivity.
  - intros net pfuel y m w Hpf.
    destruct (GuardianFacts.gdn_get_all_articles_for_month_run net pfuel y m w Hpf)
      as (evs_q & evs_p & Hrun & Hq & Hp & Hstops & Hcool & _).
    eexists _, evs_q, evs_p. split; [exact Hrun |]. split; [exact Hcool |].
    split; [rewrite Hq; reflexivity |].
    intros Hnil. apply (stops_at_first_nonempty _ _ _ Hstops).
    destruct (outcomes_of evs_p) as [|o os] eqn:Hos; [reflexivity |].
    rewrite Hnil in Hp. cbn in Hp. discriminate Hp.
  - intros o Ho. pose proof (rate_limited_failed o Ho) as Hf.
    split; [apply failed_delivered, Hf | apply gdn_failed_page_stops, Hf].
  - intros net pfuel fuel start_date end_date w Hpf [Hs _] He Hfuel.
    destruct (GuardianFacts.gdn_scrape_loop_run net pfuel end_date fuel start_date 0 [] w
                Hpf He Hs Hfuel)
      as (total & new & fs' & evs & Hrun & _ & Hspan & _ & _ & Hcool & _).
    exists total, new, fs', evs. split; [exact Hrun |]. split; [exact Hcool |].
    unfold months_to_visit. rewrite <- (length_map (fun c => month_index c.1.1 c.1.2) new), Hspan.
    destruct (date_leb start_date end_date); reflexivity.
Qed.

Lemma C5_witness :
  (rate_limited (@status_only NYTimes.Doc 429) = true /\
   delivered (@status_only NYTimes.Doc 429) = [] /\
   NYTimes.page_stops (status_only 429) = true) /\
  (valid_date (mkdate 2023 8 1) /\ valid_date (mkdate 2023 9 30) /\
   (months_to_visit (mkdate 2023 8 1) (mkdate 2023 9 30) <= 2)%nat /\
   exists total monthly_counts fs' evs,
     NYTimes.scrape_by_month (net_pages 429) 2 (mkdate 2023 8 1) (mkdate 2023 9 30)
       nyt_fresh =
       (Ok (total, monthly_counts), mkWorld fs' (trace nyt_fresh ++ evs)) /\
     cooled 60 evs = true /\
     length monthly_counts = months_to_visit (mkdate 2023 8 1) (mkdate 2023 9 30)) /\
  ((19 <= 19)%nat /\
   exists df evs_q evs_p,
     Guardian.get_all_articles_for_month (fun _ _ => status_only 429) 19 2023 8 gdn_fresh =
       (Ok df, log (evs_q ++ evs_p) gdn_fresh) /\
     cooled 10 (evs_q ++ evs_p) = true /\
     map rq_query (requests_of evs_q) = queries /\
     requests_of evs_p <> []) /\
  (rate_limited (@status_only Guardian.Doc 429) = true /\
   delivered (@status_only Guardian.Doc 429) = [] /\
   Guardian.page_stops (status_only 429) = true) /\
  (exists total monthly_counts fs' evs,
     Guardian.scrape_by_month (fun _ _ => status_only 429) 19 2
       (mkdate 2023 8 1) (mkdate 2023 9 30) gdn_fresh =
       (Ok (total, monthly_counts), mkWorld fs' (trace gdn_fresh ++ evs)) /\
     cooled 10 evs = true /\
     length monthly_counts = months_to_visit (mkdate 2023 8 1) (mkdate 2023 9 30)).
Proof.
  destruct C5_rate_limit_cooldown as (_ & Hn429 & Hnrun & Hgmonth & Hg429 & Hgrun).
  assert (Hs : valid_date (mkdate 2023 8 1)) by valid_date_tac.
  assert (He : valid_date (mkdate 2023 9 30)) by valid_date_tac.
  assert (Hfuel : (months_to_visit (mkdate 2023 8 1) (mkdate 2023 9 30) <= 2)%nat)
    by fuel_tac.
  split; [split; [reflexivity | exact (Hn429 (status_only 429) eq_refl)] |].
  split.
  { split; [exact Hs |]. split; [exact He |]. split; [exact Hfuel |].
    exact (Hnrun (net_pages 429) 2%nat _ _ nyt_fresh Hs He Hfuel). }
  split.
  { split; [lia |].
    exact (Hgmonth (fun _ _ => status_only 429) 19%nat 2023 8 gdn_fresh (le_n 19)). }
  split; [split; [reflexivity | exact (Hg429 (status_only 429) eq_refl)] |].
  exact (Hgrun (fun _ _ => status_only 429) 19%nat 2%nat _ _ gdn_fresh (le_n 19) Hs He Hfuel).
Defined.

(** ** C7 — request failures are contained *)

(** C7, as stated, fails for pages: after a failed request for a page
    of the pagination pass the remaining pages of the month are not
    requested.  Here page 1 is answered with HTTP 500 and page 2 is never
    asked for. *)
Lemma C7_failed_page_ends_pagination :
  ~ (forall (net : Net NYTimes.Doc) y m (w : World NYTimes.Doc NYTimes.Row) rq o,
       let w' := snd (NYTimes.get_all_articles_for_month net y m w) in
       In (EvRequest rq o) (trace w') ->
       failed o = true ->
       rate_limited o = false ->
       rq_query rq = QSingle ->
       rq_page rq < 14 ->
       exists o',
         In (EvRequest (mkRequest QSingle (rq_from rq) (rq_to rq) (rq_page rq + 1)) o')
            (trace w')).
Proof.
  intros H.
  specialize (H (net_pages 500) 2023 8 nyt_fresh
                (mkRequest QSingle (mkdate 2023 8 1) (mkdate 2023 8 31) 1)
                (status_only 500)).
  vm_compute in H.
  destruct H as [o' Hin];
    [solve [repeat ((left; reflexivity) || right)] | reflexivity | reflexivity
     | reflexivity | reflexivity |].
  repeat (destruct Hin as [Hin | Hin]; [discriminate Hin |]).
  exact Hin.
Qed.

(** C7 (amended): a request that raises or is answered with a status
    other than 200 yields no data and no exception: the single-query
    fetch returns [None] for it and the multi-query merge takes nothing
    from it.  No fetch function, and neither the monthly orchestrator nor
    the driver, ever ends in an exception, whatever the network does.
    The multi-query pass goes on with its remaining queries (all five are
    always requested) and the driver with the remaining months (every
    month of the range gets its entry); a failed page request ends the
    pagination of its month. *)
Theorem C7_request_failures_are_contained :
  (forall (net : Net NYTimes.Doc) y m page (w : World NYTimes.Doc NYTimes.Row),
      exists o evs,
        NYTimes.search_trump_covid_single net y m page w =
          (Ok (single_result o), log evs w) /\
        outcomes_of evs = [o]) /\
  (forall o : Outcome NYTimes.Doc,
      failed o = true ->
      single_result o = None /\ delivered o = [] /\ NYTimes.page_stops o = true) /\
  (forall (net : Net NYTimes.Doc) y m page (w : World NYTimes.Doc NYTimes.Row),
      exists r evs,
        NYTimes.search_trump_covid_comprehensive net y m page w = (Ok r, log evs w) /\
        map rq_query (requests_of evs) = queries) /\
  (forall (net : Net NYTimes.Doc) y m (w : World NYTimes.Doc NYTimes.Row),
      exists df evs,
        NYTimes.get_all_articles_for_month net y m w = (Ok df, log evs w)) /\
  (forall (net : Net NYTimes.Doc) fuel start_date end_date
          (w : World NYTimes.Doc NYTimes.Row),
      valid_date start_date -> valid_date end_date ->
      (months_to_visit start_date end_date <= fuel)%nat ->
      exists total monthly_counts w',
        NYTimes.scrape_by_month net fuel start_date end_date w =
          (Ok (total, monthly_counts), w') /\
        length monthly_counts = months_to_visit start_date end_date) /\
  (forall (net : Net Guardian.Doc) s e page (w : World Guardian.Doc Guardian.Row),
      exists o evs,
        Guardian.search_trump_covid_single net s e page w =
          (Ok (single_result o), log evs w) /\
        outcomes_of evs = [o]) /\
  (forall o : Outcome Guardian.Doc,
      failed o = true ->
      single_result o = None /\ delivered o = [] /\ Guardian.page_stops o = true) /\
  (forall (net : Net Guardian.Doc) s e page (w : World Guardian.Doc Guardian.Row),
      exists r evs,
        Guardian.search_trump_covid_comprehensive net s e page w = (Ok r, log evs w) /\
        map rq_query (requests_of evs) = queries) /\
  (forall (net : Net Guardian.Doc) pfuel y m (w : World Guardian.Doc Guardian.Row),
      (19 <= pfuel)%nat ->
      exists df evs,
        Guardian.get_all_articles_for_month net pfuel y m w = (Ok df, log evs w)) /\
  (forall (net : Net Guardian.Doc) pfuel fuel start_date end_date
          (w : World Guardian.Doc Guardian.Row),
      (19 <= pfuel)%nat ->
      valid_date start_date -> valid_date end_date ->
      (months_to_visit start_date end_date <= fuel)%nat ->
      exists total monthly_counts w',
        Guardian.scrape_by_month net pfuel fuel start_date end_date w =
          (Ok (total, monthly_counts), w') /\
        length monthly_counts = months_to_visit start_date end_date).
Proof.
  split; [| split; [| split; [| split; [| split; [| split; [| split; [| split; [| split]]]]]]]].
  - intros net y m page w. eexists _, _.
    split; [apply NYTimesFacts.nyt_search_trump_covid_single_run |].
    apply outcomes_of_fetch_events.
  - intros o Hf. split; [apply failed_single_result, Hf |].
    split; [apply failed_delivered, Hf | apply nyt_failed_page_stops, Hf].
  - intros net y m page w.
    destruct (NYTimesFacts.nyt_search_trump_covid_comprehensive_run net y m page w)
      as (evs & _ & Hrun & Hreq & _).
    eexists _, evs. split; [exact Hrun |]. rewrite Hreq. reflexivity.
  - intros net y m w.
    destruct (NYTimesFacts.nyt_get_all_articles_for_month_run net y m w)
      as (evs_q & evs_p & Hrun & _).
    eexists _, _. exact Hrun.
  - intros net fuel start_date end_date w [Hs _] He Hfuel.
    destruct (NYTimesFacts.nyt_scrape_loop_run net end_date fuel start_date 0 [] w
                He Hs Hfuel) as (total & new & fs' & evs & Hrun & _ & Hspan & _).
    eexists total, new, _. split; [exact Hrun |].
    unfold months_to_visit. rewrite <- (length_map (fun c => month_index c.1.1 c.1.2) new), Hspan.
    destruct (date_leb start_date end_date); reflexivity.
  - intros net s e page w. eexists _, _.
    split; [apply GuardianFacts.gdn_search_trump_covid_single_run |].
    apply outcomes_of_fetch_events.
  - intros o Hf. split; [apply failed_single_result, Hf |].
    split; [apply failed_delivered, Hf | apply gdn_failed_page_stops, Hf].
  - intros net s e page w.
    destruct (GuardianFacts.gdn_search_trump_covid_comprehensive_run net s e page w)
      as (evs & _ & Hrun & Hreq & _).
    eexists _, evs. split; [exact Hrun |]. rewrite Hreq. reflexivity.
  - intros net pfuel y m w Hpf.
    destruct (GuardianFacts.gdn_get_all_articles_for_month_run net pfuel y m w Hpf)
      as (evs_q & evs_p & Hrun & _).
    eexists _, _. exact Hrun.
  - intros net pfuel fuel start_date end_date w Hpf [Hs _] He Hfuel.
    destruct (GuardianFacts.gdn_scrape_loop_run net pfuel end_date fuel start_date 0 [] w
                Hpf He Hs Hfuel) as (total & new & fs' & evs & Hrun & _ & Hspan & _).
    eexists total, new, _. split; [exact Hrun |].
    unfold months_to_visit. rewrite <- (length_map (fun c => month_index c.1.1 c.1.2) new), Hspan.
    destruct (date_leb start_date end_date); reflexivity.
Qed.

Lemma C7_witness :
  (failed (@Raised NYTimes.Doc) = true /\
   single_result (@Raised NYTimes.Doc) = None /\
   delivered (@Raised NYTimes.Doc) = [] /\
   NYTimes.page_stops Raised = true) /\
  (failed (@status_only Guardian.Doc 500) = true /\
   single_result (@status_only Guardian.Doc 500) = None /\
   delivered (@status_only Guardian.Doc 500) = [] /\
   Guardian.page_stops (status_only 500) = true) /\
  (valid_date (mkdate 2023 11 15) /\ valid_date (mkdate 2024 1 10) /\
   (months_to_visit (mkdate 2023 11 15) (mkdate 2024 1 10) <= 3)%nat /\
   exists total monthly_counts w',
     NYTimes.scrape_by_month net_down 3 (mkdate 2023 11 15) (mkdate 2024 1 10) nyt_fresh =
       (Ok (total, monthly_counts), w') /\
     length monthly_counts = months_to_visit (mkdate 2023 11 15) (mkdate 2024 1 10)) /\
  ((19 <= 19)%nat /\
   exists df evs,
     Guardian.get_all_articles_for_month net_down 19 2023 8 gdn_fresh =
       (Ok df, log evs gdn_fresh)) /\
  (exists total monthly_counts w',
     Guardian.scrape_by_month net_down 19 3 (mkdate 2023 11 15) (mkdate 2024 1 10)
       gdn_fresh = (Ok (total, monthly_counts), w') /\
     length monthly_counts = months_to_visit (mkdate 2023 11 15) (mkdate 2024 1 10)).
Proof.
  destruct C7_request_failures_are_contained
    as (_ & Hnf & _ & _ & Hnrun & _ & Hgf & _ & Hgmonth & Hgrun).
  assert (Hs : valid_date (mkdate 2023 11 15)) by valid_date_tac.
  assert (He : valid_date (mkdate 2024 1 10)) by valid_date_tac.
  assert (Hfuel : (months_to_visit (mkdate 2023 11 15) (mkdate 2024 1 10) <= 3)%nat)
    by fuel_tac.
  split; [split; [reflexivity | exact (Hnf Raised eq_refl)] |].
  split; [split; [reflexivity | exact (Hgf (status_only 500) eq_refl)] |].
  split.
  { split; [exact Hs |]. split; [exact He |]. split; [exact Hfuel |].
    exact (Hnrun net_down 3%nat _ _ nyt_fresh Hs He Hfuel). }
  split.
  { split; [lia |]. exact (Hgmonth net_down 19%nat 2023 8 gdn_fresh (le_n 19)). }
  exact (Hgrun net_down 19%nat 3%nat _ _ gdn_fresh (le_n 19) Hs He Hfuel).
Defined.

(** * Further properties of the scripts *)

(** ** Deduplication composes *)

Section DedupCompose.
Context {A : Type} (key : A -> Cell).

Lemma drop_duplicates_seen_ext (df : list A) : forall seen1 seen2,
  (forall k, k ∈ seen1 <-> k ∈ seen2) ->
  drop_duplicates_seen key seen1 df = drop_duplicates_seen key seen2 df.
Proof.
  induction df as [|r rest IH]; intros seen1 seen2 Hext; [reflexivity |].
  cbn [drop_duplicates_seen].
  rewrite (bool_decide_ext (key r ∈ seen1) (key r ∈ seen2)) by apply Hext.
  destruct (bool_decide (key r ∈ seen2)).
  - apply IH, Hext.
  - f_equal. apply IH. intros k. rewrite !elem_of_cons, Hext. reflexivity.
Qed.

Lemma drop_duplicates_seen_app (df1 : list A) : forall df2 seen,
  drop_duplicates_seen key seen (df1 ++ df2) =
  drop_duplicates_seen key seen df1 ++
  drop_duplicates_seen key (map key df1 ++ seen) df2.
Proof.
  induction df1 as [|r rest IH]; intros df2 seen; [reflexivity |].
  cbn [app drop_duplicates_seen map].
  destruct (decide (key r ∈ seen)) as [Hin | Hout].
  - rewrite (bool_decide_eq_true_2 _ Hin), IH. f_equal.
    apply drop_duplicates_seen_ext. intros k.
    rewrite elem_of_cons, !elem_of_app. split; [tauto |].
    intros [Heq | [H | H]]; subst; auto.
  - rewrite (bool_decide_eq_false_2 _ Hout), IH. cbn [app]. do 2 f_equal.
    apply drop_duplicates_seen_ext. intros k.
    rewrite elem_of_cons, !elem_of_app, elem_of_cons. tauto.
Qed.

Lemma drop_duplicates_seen_twice (df : list A) : forall seen1 seen2,
  drop_duplicates_seen key seen1 (drop_duplicates_seen key seen2 df) =
  drop_duplicates_seen key (seen1 ++ seen2) df.
Proof.
  induction df as [|r rest IH]; intros seen1 seen2; [reflexivity |].
  cbn [drop_duplicates_seen].
  destruct (decide (key r ∈ seen2)) as [Hin2 | Hout2].
  - rewrite (bool_decide_eq_true_2 _ Hin2), IH.
    rewrite bool_decide_eq_true_2 by (apply elem_of_app; auto). reflexivity.
  - rewrite (bool_decide_eq_false_2 _ Hout2). cbn [drop_duplicates_seen].
    destruct (decide (key r ∈ seen1)) as [Hin1 | Hout1].
    + rewrite (bool_decide_eq_true_2 _ Hin1), IH.
      rewrite bool_decide_eq_true_2 by (apply elem_of_app; auto).
      apply drop_duplicates_seen_ext. intros k.
      rewrite !elem_of_app, elem_of_cons. split; [| tauto].
      intros [H | [Heq | H]]; subst; auto.
    + rewrite (bool_decide_eq_false_2 _ Hout1), IH.
      rewrite bool_decide_eq_false_2 by (rewrite elem_of_app; tauto).
      f_equal. apply drop_duplicates_seen_ext. intros k.
      rewrite !elem_of_cons, !elem_of_app, !elem_of_cons. tauto.
Qed.

Lemma drop_duplicates_keys (df : list A) k :
  k ∈ map key (drop_duplicates key df) <-> k ∈ map key df.
Proof.
  split.
  - intros H. apply list_elem_of_In, in_map_iff in H as (r & <- & Hr).
    apply list_elem_of_In, in_map. eapply drop_duplicates_In, Hr.
  - intros H. apply list_elem_of_In, in_map_iff in H as (r & Hk & Hr).
    pose proof (drop_duplicates_filter key df k) as Hf. unfold first_with in Hf.
    destruct (List.find (has_key key k) df) as [r'|] eqn:Hfind.
    + assert (Hin : In r' (List.filter (has_key key k) (drop_duplicates key df)))
        by (rewrite Hf; left; reflexivity).
      apply filter_In in Hin as [Hin Hk'].
      apply bool_decide_eq_true in Hk'. rewrite <- Hk'.
      apply list_elem_of_In, in_map, Hin.
    + exfalso. eapply find_none in Hfind; [| exact Hr].
      rewrite has_key_true in Hfind by exact Hk. discriminate.
Qed.

Lemma drop_duplicates_seen_concat (dfs : list (list A)) : forall seen,
  drop_duplicates_seen key seen (concat (map (drop_duplicates key) dfs)) =
  drop_duplicates_seen key seen (concat dfs).
Proof.
  induction dfs as [|df rest IH]; intros seen; [reflexivity |].
  cbn [map concat]. rewrite !drop_duplicates_seen_app, IH. f_equal.
  - unfold drop_duplicates. rewrite drop_duplicates_seen_twice, app_nil_r. reflexivity.
  - apply drop_duplicates_seen_ext. intros k.
    rewrite !elem_of_app, drop_duplicates_keys. reflexivity.
Qed.
End DedupCompose.

(** ** The merge loop keeps its two accumulators in step *)

Section MergeInvariant.
Context {D : Type} (field : D -> JField).

Lemma merge_docs_invariant (docs : list D) : forall all_docs seen_urls,
  (forall s, s ∈ seen_urls <-> CStr s ∈ map (raw_key field) all_docs) ->
  exists kept,
    (merge_docs field docs (all_docs, seen_urls)).1 = all_docs ++ kept /\
    sublist kept docs /\
    (forall s, s ∈ (merge_docs field docs (all_docs, seen_urls)).2 <->
               CStr s ∈ map (raw_key field) (all_docs ++ kept)).
Proof.
  induction docs as [|d rest IH]; intros all_docs seen_urls Hinv.
  - exists []. rewrite app_nil_r. split; [reflexivity |]. split; [constructor | exact Hinv].
  - rewrite merge_docs_cons. unfold merge_step.
    destruct (get (field d)) as [|url] eqn:Hd.
    + destruct (IH all_docs seen_urls Hinv) as (kept & Hall & Hsub & Hseen).
      exists kept. split; [exact Hall |]. split; [apply sublist_cons, Hsub | exact Hseen].
    + destruct (truthy (CStr url) && negb (bool_decide (url ∈ seen_urls))) eqn:Hg.
      * destruct (IH (all_docs ++ [d]) ({[url]} ∪ seen_urls)) as (kept & Hall & Hsub & Hseen).
        { intros s. rewrite elem_of_union, elem_of_singleton, Hinv.
          rewrite map_app, elem_of_app. cbn [map]. unfold raw_key at 3. rewrite Hd.
          rewrite list_elem_of_singleton. split.
          - intros [-> | H]; auto.
          - intros [H | [= ->]]; auto. }
        exists (d :: kept). rewrite Hall, <- app_assoc. cbn [app].
        split; [reflexivity |]. split; [apply sublist_skip, Hsub |].
        intros s. rewrite Hseen, <- app_assoc. reflexivity.
      * destruct (IH all_docs seen_urls Hinv) as (kept & Hall & Hsub & Hseen).
        exists kept. split; [exact Hall |]. split; [apply sublist_cons, Hsub | exact Hseen].
Qed.
End MergeInvariant.

Section DedupFilter.
Context {A : Type} (key : A -> Cell).

Lemma drop_duplicates_seen_as_filter (df : list A) : forall seen1 seen2,
  drop_duplicates_seen key (seen1 ++ seen2) df =
  List.filter (fun r => negb (bool_decide (key r ∈ seen1)))
    (drop_duplicates_seen key seen2 df).
Proof.
  induction df as [|r rest IH]; intros seen1 seen2; [reflexivity |].
  cbn [drop_duplicates_seen].
  destruct (decide (key r ∈ seen2)) as [Hin2 | Hout2].
  - rewrite (bool_decide_eq_true_2 _ Hin2).
    rewrite bool_decide_eq_true_2 by (apply elem_of_app; auto). apply IH.
  - rewrite (bool_decide_eq_false_2 _ Hout2). cbn [List.filter].
    destruct (decide (key r ∈ seen1)) as [Hin1 | Hout1].
    + rewrite (bool_decide_eq_true_2 _ Hin1). cbn [negb].
      rewrite bool_decide_eq_true_2 by (apply elem_of_app; auto).
      rewrite <- IH. apply drop_duplicates_seen_ext. intros k.
      rewrite !elem_of_app, elem_of_cons. split; [tauto |].
      intros [H | [Heq | H]]; subst; auto.
    + rewrite (bool_decide_eq_false_2 _ Hout1). cbn [negb].
      rewrite bool_decide_eq_false_2 by (rewrite elem_of_app; tauto).
      f_equal. rewrite <- IH. apply drop_duplicates_seen_ext. intros k.
      rewrite !elem_of_cons, !elem_of_app, !elem_of_cons. tauto.
Qed.

Lemma drop_duplicates_app (df1 df2 : list A) :
  drop_duplicates key (df1 ++ df2) =
  drop_duplicates key df1 ++
  List.filter (fun r => negb (bool_decide (key r ∈ map key df1)))
    (drop_duplicates key df2).
Proof.
  unfold drop_duplicates. rewrite drop_duplicates_seen_app. f_equal.
  apply drop_duplicates_seen_as_filter.
Qed.
End DedupFilter.

(** X1: one global [drop_duplicates] over monthly frames that were each
    deduplicated gives the same frame as one [drop_duplicates] over all
    their rows: nothing is lost or reordered by deduplicating per month
    first.  Within a concatenation, the rows kept from the second frame
    are those whose key the first frame does not hold. *)
Theorem X1_dedup_per_month_then_global :
  (forall dfs : list (list NYTimes.Row),
      drop_duplicates NYTimes.web_url
        (concat (map (drop_duplicates NYTimes.web_url) dfs)) =
      drop_duplicates NYTimes.web_url (concat dfs)) /\
  (forall dfs : list (list Guardian.Row),
      drop_duplicates Guardian.article_id
        (concat (map (drop_duplicates Guardian.article_id) dfs)) =
      drop_duplicates Guardian.article_id (concat dfs)) /\
  (forall df1 df2 : list NYTimes.Row,
      drop_duplicates NYTimes.web_url (df1 ++ df2) =
      drop_duplicates NYTimes.web_url df1 ++
      List.filter (fun r => negb (bool_decide (NYTimes.web_url r ∈ map NYTimes.web_url df1)))
        (drop_duplicates NYTimes.web_url df2)) /\
  (forall df1 df2 : list Guardian.Row,
      drop_duplicates Guardian.article_id (df1 ++ df2) =
      drop_duplicates Guardian.article_id df1 ++
      List.filter
        (fun r => negb (bool_decide (Guardian.article_id r ∈ map Guardian.article_id df1)))
        (drop_duplicates Guardian.article_id df2)).
Proof.
  split; [| split; [| split]].
  - intros dfs. apply drop_duplicates_seen_concat.
  - intros dfs. apply drop_duplicates_seen_concat.
  - intros df1 df2. apply drop_duplicates_app.
  - intros df1 df2. apply drop_duplicates_app.
Qed.

(** X2: the merge loop of the multi-query pass keeps the documents it
    accepts in the order it met them (the output is a subsequence of the
    input), and its set [seen_urls] (resp. [seen_ids]) holds exactly the
    keys of the documents in [all_docs]. *)
Theorem X2_merge_accumulators_agree :
  (forall docs : list NYTimes.Doc,
      sublist (merge_docs NYTimes.d_web_url docs ([], ∅)).1 docs /\
      forall s, s ∈ (merge_docs NYTimes.d_web_url docs ([], ∅)).2 <->
                CStr s ∈ map (raw_key NYTimes.d_web_url)
                             (merge_docs NYTimes.d_web_url docs ([], ∅)).1) /\
  (forall docs : list Guardian.Doc,
      sublist (merge_docs Guardian.d_id docs ([], ∅)).1 docs /\
      forall s, s ∈ (merge_docs Guardian.d_id docs ([], ∅)).2 <->
                CStr s ∈ map (raw_key Guardian.d_id)
                             (merge_docs Guardian.d_id docs ([], ∅)).1).
Proof.
  split; intros docs.
  - destruct (merge_docs_invariant NYTimes.d_web_url docs [] ∅) as (kept & Hall & Hsub & Hseen).
    { intros s. cbn. rewrite elem_of_empty, elem_of_nil. reflexivity. }
    cbn [app] in Hall, Hseen. rewrite Hall. split; [exact Hsub | exact Hseen].
  - destruct (merge_docs_invariant Guardian.d_id docs [] ∅) as (kept & Hall & Hsub & Hseen).
    { intros s. cbn. rewrite elem_of_empty, elem_of_nil. reflexivity. }
    cbn [app] in Hall, Hseen. rewrite Hall. split; [exact Hsub | exact Hseen].
Qed.

(** ** The Monthly Dataset and the requests it costs *)

Lemma drop_duplicates_covers {A} (key : A -> Cell) (df : list A) r :
  In r df -> exists r', In r' (drop_duplicates key df) /\ key r' = key r.
Proof.
  intros Hr.
  assert (Hk : key r ∈ map key (drop_duplicates key df)).
  { apply drop_duplicates_keys, list_elem_of_In, in_map, Hr. }
  apply list_elem_of_In, in_map_iff in Hk as (r' & Hk & Hin). eauto.
Qed.

Lemma length_pages_from page n : length (Guardian.pages_from page n) = n.
Proof. unfold Guardian.pages_from. rewrite length_map, length_seq. reflexivity. Qed.

(** X4: a month costs at least 6 and at most 19 requests on NYTimes
    (the 5 queries on page 0, then 1 to 14 pages) and at most 24 on the
    Guardian (the 5 queries on page 1, then 1 to 19 pages); no page
    beyond 14, resp. 20, is ever requested. *)
Theorem X4_requests_per_month :
  (forall (net : Net NYTimes.Doc) y m (w : World NYTimes.Doc NYTimes.Row),
      exists df evs,
        NYTimes.get_all_articles_for_month net y m w = (Ok df, log evs w) /\
        (6 <= length (requests_of evs) <= 19)%nat /\
        firstn 5 (map rq_page (requests_of evs)) = [0; 0; 0; 0; 0] /\
        Forall (fun rq => 0 <= rq_page rq <= 14) (requests_of evs)) /\
  (forall (net : Net Guardian.Doc) pfuel y m (w : World Guardian.Doc Guardian.Row),
      (19 <= pfuel)%nat ->
      exists df evs,
        Guardian.get_all_articles_for_month net pfuel y m w = (Ok df, log evs w) /\
        (6 <= length (requests_of evs) <= 24)%nat /\
        firstn 5 (map rq_page (requests_of evs)) = [1; 1; 1; 1; 1] /\
        Forall (fun rq => 1 <= rq_page rq <= 20) (requests_of evs)).
Proof.
  split.
  - intros net y m w.
    destruct (NYTimesFacts.nyt_get_all_articles_for_month_run net y m w)
      as (evs_q & evs_p & Hrun & Hq & Hp & Hstops & _).
    eexists _, _. split; [exact Hrun |].
    pose proof (stops_at_first_length _ _ _ Hstops) as Hlen.
    pose proof (stops_at_first_nonempty _ _ _ Hstops) as Hne.
    rewrite requests_of_app, Hq, Hp.
    set (k := length (outcomes_of evs_p)) in *.
    assert (Hk : (1 <= k)%nat)
      by (subst k; destruct (outcomes_of evs_p); [congruence | cbn; lia]).
    split; [| split].
    + rewrite length_app. unfold NYTimes.query_requests, NYTimes.page_requests.
      rewrite !length_map, length_take. cbn [queries length]. change (length NYTimes.pages) with 14%nat.
      lia.
    + reflexivity.
    + apply Forall_app. split.
      * apply Forall_map, Forall_forall. intros q _. cbn. lia.
      * apply Forall_map. cbn [rq_page]. apply Forall_take.
        unfold NYTimes.pages, py_range. apply Forall_map, Forall_forall.
        intros x Hx. apply elem_of_seq in Hx. cbn. lia.
  - intros net pfuel y m w Hpf.
    destruct (GuardianFacts.gdn_get_all_articles_for_month_run net pfuel y m w Hpf)
      as (evs_q & evs_p & Hrun & Hq & Hp & Hstops & _).
    eexists _, _. split; [exact Hrun |].
    pose proof (stops_at_first_length _ _ _ Hstops) as Hlen.
    pose proof (stops_at_first_nonempty _ _ _ Hstops) as Hne.
    rewrite requests_of_app, Hq, Hp.
    set (k := length (outcomes_of evs_p)) in *.
    assert (Hk : (1 <= k)%nat)
      by (subst k; destruct (outcomes_of evs_p); [congruence | cbn; lia]).
    split; [| split].
    + rewrite length_app. unfold Guardian.query_requests, Guardian.page_requests.
      rewrite !length_map, length_pages_from. cbn [queries length]. lia.
    + reflexivity.
    + apply Forall_app. split.
      * apply Forall_map, Forall_forall. intros q _. cbn. lia.
      * apply Forall_map. cbn [rq_page]. unfold Guardian.pages_from.
        apply Forall_map, Forall_forall.
        intros x Hx. apply elem_of_seq in Hx. cbn. lia.
Qed.

Lemma X4_witness :
  (19 <= 19)%nat /\
  exists df evs,
    Guardian.get_all_articles_for_month gdn_net_quiet 19 2023 8 gdn_fresh =
      (Ok df, log evs gdn_fresh) /\
    (6 <= length (requests_of evs) <= 24)%nat /\
    firstn 5 (map rq_page (requests_of evs)) = [1; 1; 1; 1; 1] /\
    Forall (fun rq => 1 <= rq_page rq <= 20) (requests_of evs).
Proof.
  split; [lia |].
  exact (proj2 X4_requests_per_month gdn_net_quiet 19%nat 2023 8 gdn_fresh (le_n 19)).
Defined.

(** ** Pauses between the requests of a month *)

Section Pacing.
Context {D : Type}.
Implicit Types evs : list (Event D).

Lemma back_to_back_app evs1 evs2 :
  back_to_back evs1 = false -> back_to_back evs2 = false ->
  sleep_led evs2 = true ->
  back_to_back (evs1 ++ evs2) = false.
Proof.
  intros H1 H2 Hled. induction evs1 as [|ev rest IH]; [exact H2 |].
  cbn [app back_to_back] in *. apply orb_false_iff in H1 as [Hpair Hrest].
  rewrite (IH Hrest), orb_false_r.
  destruct ev as [rq o | secs]; [| reflexivity].
  destruct rest as [|ev' rest']; cbn [app] in *.
  - destruct evs2 as [|[rq' o' | secs'] evs2']; try reflexivity. discriminate Hled.
  - exact Hpair.
Qed.

Lemma sleep_led_app evs1 evs2 :
  sleep_led evs1 = true -> sleep_led evs2 = true -> sleep_led (evs1 ++ evs2) = true.
Proof. destruct evs1 as [|[rq o | secs] rest]; cbn; auto. Qed.

Lemma back_to_back_fetch_events cd rq (o : Outcome D) :
  back_to_back (fetch_events cd rq o) = false.
Proof. unfold fetch_events. destruct (rate_limited o); reflexivity. Qed.

Lemma back_to_back_sleep secs evs :
  back_to_back (EvSleep secs :: evs) = back_to_back evs.
Proof. reflexivity. Qed.

Lemma log_inj (R : Type) evs1 evs2 (w : World D R) :
  log evs1 w = log evs2 w -> evs1 = evs2.
Proof.
  unfold log. intros H. injection H as H. eapply app_inv_head, H.
Qed.
End Pacing.

Section PacedRuns.
Context {D R : Type}.

Lemma paced_ret {A} (a : A) led : paced_run (D := D) (R := R) led (ret a).
Proof.
  intros w. exists a, []. rewrite log_nil. split; [reflexivity |]. split; reflexivity.
Qed.

Lemma paced_weaken {A} (m : M D R A) : paced_run true m -> paced_run false m.
Proof.
  intros H w. destruct (H w) as (a & evs & Hrun & Hbtb & _).
  exists a, evs. split; [exact Hrun |]. split; [exact Hbtb | discriminate].
Qed.

Lemma paced_bind {A B} led (m : M D R A) (k : A -> M D R B) :
  paced_run led m -> (forall a, paced_run true (k a)) -> paced_run led (bind m k).
Proof.
  intros Hm Hk w. destruct (Hm w) as (a & evs1 & Hrun1 & Hbtb1 & Hled1).
  destruct (Hk a (log evs1 w)) as (b & evs2 & Hrun2 & Hbtb2 & Hled2).
  exists b, (evs1 ++ evs2). erewrite bind_ok by exact Hrun1.
  rewrite Hrun2, log_log. split; [reflexivity |]. split.
  - apply back_to_back_app; auto.
  - intros Hl. apply sleep_led_app; auto.
Qed.

Lemma paced_sleep_then {B} secs (k : unit -> M D R B) :
  (forall a, paced_run false (k a)) -> paced_run true (bind (sleep secs) k).
Proof.
  intros Hk w. destruct (Hk tt (log [EvSleep secs] w)) as (b & evs2 & Hrun2 & Hbtb2 & _).
  exists b, (EvSleep secs :: evs2). unfold sleep at 1, bind at 1.
  rewrite Hrun2, log_log. split; [reflexivity |]. split; [exact Hbtb2 | reflexivity].
Qed.
End PacedRuns.

Lemma nyt_query_step_paced (net : Net NYTimes.Doc) s e page i q st :
  paced_run (0 <? i) (NYTimes.query_step net s e page i q st).
Proof.
  intros w. eexists _, _. split; [apply NYTimesFacts.nyt_query_step_run |].
  destruct (0 <? i); cbn [app].
  - rewrite back_to_back_sleep. split; [apply back_to_back_fetch_events | reflexivity].
  - split; [apply back_to_back_fetch_events | discriminate].
Qed.

Lemma nyt_query_loop_paced (net : Net NYTimes.Doc) s e page qs : forall st,
  Forall (fun iq => 0 < iq.1) qs ->
  paced_run true (NYTimes.query_loop net s e page qs st).
Proof.
  induction qs as [|[i q] rest IH]; intros st Hpos; [apply paced_ret |].
  apply Forall_cons in Hpos as [Hi Hpos]. cbn [fst] in Hi.
  cbn [NYTimes.query_loop]. apply paced_bind.
  - pose proof (nyt_query_step_paced net s e page i q st) as H.
    replace (0 <? i) with true in H by (symmetry; apply Z.ltb_lt, Hi). exact H.
  - intros st'. apply IH, Hpos.
Qed.

Lemma nyt_comprehensive_paced (net : Net NYTimes.Doc) y m page :
  paced_run false (NYTimes.search_trump_covid_comprehensive net y m page).
Proof.
  unfold NYTimes.search_trump_covid_comprehensive, NYTimes.comprehensive_docs.
  destruct (month_window y m) as [s e].
  change (NYTimes.query_loop net s e page (enumerate queries) ([], ∅))
    with (bind (NYTimes.query_step net s e page 0 Q1 ([], ∅))
            (fun st' => NYTimes.query_loop net s e page
                          [(1, Q2); (2, Q3); (3, Q4); (4, Q5)] st')).
  apply paced_bind.
  - apply paced_bind.
    + apply paced_bind; [apply (nyt_query_step_paced net s e page 0) |].
      intros st'. apply nyt_query_loop_paced. repeat constructor.
    + intros st'. apply paced_ret.
  - intros [|d ds]; apply paced_ret.
Qed.

Lemma nyt_single_paced (net : Net NYTimes.Doc) y m page :
  paced_run false (NYTimes.search_trump_covid_single net y m page).
Proof.
  intros w. eexists _, _. split; [apply NYTimesFacts.nyt_search_trump_covid_single_run |].
  split; [apply back_to_back_fetch_events | discriminate].
Qed.

Lemma nyt_page_loop_paced (net : Net NYTimes.Doc) y m ps : forall all_articles,
  paced_run true (NYTimes.page_loop net y m ps all_articles).
Proof.
  induction ps as [|page rest IH]; intros all_articles; [apply paced_ret |].
  cbn [NYTimes.page_loop]. apply paced_sleep_then. intros _.
  apply paced_bind; [apply nyt_single_paced |].
  intros response.
  destruct (negb (body_truthy response)); [apply paced_ret |].
  destruct (NYTimes.len (NYTimes.parse_articles response) =? 0); [apply paced_ret |].
  destruct (NYTimes.len (NYTimes.parse_articles response) <? 10); [apply paced_ret |].
  apply IH.
Qed.

Lemma nyt_month_paced (net : Net NYTimes.Doc) y m :
  paced_run false (NYTimes.get_all_articles_for_month net y m).
Proof.
  unfold NYTimes.get_all_articles_for_month.
  apply paced_bind; [apply nyt_comprehensive_paced |].
  intros response. apply paced_bind; [apply nyt_page_loop_paced |].
  intros [|df dfs]; apply paced_ret.
Qed.

Lemma gdn_query_step_paced (net : Net Guardian.Doc) s e page i q st :
  paced_run (0 <? i) (Guardian.query_step net s e page i q st).
Proof.
  intros w. eexists _, _. split; [apply GuardianFacts.gdn_query_step_run |].
  destruct (0 <? i); cbn [app].
  - rewrite back_to_back_sleep. split; [apply back_to_back_fetch_events | reflexivity].
  - split; [apply back_to_back_fetch_events | discriminate].
Qed.

Lemma gdn_query_loop_paced (net : Net Guardian.Doc) s e page qs : forall st,
  Forall (fun iq => 0 < iq.1) qs ->
  paced_run true (Guardian.query_loop net s e page qs st).
Proof.
  induction qs as [|[i q] rest IH]; intros st Hpos; [apply paced_ret |].
  apply Forall_cons in Hpos as [Hi Hpos]. cbn [fst] in Hi.
  cbn [Guardian.query_loop]. apply paced_bind.
  - pose proof (gdn_query_step_paced net s e page i q st) as H.
    replace (0 <? i) with true in H by (symmetry; apply Z.ltb_lt, Hi). exact H.
  - intros st'. apply IH, Hpos.
Qed.

Lemma gdn_comprehensive_paced (net : Net Guardian.Doc) s e page :
  paced_run false (Guardian.search_trump_covid_comprehensive net s e page).
Proof.
  unfold Guardian.search_trump_covid_comprehensive, Guardian.comprehensive_docs.
  change (Guardian.query_loop net s e page (enumerate queries) ([], ∅))
    with (bind (Guardian.query_step net s e page 0 Q1 ([], ∅))
            (fun st' => Guardian.query_loop net s e page
                          [(1, Q2); (2, Q3); (3, Q4); (4, Q5)] st')).
  apply paced_bind.
  - apply paced_bind.
    + apply paced_bind; [apply (gdn_query_step_paced net s e page 0) |].
      intros st'. apply gdn_query_loop_paced. repeat constructor.
    + intros st'. apply paced_ret.
  - intros [|d ds]; apply paced_ret.
Qed.

Lemma gdn_single_paced (net : Net Guardian.Doc) s e page :
  paced_run false (Guardian.search_trump_covid_single net s e page).
Proof.
  intros w. eexists _, _. split; [apply GuardianFacts.gdn_search_trump_covid_single_run |].
  split; [apply back_to_back_fetch_events | discriminate].
Qed.

Lemma gdn_page_loop_paced (net : Net Guardian.Doc) s e : forall fuel page all_articles,
  (Z.to_nat (Guardian.max_pages + 1 - page) <= fuel)%nat ->
  paced_run true (Guardian.page_loop net fuel s e page all_articles).
Proof.
  intros fuel. induction fuel as [|fuel IH]; intros page all_articles Hfuel;
    cbn [Guardian.page_loop]; destruct (page <=? Guardian.max_pages) eqn:Hpage;
    try apply paced_ret.
  - apply Z.leb_le in Hpage. lia.
  - apply Z.leb_le in Hpage. apply paced_sleep_then. intros _.
    apply paced_bind; [apply gdn_single_paced |].
    intros response.
    destruct (negb (body_truthy response)); [apply paced_ret |].
    destruct (Guardian.len (Guardian.parse_guardian_articles response) =? 0);
      [apply paced_ret |].
    destruct (Guardian.total_pages_of response <=? Guardian.current_page_of response);
      [apply paced_ret |].
    apply IH. lia.
Qed.

Lemma gdn_month_paced (net : Net Guardian.Doc) pfuel y m :
  (19 <= pfuel)%nat ->
  paced_run false (Guardian.get_all_articles_for_month net pfuel y m).
Proof.
  intros Hpf. unfold Guardian.get_all_articles_for_month.
  destruct (month_window y m) as [s e].
  apply paced_bind; [apply gdn_comprehensive_paced |].
  intros response. apply paced_bind; [apply gdn_page_loop_paced; exact Hpf |].
  intros [|df dfs]; apply paced_ret.
Qed.

(** X5: within the fetch of one month no two requests are sent back to
    back: every request but the first follows a pause (2 s between the
    queries and 7 s before each page on NYTimes, 1 s on the Guardian).
    Between two months the driver inserts no pause: the first query of a
    month can follow the last page request of the month before at
    once. *)
Theorem X5_requests_are_paced_within_a_month :
  (forall (net : Net NYTimes.Doc) y m (w : World NYTimes.Doc NYTimes.Row),
      exists df evs,
        NYTimes.get_all_articles_for_month net y m w = (Ok df, log evs w) /\
        back_to_back evs = false) /\
  (forall (net : Net Guardian.Doc) pfuel y m (w : World Guardian.Doc Guardian.Row),
      (19 <= pfuel)%nat ->
      exists df evs,
        Guardian.get_all_articles_for_month net pfuel y m w = (Ok df, log evs w) /\
        back_to_back evs = false) /\
  (exists (net : Net NYTimes.Doc) fuel start_date end_date,
      back_to_back
        (trace (NYTimes.scrape_by_month net fuel start_date end_date nyt_fresh).2) = true).
Proof.
  split; [| split].
  - intros net y m w. destruct (nyt_month_paced net y m w) as (df & evs & Hrun & Hbtb & _).
    eauto.
  - intros net pfuel y m w Hpf.
    destruct (gdn_month_paced net pfuel y m Hpf w) as (df & evs & Hrun & Hbtb & _).
    eauto.
  - exists (net_pages 500), 2%nat, (mkdate 2023 8 1), (mkdate 2023 9 30).
    vm_compute. reflexivity.
Qed.

Lemma X5_witness :
  (19 <= 19)%nat /\
  exists df evs,
    Guardian.get_all_articles_for_month gdn_net_quiet 19 2023 8 gdn_fresh =
      (Ok df, log evs gdn_fresh) /\
    back_to_back evs = false.
Proof.
  split; [lia |].
  exact (proj1 (proj2 X5_requests_are_paced_within_a_month)
           gdn_net_quiet 19%nat 2023 8 gdn_fresh (le_n 19)).
Defined.

(** ** The driver's loop, month by month *)

Lemma months_to_visit_step current end_date :
  valid_date end_date -> 1 <= month current <= 12 ->
  date_leb current end_date = true ->
  months_to_visit current end_date = S (months_to_visit (next_month current) end_date).
Proof.
  intros Hend Hcur Hle. unfold months_to_visit. rewrite Hle.
  destruct (date_leb_index _ _ Hle) as [Hidx | Hbad];
    [| exfalso; apply Hbad; split; [exact Hcur | apply Hend]].
  rewrite (month_span_cons _ _ Hidx Hcur). cbn [length]. f_equal.
  pose proof (date_leb_next_month current end_date Hcur Hend) as Hiff.
  destruct (date_leb (next_month current) end_date).
  - pose proof (proj1 Hiff eq_refl) as Hn. apply Z.leb_le in Hn. rewrite Hn. reflexivity.
  - destruct (_ <=? _) eqn:Hn; [| reflexivity].
    apply Z.leb_le, Hiff in Hn. discriminate.
Qed.

Lemma months_from_index current n :
  1 <= month current <= 12 ->
  map (fun ym => month_index ym.1 ym.2) (months_from current n) =
  map (fun k => month_index (year current) (month current) + Z.of_nat k) (seq 0 n) /\
  Forall (fun ym => 1 <= ym.2 <= 12) (months_from current n).
Proof.
  revert current. induction n as [|n IH]; intros current Hcur; [split; constructor |].
  destruct (next_month_index current Hcur) as [Hnext Hnextm].
  destruct (IH (next_month current) Hnextm) as [Hmap Hall].
  cbn [months_from map seq]. split.
  - f_equal; [cbn; lia |]. rewrite Hmap, Hnext, <- seq_shift, map_map.
    apply map_ext. intros k. lia.
  - constructor; [exact Hcur | exact Hall].
Qed.

Lemma nyt_scrape_loop_as_visit (net : Net NYTimes.Doc) end_date :
  forall fuel current total monthly_counts (w : World NYTimes.Doc NYTimes.Row),
  valid_date end_date -> 1 <= month current <= 12 ->
  (months_to_visit current end_date <= fuel)%nat ->
  NYTimes.scrape_loop net fuel current end_date total monthly_counts w =
  visit_months (NYTimes.month_body net) (months_from current (months_to_visit current end_date))
    total monthly_counts w.
Proof.
  intros fuel. induction fuel as [|fuel IH];
    intros current total monthly_counts w Hend Hcur Hfuel;
    cbn [NYTimes.scrape_loop]; destruct (date_leb current end_date) eqn:Hle.
  - rewrite (months_to_visit_step _ _ Hend Hcur Hle) in Hfuel. lia.
  - unfold months_to_visit. rewrite Hle. reflexivity.
  - rewrite (months_to_visit_step _ _ Hend Hcur Hle) in Hfuel |- *.
    cbn [months_from visit_months]. unfold bind.
    destruct (NYTimes.month_body net (year current) (month current) w)
      as [[[df count] | e |] w']; try reflexivity.
    apply IH; [exact Hend | apply next_month_index, Hcur | lia].
  - unfold months_to_visit. rewrite Hle. reflexivity.
Qed.

Lemma gdn_scrape_loop_as_visit (net : Net Guardian.Doc) pfuel end_date :
  forall fuel current total monthly_counts (w : World Guardian.Doc Guardian.Row),
  valid_date end_date -> 1 <= month current <= 12 ->
  (months_to_visit current end_date <= fuel)%nat ->
  Guardian.scrape_loop net pfuel fuel current end_date total monthly_counts w =
  visit_months (Guardian.month_body net pfuel) (months_from current (months_to_visit current end_date))
    total monthly_counts w.
Proof.
  intros fuel. induction fuel as [|fuel IH];
    intros current total monthly_counts w Hend Hcur Hfuel;
    cbn [Guardian.scrape_loop]; destruct (date_leb current end_date) eqn:Hle.
  - rewrite (months_to_visit_step _ _ Hend Hcur Hle) in Hfuel. lia.
  - unfold months_to_visit. rewrite Hle. reflexivity.
  - rewrite (months_to_visit_step _ _ Hend Hcur Hle) in Hfuel |- *.
    cbn [months_from visit_months]. unfold bind.
    destruct (Guardian.month_body net pfuel (year current) (month current) w)
      as [[[df count] | e |] w']; try reflexivity.
    apply IH; [exact Hend | apply next_month_index, Hcur | lia].
  - unfold months_to_visit. rewrite Hle. reflexivity.
Qed.

(** The two ways through the loop body. *)
Lemma nyt_month_body_cases (net : Net NYTimes.Doc) y m (w : World NYTimes.Doc NYTimes.Row) :
  exists df fs1 evs,
    NYTimes.month_body net y m w = (Ok (df, NYTimes.len df), mkWorld fs1 (trace w ++ evs)) /\
    ((fs w !! NYTimes.csv_path y m = Some df /\ fs1 = fs w /\ evs = []) \/
     (fs w !! NYTimes.csv_path y m = None /\ requests_of evs <> [] /\
      fs1 = if 0 <? NYTimes.len df then <[NYTimes.csv_path y m := df]> (fs w) else fs w)).
Proof.
  destruct (fs w !! NYTimes.csv_path y m) as [df|] eqn:Hf.
  - exists df, (fs w), []. rewrite (NYTimesFacts.nyt_month_body_resume net y m w df Hf).
    rewrite app_nil_r. destruct w. split; [reflexivity |]. left. auto.
  - destruct (NYTimesFacts.nyt_month_body_fetch net y m w Hf)
      as (evs_q & evs_p & Hrun & Hq & _).
    cbv zeta in Hrun. eexists _, _, _. split; [exact Hrun |]. right.
    split; [reflexivity |]. split; [| reflexivity].
    rewrite requests_of_app, Hq. discriminate.
Qed.

Lemma gdn_month_body_cases (net : Net Guardian.Doc) pfuel y m
    (w : World Guardian.Doc Guardian.Row) :
  (19 <= pfuel)%nat ->
  exists df fs1 evs,
    Guardian.month_body net pfuel y m w =
      (Ok (df, Guardian.len df), mkWorld fs1 (trace w ++ evs)) /\
    ((fs w !! Guardian.csv_path y m = Some df /\ fs1 = fs w /\ evs = []) \/
     (fs w !! Guardian.csv_path y m = None /\ requests_of evs <> [] /\
      fs1 = if 0 <? Guardian.len df then <[Guardian.csv_path y m := df]> (fs w) else fs w)).
Proof.
  intros Hpf. destruct (fs w !! Guardian.csv_path y m) as [df|] eqn:Hf.
  - exists df, (fs w), []. rewrite (GuardianFacts.gdn_month_body_resume net pfuel y m w df Hf).
    rewrite app_nil_r. destruct w. split; [reflexivity |]. left. auto.
  - destruct (GuardianFacts.gdn_month_body_fetch net pfuel y m w Hpf Hf)
      as (evs_q & evs_p & Hrun & Hq & _).
    cbv zeta in Hrun. eexists _, _, _. split; [exact Hrun |]. right.
    split; [reflexivity |]. split; [| reflexivity].
    rewrite requests_of_app, Hq. discriminate.
Qed.

Section VisitMonths.
Context {D R : Type} (body : Z -> Z -> M D R (list R * Z)) (path : Z -> Z -> string).

Hypothesis body_cases : forall y m (w : World D R),
  exists df fs1 evs,
    body y m w = (Ok (df, Z.of_nat (length df)), mkWorld fs1 (trace w ++ evs)) /\
    ((fs w !! path y m = Some df /\ fs1 = fs w /\ evs = []) \/
     (fs w !! path y m = None /\ requests_of evs <> [] /\
      fs1 = if 0 <? Z.of_nat (length df) then <[path y m := df]> (fs w) else fs w)).

Lemma visit_months_run (months : list (Z * Z)) :
  forall total monthly_counts (w : World D R),
  exists new fs' evs,
    visit_months body months total monthly_counts w =
      (Ok (total + sum_counts new, monthly_counts ++ new),
       mkWorld fs' (trace w ++ evs)) /\
    map (fun c => (c.1.1, c.1.2)) new = months /\
    fs w ⊆ fs' /\
    Forall (fun c => 0 <= c.2 /\
                     (0 < c.2 -> exists df, fs' !! path c.1.1 c.1.2 = Some df /\
                                            Z.of_nat (length df) = c.2)) new /\
    (forall p df, fs' !! p = Some df ->
                  fs w !! p = Some df \/
                  (df <> [] /\ exists ym, In ym months /\ p = path ym.1 ym.2)) /\
    (Forall (fun ym => is_Some (fs w !! path ym.1 ym.2)) months ->
     fs' = fs w /\ evs = []) /\
    (requests_of evs = [] ->
     Forall (fun ym => is_Some (fs w !! path ym.1 ym.2)) months).
Proof.
  induction months as [|[y m] rest IH]; intros total monthly_counts w.
  - exists [], (fs w), []. cbn. rewrite !app_nil_r, Z.add_0_r. destruct w.
    split; [reflexivity |]. split; [reflexivity |]. split; [reflexivity |].
    split; [constructor |]. split; [auto |]. split; [auto | constructor].
  - destruct (body_cases y m w) as (df & fs1 & evs1 & Hbody & Hcases).
    cbn [visit_months]. erewrite bind_ok by exact Hbody.
    set (count := Z.of_nat (length df)) in *.
    destruct (IH (total + count) (monthly_counts ++ [(y, m, count)])
                (mkWorld fs1 (trace w ++ evs1)))
      as (new & fs' & evs2 & Hrun & Hmonths & Hsub & Hfiles & Hnew & Hoff & Hconv).
    cbn [fs trace] in *.
    assert (Hsub1 : fs w ⊆ fs1).
    { destruct Hcases as [(_ & -> & _) | (Hnone & _ & ->)]; [reflexivity |].
      destruct (0 <? count); [apply insert_subseteq, Hnone | reflexivity]. }
    assert (Hfile1 : 0 < count -> fs1 !! path y m = Some df).
    { intros Hpos. destruct Hcases as [(Hf & -> & _) | (_ & _ & ->)]; [exact Hf |].
      replace (0 <? count) with true by (symmetry; apply Z.ltb_lt, Hpos).
      apply lookup_insert_eq. }
    exists ((y, m, count) :: new), fs', (evs1 ++ evs2).
    rewrite Hrun, <- !app_assoc. cbn [app sum_counts fold_right snd].
    fold (sum_counts new).
    split; [do 3 f_equal; lia |].
    split; [cbn [map fst snd]; f_equal; exact Hmonths |].
    split; [etrans; eassumption |].
    split; [| split; [| split]].
    + constructor; [| exact Hfiles]. cbn [fst snd]. split; [subst count; lia |].
      intros Hpos. exists df. split; [| reflexivity].
      eapply lookup_weaken; [apply Hfile1, Hpos | exact Hsub].
    + intros p df' Hp. destruct (Hnew p df' Hp) as [Hp1 | (Hne & ym & Hin & ->)].
      * destruct Hcases as [(_ & -> & _) | (Hnone & _ & ->)]; [left; exact Hp1 |].
        destruct (0 <? count) eqn:Hpos; [| left; exact Hp1].
        destruct (decide (p = path y m)) as [-> | Hne].
        -- rewrite lookup_insert_eq in Hp1. injection Hp1 as <-. right.
           split; [| exists (y, m); split; [left; reflexivity | reflexivity]].
           apply Z.ltb_lt in Hpos. subst count. destruct df; [cbn in Hpos; lia | discriminate].
        -- rewrite lookup_insert_ne in Hp1 by congruence. left. exact Hp1.
      * right. split; [exact Hne |]. exists ym. split; [right; exact Hin | reflexivity].
    + intros Hall. apply Forall_cons in Hall as [[df' Hhere] Hall]. cbn [fst snd] in Hhere.
      destruct Hcases as [(_ & -> & ->) | (Hnone & _)]; [| congruence].
      destruct (Hoff Hall) as [-> ->]. auto.
    + intros Hreq. rewrite requests_of_app in Hreq. apply app_eq_nil in Hreq as [Hreq1 Hreq2].
      destruct Hcases as [(Hf & -> & _) | (_ & Hne & _)]; [| contradiction].
      constructor; [cbn [fst snd]; eauto |]. apply Hconv, Hreq2.
Qed.
End VisitMonths.

Lemma nyt_scrape_by_month_run (net : Net NYTimes.Doc) fuel start_date end_date
    (w : World NYTimes.Doc NYTimes.Row) :
  valid_date start_date -> valid_date end_date ->
  (months_to_visit start_date end_date <= fuel)%nat ->
  let months := months_from start_date (months_to_visit start_date end_date) in
  exists monthly_counts fs' evs,
    NYTimes.scrape_by_month net fuel start_date end_date w =
      (Ok (sum_counts monthly_counts, monthly_counts), mkWorld fs' (trace w ++ evs)) /\
    map (fun c => (c.1.1, c.1.2)) monthly_counts = months /\
    fs w ⊆ fs' /\
    Forall (fun c => 0 <= c.2 /\
                     (0 < c.2 -> exists df, fs' !! NYTimes.csv_path c.1.1 c.1.2 = Some df /\
                                            NYTimes.len df = c.2)) monthly_counts /\
    (forall p df, fs' !! p = Some df ->
                  fs w !! p = Some df \/
                  (df <> [] /\ exists ym, In ym months /\ p = NYTimes.csv_path ym.1 ym.2)) /\
    (Forall (fun ym => is_Some (fs w !! NYTimes.csv_path ym.1 ym.2)) months ->
     fs' = fs w /\ evs = []) /\
    (requests_of evs = [] ->
     Forall (fun ym => is_Some (fs w !! NYTimes.csv_path ym.1 ym.2)) months).
Proof.
  intros [Hs _] He Hfuel months. unfold NYTimes.scrape_by_month.
  rewrite (nyt_scrape_loop_as_visit net end_date fuel start_date 0 [] w He Hs Hfuel).
  fold months.
  destruct (visit_months_run (NYTimes.month_body net) NYTimes.csv_path
              (nyt_month_body_cases net) months 0 [] w)
    as (new & fs' & evs & Hrun & Hrest).
  exists new, fs', evs. split; [exact Hrun | exact Hrest].
Qed.

Lemma gdn_scrape_by_month_run (net : Net Guardian.Doc) pfuel fuel start_date end_date
    (w : World Guardian.Doc Guardian.Row) :
  (19 <= pfuel)%nat ->
  valid_date start_date -> valid_date end_date ->
  (months_to_visit start_date end_date <= fuel)%nat ->
  let months := months_from start_date (months_to_visit start_date end_date) in
  exists monthly_counts fs' evs,
    Guardian.scrape_by_month net pfuel fuel start_date end_date w =
      (Ok (sum_counts monthly_counts, monthly_counts), mkWorld fs' (trace w ++ evs)) /\
    map (fun c => (c.1.1, c.1.2)) monthly_counts = months /\
    fs w ⊆ fs' /\
    Forall (fun c => 0 <= c.2 /\
                     (0 < c.2 -> exists df, fs' !! Guardian.csv_path c.1.1 c.1.2 = Some df /\
                                            Guardian.len df = c.2)) monthly_counts /\
    (forall p df, fs' !! p = Some df ->
                  fs w !! p = Some df \/
                  (df <> [] /\ exists ym, In ym months /\ p = Guardian.csv_path ym.1 ym.2)) /\
    (Forall (fun ym => is_Some (fs w !! Guardian.csv_path ym.1 ym.2)) months ->
     fs' = fs w /\ evs = []) /\
    (requests_of evs = [] ->
     Forall (fun ym => is_Some (fs w !! Guardian.csv_path ym.1 ym.2)) months).
Proof.
  intros Hpf [Hs _] He Hfuel months. unfold Guardian.scrape_by_month.
  rewrite (gdn_scrape_loop_as_visit net pfuel end_date fuel start_date 0 [] w He Hs Hfuel).
  fold months.
  destruct (visit_months_run (Guardian.month_body net pfuel) Guardian.csv_path
              (fun y m w => gdn_month_body_cases net pfuel y m w Hpf) months 0 [] w)
    as (new & fs' & evs & Hrun & Hrest).
  exists new, fs', evs. split; [exact Hrun | exact Hrest].
Qed.

(** X6: the total that [scrape_by_month] reports is the sum of the
    counts of its monthly breakdown, no count is negative, and a month
    with a positive count has its file on disk at the end of the run,
    holding exactly that number of rows. *)
Theorem X6_driver_accounting :
  (forall (net : Net NYTimes.Doc) fuel start_date end_date
          (w : World NYTimes.Doc NYTimes.Row),
      valid_date start_date -> valid_date end_date ->
      (months_to_visit start_date end_date <= fuel)%nat ->
      exists total monthly_counts w',
        NYTimes.scrape_by_month net fuel start_date end_date w =
          (Ok (total, monthly_counts), w') /\
        total = sum_counts monthly_counts /\
        Forall (fun c => 0 <= c.2 /\
                  (0 < c.2 -> exists df, fs w' !! NYTimes.csv_path c.1.1 c.1.2 = Some df /\
                                         NYTimes.len df = c.2)) monthly_counts) /\
  (forall (net : Net Guardian.Doc) pfuel fuel start_date end_date
          (w : World Guardian.Doc Guardian.Row),
      (19 <= pfuel)%nat ->
      valid_date start_date -> valid_date end_date ->
      (months_to_visit start_date end_date <= fuel)%nat ->
      exists total monthly_counts w',
        Guardian.scrape_by_month net pfuel fuel start_date end_date w =
          (Ok (total, monthly_counts), w') /\
        total = sum_counts monthly_counts /\
        Forall (fun c => 0 <= c.2 /\
                  (0 < c.2 -> exists df, fs w' !! Guardian.csv_path c.1.1 c.1.2 = Some df /\
                                         Guardian.len df = c.2)) monthly_counts).
Proof.
  split.
  - intros net fuel start_date end_date w Hs He Hfuel.
    destruct (nyt_scrape_by_month_run net fuel start_date end_date w Hs He Hfuel)
      as (counts & fs' & evs & Hrun & _ & _ & Hfiles & _).
    eexists _, counts, _. split; [exact Hrun |]. split; [reflexivity | exact Hfiles].
  - intros net pfuel fuel start_date end_date w Hpf Hs He Hfuel.
    destruct (gdn_scrape_by_month_run net pfuel fuel start_date end_date w Hpf Hs He Hfuel)
      as (counts & fs' & evs & Hrun & _ & _ & Hfiles & _).
    eexists _, counts, _. split; [exact Hrun |]. split; [reflexivity | exact Hfiles].
Qed.

(** X7: the driver never writes an empty file, and it writes nowhere
    but to the monthly files of the months it visits: every file on disk
    after the run was there before with the same contents, or is the
    non-empty file of a visited month. *)
Theorem X7_driver_writes_only_nonempty_monthly_files :
  (forall (net : Net NYTimes.Doc) fuel start_date end_date
          (w : World NYTimes.Doc NYTimes.Row),
      valid_date start_date -> valid_date end_date ->
      (months_to_visit start_date end_date <= fuel)%nat ->
      exists total monthly_counts w',
        NYTimes.scrape_by_month net fuel start_date end_date w =
          (Ok (total, monthly_counts), w') /\
        forall p df, fs w' !! p = Some df ->
          fs w !! p = Some df \/
          (df <> [] /\ exists c, In c monthly_counts /\ p = NYTimes.csv_path c.1.1 c.1.2)) /\
  (forall (net : Net Guardian.Doc) pfuel fuel start_date end_date
          (w : World Guardian.Doc Guardian.Row),
      (19 <= pfuel)%nat ->
      valid_date start_date -> valid_date end_date ->
      (months_to_visit start_date end_date <= fuel)%nat ->
      exists total monthly_counts w',
        Guardian.scrape_by_month net pfuel fuel start_date end_date w =
          (Ok (total, monthly_counts), w') /\
        forall p df, fs w' !! p = Some df ->
          fs w !! p = Some df \/
          (df <> [] /\ exists c, In c monthly_counts /\ p = Guardian.csv_path c.1.1 c.1.2)).
Proof.
  split.
  - intros net fuel start_date end_date w Hs He Hfuel.
    destruct (nyt_scrape_by_month_run net fuel start_date end_date w Hs He Hfuel)
      as (counts & fs' & evs & Hrun & Hmonths & _ & _ & Hnew & _).
    eexists _, counts, _. split; [exact Hrun |].
    intros p df Hp. destruct (Hnew p df Hp) as [H | (Hne & ym & Hin & ->)]; [left; exact H |].
    right. split; [exact Hne |].
    rewrite <- Hmonths in Hin. apply in_map_iff in Hin as (c & <- & Hc).
    exists c. auto.
  - intros net pfuel fuel start_date end_date w Hpf Hs He Hfuel.
    destruct (gdn_scrape_by_month_run net pfuel fuel start_date end_date w Hpf Hs He Hfuel)
      as (counts & fs' & evs & Hrun & Hmonths & _ & _ & Hnew & _).
    eexists _, counts, _. split; [exact Hrun |].
    intros p df Hp. destruct (Hnew p df Hp) as [H | (Hne & ym & Hin & ->)]; [left; exact H |].
    right. split; [exact Hne |].
    rewrite <- Hmonths in Hin. apply in_map_iff in Hin as (c & <- & Hc).
    exists c. auto.
Qed.

(** X8: a run is offline exactly when every month of the range is
    already on disk: then [scrape_by_month] leaves the world as it found
    it (no request, no pause, no write); and if it sends no request,
    every month of the range had its file. *)
Theorem X8_resume_is_offline :
  (forall (net : Net NYTimes.Doc) fuel start_date end_date
          (w : World NYTimes.Doc NYTimes.Row),
      valid_date start_date -> valid_date end_date ->
      (months_to_visit start_date end_date <= fuel)%nat ->
      let months := months_from start_date (months_to_visit start_date end_date) in
      (Forall (fun ym => is_Some (fs w !! NYTimes.csv_path ym.1 ym.2)) months ->
       (NYTimes.scrape_by_month net fuel start_date end_date w).2 = w) /\
      (requests_of (trace (NYTimes.scrape_by_month net fuel start_date end_date w).2) =
         requests_of (trace w) ->
       Forall (fun ym => is_Some (fs w !! NYTimes.csv_path ym.1 ym.2)) months)) /\
  (forall (net : Net Guardian.Doc) pfuel fuel start_date end_date
          (w : World Guardian.Doc Guardian.Row),
      (19 <= pfuel)%nat ->
      valid_date start_date -> valid_date end_date ->
      (months_to_visit start_date end_date <= fuel)%nat ->
      let months := months_from start_date (months_to_visit start_date end_date) in
      (Forall (fun ym => is_Some (fs w !! Guardian.csv_path ym.1 ym.2)) months ->
       (Guardian.scrape_by_month net pfuel fuel start_date end_date w).2 = w) /\
      (requests_of (trace (Guardian.scrape_by_month net pfuel fuel start_date end_date w).2) =
         requests_of (trace w) ->
       Forall (fun ym => is_Some (fs w !! Guardian.csv_path ym.1 ym.2)) months)).
Proof.
  split.
  - intros net fuel start_date end_date w Hs He Hfuel months.
    destruct (nyt_scrape_by_month_run net fuel start_date end_date w Hs He Hfuel)
      as (counts & fs' & evs & Hrun & _ & _ & _ & _ & Hoff & Hconv).
    rewrite Hrun. cbn [snd trace]. split.
    + intros Hall. destruct (Hoff Hall) as [-> ->]. rewrite app_nil_r. destruct w. reflexivity.
    + intros Hreq. apply Hconv. rewrite requests_of_app in Hreq.
      rewrite <- (app_nil_r (requests_of (trace w))) in Hreq at 2.
      eapply app_inv_head, Hreq.
  - intros net pfuel fuel start_date end_date w Hpf Hs He Hfuel months.
    destruct (gdn_scrape_by_month_run net pfuel fuel start_date end_date w Hpf Hs He Hfuel)
      as (counts & fs' & evs & Hrun & _ & _ & _ & _ & Hoff & Hconv).
    rewrite Hrun. cbn [snd trace]. split.
    + intros Hall. destruct (Hoff Hall) as [-> ->]. rewrite app_nil_r. destruct w. reflexivity.
    + intros Hreq. apply Hconv. rewrite requests_of_app in Hreq.
      rewrite <- (app_nil_r (requests_of (trace w))) in Hreq at 2.
      eapply app_inv_head, Hreq.
Qed.

Lemma X6_witness :
  valid_date (mkdate 2023 8 1) /\ valid_date (mkdate 2023 9 30) /\
  (months_to_visit (mkdate 2023 8 1) (mkdate 2023 9 30) <= 2)%nat /\
  (19 <= 19)%nat /\
  (exists total monthly_counts w',
     NYTimes.scrape_by_month (net_pages 500) 2 (mkdate 2023 8 1) (mkdate 2023 9 30)
       nyt_fresh = (Ok (total, monthly_counts), w') /\
     total = sum_counts monthly_counts /\
     Forall (fun c => 0 <= c.2 /\
               (0 < c.2 -> exists df, fs w' !! NYTimes.csv_path c.1.1 c.1.2 = Some df /\
                                      NYTimes.len df = c.2)) monthly_counts) /\
  (exists total monthly_counts w',
     Guardian.scrape_by_month net_down 19 2 (mkdate 2023 8 1) (mkdate 2023 9 30)
       gdn_resumed = (Ok (total, monthly_counts), w') /\
     total = sum_counts monthly_counts /\
     Forall (fun c => 0 <= c.2 /\
               (0 < c.2 -> exists df, fs w' !! Guardian.csv_path c.1.1 c.1.2 = Some df /\
                                      Guardian.len df = c.2)) monthly_counts).
Proof.
  assert (Hs : valid_date (mkdate 2023 8 1)) by valid_date_tac.
  assert (He : valid_date (mkdate 2023 9 30)) by valid_date_tac.
  assert (Hfuel : (months_to_visit (mkdate 2023 8 1) (mkdate 2023 9 30) <= 2)%nat)
    by fuel_tac.
  split; [exact Hs |]. split; [exact He |]. split; [exact Hfuel |]. split; [lia |].
  split.
  - exact (proj1 X6_driver_accounting (net_pages 500) 2%nat _ _ nyt_fresh Hs He Hfuel).
  - exact (proj2 X6_driver_accounting net_down 19%nat 2%nat _ _ gdn_resumed
             (le_n 19) Hs He Hfuel).
Defined.

Lemma X7_witness :
  valid_date (mkdate 2023 8 1) /\ valid_date (mkdate 2023 9 30) /\
  (months_to_visit (mkdate 2023 8 1) (mkdate 2023 9 30) <= 2)%nat /\
  (19 <= 19)%nat /\
  (exists total monthly_counts w',
     NYTimes.scrape_by_month (net_pages 500) 2 (mkdate 2023 8 1) (mkdate 2023 9 30)
       nyt_fresh = (Ok (total, monthly_counts), w') /\
     forall p df, fs w' !! p = Some df ->
       fs nyt_fresh !! p = Some df \/
       (df <> [] /\ exists c, In c monthly_counts /\ p = NYTimes.csv_path c.1.1 c.1.2)) /\
  (exists total monthly_counts w',
     Guardian.scrape_by_month net_down 19 2 (mkdate 2023 8 1) (mkdate 2023 9 30)
       gdn_resumed = (Ok (total, monthly_counts), w') /\
     forall p df, fs w' !! p = Some df ->
       fs gdn_resumed !! p = Some df \/
       (df <> [] /\ exists c, In c monthly_counts /\ p = Guardian.csv_path c.1.1 c.1.2)).
Proof.
  assert (Hs : valid_date (mkdate 2023 8 1)) by valid_date_tac.
  assert (He : valid_date (mkdate 2023 9 30)) by valid_date_tac.
  assert (Hfuel : (months_to_visit (mkdate 2023 8 1) (mkdate 2023 9 30) <= 2)%nat)
    by fuel_tac.
  split; [exact Hs |]. split; [exact He |]. split; [exact Hfuel |]. split; [lia |].
  split.
  - exact (proj1 X7_driver_writes_only_nonempty_monthly_files
             (net_pages 500) 2%nat _ _ nyt_fresh Hs He Hfuel).
  - exact (proj2 X7_driver_writes_only_nonempty_monthly_files
             net_down 19%nat 2%nat _ _ gdn_resumed (le_n 19) Hs He Hfuel).
Defined.

Lemma X8_witness :
  valid_date (mkdate 2023 8 1) /\ valid_date (mkdate 2023 8 31) /\
  (months_to_visit (mkdate 2023 8 1) (mkdate 2023 8 31) <= 1)%nat /\
  (19 <= 19)%nat /\
  Forall (fun ym => is_Some (fs nyt_resumed !! NYTimes.csv_path ym.1 ym.2))
    (months_from (mkdate 2023 8 1) (months_to_visit (mkdate 2023 8 1) (mkdate 2023 8 31))) /\
  (NYTimes.scrape_by_month net_down 1 (mkdate 2023 8 1) (mkdate 2023 8 31) nyt_resumed).2 =
    nyt_resumed /\
  Forall (fun ym => is_Some (fs gdn_resumed !! Guardian.csv_path ym.1 ym.2))
    (months_from (mkdate 2023 8 1) (months_to_visit (mkdate 2023 8 1) (mkdate 2023 8 31))) /\
  (Guardian.scrape_by_month net_down 19 1 (mkdate 2023 8 1) (mkdate 2023 8 31) gdn_resumed).2 =
    gdn_resumed.
Proof.
  assert (Hs : valid_date (mkdate 2023 8 1)) by valid_date_tac.
  assert (He : valid_date (mkdate 2023 8 31)) by valid_date_tac.
  assert (Hfuel : (months_to_visit (mkdate 2023 8 1) (mkdate 2023 8 31) <= 1)%nat)
    by fuel_tac.
  assert (Hn : Forall (fun ym => is_Some (fs nyt_resumed !! NYTimes.csv_path ym.1 ym.2))
                 (months_from (mkdate 2023 8 1)
                    (months_to_visit (mkdate 2023 8 1) (mkdate 2023 8 31)))).
  { change (months_to_visit (mkdate 2023 8 1) (mkdate 2023 8 31)) with 1%nat.
    constructor; [| constructor]. exists nyt_august. vm_compute. reflexivity. }
  assert (Hg : Forall (fun ym => is_Some (fs gdn_resumed !! Guardian.csv_path ym.1 ym.2))
                 (months_from (mkdate 2023 8 1)
                    (months_to_visit (mkdate 2023 8 1) (mkdate 2023 8 31)))).
  { change (months_to_visit (mkdate 2023 8 1) (mkdate 2023 8 31)) with 1%nat.
    constructor; [| constructor]. exists gdn_august. vm_compute. reflexivity. }
  split; [exact Hs |]. split; [exact He |]. split; [exact Hfuel |]. split; [lia |].
  split; [exact Hn |].
  split; [exact (proj1 (proj1 X8_resume_is_offline net_down 1%nat _ _ nyt_resumed
                          Hs He Hfuel) Hn) |].
  split; [exact Hg |].
  exact (proj1 (proj2 X8_resume_is_offline net_down 19%nat 1%nat _ _ gdn_resumed
                  (le_n 19) Hs He Hfuel) Hg).
Defined.

(** ** The names of the monthly files *)

Lemma digits_only_pretty_N_char n s :
  digits_only (String (pretty_N_char n) s) = digits_only s.
Proof. unfold pretty_N_char. repeat case_match; reflexivity. Qed.

Lemma starts_with_digit_pretty_N_char n s :
  starts_with_digit (String (pretty_N_char n) s) = true.
Proof. unfold pretty_N_char. repeat case_match; reflexivity. Qed.

Lemma digits_only_pretty_N_go x : forall s,
  digits_only s = true -> digits_only (pretty_N_go x s) = true.
Proof.
  induction (N.lt_wf_0 x) as [x _ IH]; intros s Hs.
  destruct (decide (x = 0%N)) as [-> | Hx]; [rewrite pretty_N_go_0; exact Hs |].
  rewrite pretty_N_go_step by lia. apply IH.
  - apply N.div_lt; lia.
  - rewrite digits_only_pretty_N_char. exact Hs.
Qed.

Lemma starts_with_digit_pretty_N_go x : forall s,
  (0 < x)%N \/ starts_with_digit s = true ->
  starts_with_digit (pretty_N_go x s) = true.
Proof.
  induction (N.lt_wf_0 x) as [x _ IH]; intros s Hs.
  destruct (decide (x = 0%N)) as [-> | Hx].
  - rewrite pretty_N_go_0. destruct Hs as [Hs | Hs]; [lia | exact Hs].
  - rewrite pretty_N_go_step by lia. apply IH.
    + apply N.div_lt; lia.
    + right. apply starts_with_digit_pretty_N_char.
Qed.

Lemma pretty_Z_digits (y : Z) :
  0 <= y -> digits_only (pretty y) = true /\ starts_with_digit (pretty y) = true.
Proof.
  intros Hy. destruct y as [|p|p]; [split; reflexivity | | lia].
  unfold pretty, pretty_Z, pretty, pretty_positive, pretty, pretty_N.
  destruct (decide (N.pos p = 0%N)); [discriminate |]. split.
  - apply digits_only_pretty_N_go. reflexivity.
  - apply starts_with_digit_pretty_N_go. left. lia.
Qed.

Lemma append_cons c a b : String.append (String c a) b = String c (String.append a b).
Proof. reflexivity. Qed.

Lemma append_nil b : String.append EmptyString b = b.
Proof. reflexivity. Qed.

Lemma digits_only_app a b :
  digits_only (String.append a b) = digits_only a && digits_only b.
Proof.
  induction a as [|c a IH]; [reflexivity |].
  rewrite append_cons. cbn [digits_only]. rewrite IH, andb_assoc. reflexivity.
Qed.

Lemma pad2_digits m : 0 <= m -> digits_only (pad2 m) = true.
Proof.
  intros Hm. unfold pad2. destruct (m <? 10).
  - rewrite digits_only_app. apply (pretty_Z_digits m Hm).
  - apply pretty_Z_digits, Hm.
Qed.

Lemma has_char_app c a b :
  has_char c (String.append a b) = has_char c a || has_char c b.
Proof.
  induction a as [|x a IH]; [reflexivity |].
  rewrite append_cons. cbn [has_char]. rewrite IH, orb_assoc. reflexivity.
Qed.

Lemma digits_only_no_slash s : digits_only s = true -> has_char "/" s = false.
Proof.
  induction s as [|c s IH]; [reflexivity |]. cbn [digits_only has_char].
  intros H. apply andb_true_iff in H as [Hc Hs]. rewrite (IH Hs), orb_false_r.
  destruct (Ascii.eqb c "/") eqn:Heq; [| reflexivity].
  apply Ascii.eqb_eq in Heq. subst c. discriminate Hc.
Qed.

Lemma ends_with_app suf a b :
  ends_with suf b = true -> ends_with suf (String.append a b) = true.
Proof.
  intros Hb. induction a as [|c a IH]; [exact Hb |].
  rewrite append_cons. cbn [ends_with]. rewrite IH. apply orb_true_r.
Qed.

Lemma starts_with_digit_app a b :
  starts_with_digit a = true -> starts_with_digit (String.append a b) = true.
Proof. destruct a; [discriminate |]. rewrite append_cons. auto. Qed.

Lemma starts_with_digit_no_dot s :
  starts_with_digit s = true -> String.prefix "." s = false.
Proof.
  destruct s as [|c s]; [discriminate |]. cbn [String.prefix starts_with_digit].
  destruct (ascii_dec "." c) as [<- | ?]; [discriminate | reflexivity].
Qed.

Lemma string_app_inv_head a b c :
  String.append a b = String.append a c -> b = c.
Proof.
  induction a as [|x a IH]; [auto |].
  rewrite !append_cons. intros [= H]. apply IH, H.
Qed.

(** Two strings that begin with digits up to a dash agree on the digits
    and on what follows the dash. *)
Lemma digits_dash_split a : forall a' r r',
  digits_only a = true -> digits_only a' = true ->
  String.append a (String "-" r) = String.append a' (String "-" r') ->
  a = a' /\ r = r'.
Proof.
  induction a as [|c a IH]; intros [|c' a'] r r' Ha Ha';
    rewrite ?append_cons, ?append_nil.
  - intros [= ->]. auto.
  - intros [= <- _]. cbn in Ha'. discriminate Ha'.
  - intros [= -> _]. cbn in Ha. discriminate Ha.
  - intros [= -> H]. cbn [digits_only] in Ha, Ha'.
    apply andb_true_iff in Ha as [_ Ha]. apply andb_true_iff in Ha' as [_ Ha'].
    destruct (IH a' r r' Ha Ha' H) as [-> ->]. auto.
Qed.

Lemma pad2_csv_inj m m' :
  1 <= m <= 12 -> 1 <= m' <= 12 ->
  String.append (pad2 m) ".csv" = String.append (pad2 m') ".csv" -> m = m'.
Proof.
  intros Hm Hm'.
  assert (m = 1 \/ m = 2 \/ m = 3 \/ m = 4 \/ m = 5 \/ m = 6 \/ m = 7 \/
          m = 8 \/ m = 9 \/ m = 10 \/ m = 11 \/ m = 12) as Hc by lia.
  assert (m' = 1 \/ m' = 2 \/ m' = 3 \/ m' = 4 \/ m' = 5 \/ m' = 6 \/ m' = 7 \/
          m' = 8 \/ m' = 9 \/ m' = 10 \/ m' = 11 \/ m' = 12) as Hc' by lia.
  repeat destruct Hc as [-> | Hc]; try subst m;
    repeat destruct Hc' as [-> | Hc']; try subst m';
    intros H; try reflexivity; vm_compute in H; discriminate H.
Qed.

Section MonthlyPaths.
Variable dir : string.

Lemma monthly_path_inj y m y' m' :
  0 <= y -> 0 <= y' -> 1 <= m <= 12 -> 1 <= m' <= 12 ->
  monthly_path dir y m = monthly_path dir y' m' -> y = y' /\ m = m'.
Proof.
  intros Hy Hy' Hm Hm' H. unfold monthly_path in H.
  apply string_app_inv_head in H. rewrite !append_cons, !append_nil in H.
  injection H as H.
  apply digits_dash_split in H as [Hp Hr];
    [| apply pretty_Z_digits, Hy | apply pretty_Z_digits, Hy'].
  split; [apply (inj pretty), Hp | apply pad2_csv_inj; assumption].
Qed.

Lemma monthly_path_not_combined y m :
  0 <= y -> monthly_path dir y m <> String.append dir "/combined.csv".
Proof.
  intros Hy H. unfold monthly_path in H.
  apply string_app_inv_head in H. rewrite !append_cons, !append_nil in H.
  injection H as H.
  destruct (pretty_Z_digits y Hy) as [_ Hd].
  destruct (pretty y) as [|c s]; [discriminate Hd |].
  rewrite append_cons in H. injection H as -> _. discriminate Hd.
Qed.

Lemma strip_prefix_app a b : strip_prefix a (String.append a b) = Some b.
Proof.
  induction a as [|c a IH]; [reflexivity |].
  rewrite append_cons. cbn [strip_prefix]. rewrite Ascii.eqb_refl. exact IH.
Qed.

Lemma string_app_assoc a b c :
  String.append (String.append a b) c = String.append a (String.append b c).
Proof.
  induction a as [|x a IH]; [reflexivity |]. rewrite !append_cons, IH. reflexivity.
Qed.

Lemma monthly_path_matches y m :
  0 <= y -> 0 <= m -> matches_csv dir (monthly_path dir y m) = true.
Proof.
  intros Hy Hm. unfold matches_csv, monthly_path.
  rewrite <- string_app_assoc, strip_prefix_app.
  destruct (pretty_Z_digits y Hy) as [Hdig Hstart].
  rewrite ends_with_app by (apply (ends_with_app _ "-"), ends_with_app; reflexivity).
  rewrite starts_with_digit_no_dot by (apply starts_with_digit_app, Hstart).
  rewrite !has_char_app, (digits_only_no_slash _ Hdig),
    (digits_only_no_slash _ (pad2_digits m Hm)).
  reflexivity.
Qed.
End MonthlyPaths.

(** ** The combined frame *)

Section CombinedFrame.
Context {R : Type} (key : R -> Cell) (ts : R -> option Z).

Lemma precedes_trans a b c :
  precedes a b = true -> precedes b c = true -> precedes a c = true.
Proof.
  destruct a as [x|], b as [y|], c as [z|]; cbn; try congruence.
  rewrite !Z.leb_le. lia.
Qed.

Lemma sort_values_strongly_sorted (df : list R) :
  StronglySorted (desc ts) (sort_values ts df).
Proof.
  apply Sorted_StronglySorted; [| apply sort_values_sorted].
  intros a b c. unfold desc. apply precedes_trans.
Qed.

(** Rows without a timestamp come last. *)
Lemma sort_values_nat_last (df l1 l2 : list R) a :
  sort_values ts df = l1 ++ a :: l2 -> ts a = None ->
  Forall (fun b => ts b = None) l2.
Proof.
  intros Hsplit Ha. pose proof (sort_values_strongly_sorted df) as Hs.
  rewrite Hsplit in Hs. clear Hsplit.
  induction l1 as [|x l1 IH]; cbn [app] in Hs.
  - apply StronglySorted_inv in Hs as [_ Hall].
    eapply Forall_impl; [exact Hall |]. intros b Hb. unfold desc in Hb.
    rewrite Ha in Hb. destruct (ts b); [discriminate | reflexivity].
  - apply StronglySorted_inv in Hs as [Hs _]. apply IH, Hs.
Qed.

Lemma sort_values_In (df : list R) r : In r (sort_values ts df) <-> In r df.
Proof.
  split; apply Permutation_in; [symmetry |]; apply sort_values_perm.
Qed.

Lemma sort_values_filter_one (f : R -> bool) (df : list R) r :
  List.filter f df = [r] -> List.filter f (sort_values ts df) = [r].
Proof.
  intros H.
  assert (Hp : Permutation (List.filter f df) (List.filter f (sort_values ts df))).
  { clear H. pose proof (sort_values_perm ts df) as Hperm.
    induction Hperm as [| x l l' _ IH | x y l | l l' l'' _ IH1 _ IH2]; cbn.
    - constructor.
    - destruct (f x); [constructor |]; exact IH.
    - destruct (f x), (f y); try apply Permutation_refl. apply perm_swap.
    - etransitivity; eassumption. }
  rewrite H in Hp. apply Permutation_length_1_inv in Hp. exact Hp.
Qed.

Lemma sort_values_filter_none (f : R -> bool) (df : list R) :
  List.filter f df = [] -> List.filter f (sort_values ts df) = [].
Proof.
  intros H. destruct (List.filter f (sort_values ts df)) as [|r l] eqn:Hf; [reflexivity |].
  assert (Hin : In r (List.filter f (sort_values ts df))) by (rewrite Hf; left; reflexivity).
  apply filter_In in Hin as [Hin Hfr]. apply (proj1 (sort_values_In _ _)) in Hin.
  assert (Hin' : In r (List.filter f df)) by (apply filter_In; split; assumption).
  rewrite H in Hin'. destruct Hin'.
Qed.

(** The frame the combination builds from the frames [dfs] it read. *)
Lemma combined_frame_properties (dfs : list (list R)) :
  let combined := sort_values ts (drop_duplicates key (concat dfs)) in
  Sorted (desc ts) combined /\
  NoDup (map key combined) /\
  (forall k, List.filter (has_key key k) combined = first_with key k (concat dfs)) /\
  (forall r, In r combined -> exists df, In df dfs /\ In r df) /\
  (forall df r, In df dfs -> In r df -> exists r', In r' combined /\ key r' = key r) /\
  (forall l1 a l2, combined = l1 ++ a :: l2 -> ts a = None ->
                   Forall (fun b => ts b = None) l2).
Proof.
  cbv zeta. split; [apply sort_values_sorted |]. split; [| split; [| split; [| split]]].
  - rewrite <- (sort_values_perm ts (drop_duplicates key (concat dfs))).
    apply drop_duplicates_NoDup.
  - intros k. pose proof (drop_duplicates_filter key (concat dfs) k) as Hf.
    unfold first_with in *. destruct (List.find (has_key key k) (concat dfs)).
    + apply sort_values_filter_one, Hf.
    + apply sort_values_filter_none, Hf.
  - intros r Hr. apply (proj1 (sort_values_In _ _)) in Hr.
    apply drop_duplicates_In, in_concat in Hr.
    destruct Hr as (df & Hdf & Hr). eauto.
  - intros df r Hdf Hr.
    destruct (drop_duplicates_covers key (concat dfs) r) as (r' & Hr' & Hk).
    { apply in_concat. eauto. }
    exists r'. split; [apply sort_values_In, Hr' | exact Hk].
  - intros l1 a l2. apply sort_values_nat_last.
Qed.
End CombinedFrame.

Lemma Forall2_In_l {A B} (P : A -> B -> Prop) l1 l2 a :
  Forall2 P l1 l2 -> In a l1 -> exists b, In b l2 /\ P a b.
Proof.
  induction 1 as [|x y l1 l2 Hxy _ IH]; intros Hin; [destruct Hin |].
  destruct Hin as [<- | Hin]; [exists y; split; [left; reflexivity | exact Hxy] |].
  destruct (IH Hin) as (b & Hb & Hab). exists b. split; [right; exact Hb | exact Hab].
Qed.

Lemma Forall2_In_r {A B} (P : A -> B -> Prop) l1 l2 b :
  Forall2 P l1 l2 -> In b l2 -> exists a, In a l1 /\ P a b.
Proof.
  induction 1 as [|x y l1 l2 Hxy _ IH]; intros Hin; [destruct Hin |].
  destruct Hin as [<- | Hin]; [exists x; split; [left; reflexivity | exact Hxy] |].
  destruct (IH Hin) as (a & Ha & Hab). exists a. split; [right; exact Ha | exact Hab].
Qed.

Section CombineOutcome.
Context {D R : Type} (key : R -> Cell) (ts : R -> option Z) (ok : R -> bool).
Context (dir cpath : string).
Variable combine : M D R (option (list R)).
Hypothesis combine_run : forall w,
  exists files,
    (forall f, In f files <-> is_Some (fs w !! f) /\ matches_csv dir f = true) /\
    match files with
    | [] => combine w = (Ok None, w)
    | _ :: _ =>
        exists dfs,
          Forall2 (fun f df => fs w !! f = Some df) files dfs /\
          combine w =
            if forallb ok (drop_duplicates key (concat dfs))
            then (Ok (Some (sort_values ts (drop_duplicates key (concat dfs)))),
                  mkWorld (<[cpath := sort_values ts (drop_duplicates key (concat dfs))]>
                             (fs w))
                          (trace w))
            else (Exc ValueError, w)
    end.

Lemma combine_outcome w :
  exists res w',
    combine w = (res, w') /\ trace w' = trace w /\
    match res with
    | Ok None => w' = w /\ forall f, is_Some (fs w !! f) -> matches_csv dir f = false
    | Ok (Some combined) =>
        fs w' = <[cpath := combined]> (fs w) /\
        (exists f, is_Some (fs w !! f) /\ matches_csv dir f = true) /\
        Forall (fun r => ok r = true) combined /\
        combined_from key ts dir w combined
    | Exc e =>
        e = ValueError /\ w' = w /\
        exists f df r,
          matches_csv dir f = true /\ fs w !! f = Some df /\ In r df /\ ok r = false
    | OutOfFuel => False
    end.
Proof.
  destruct (combine_run w) as (files & Hfiles & Hrun).
  destruct files as [|f0 rest].
  - exists (Ok None), w. split; [exact Hrun |]. split; [reflexivity |]. split; [reflexivity |].
    intros f Hf. destruct (matches_csv dir f) eqn:Hm; [| reflexivity].
    destruct (proj2 (Hfiles f) (conj Hf Hm)).
  - destruct Hrun as (dfs & Hdfs & Hrun).
    destruct (combined_frame_properties key ts dfs)
      as (Hsorted & Hnodup & _ & Hfrom & Hcover & Hnat).
    assert (Hlisted : forall r, In r (drop_duplicates key (concat dfs)) ->
              exists f df, matches_csv dir f = true /\ fs w !! f = Some df /\ In r df).
    { intros r Hr. apply drop_duplicates_In, in_concat in Hr as (df & Hdf & Hin).
      destruct (Forall2_In_r _ _ _ _ Hdfs Hdf) as (f & Hf & Hread).
      exists f, df. split; [apply Hfiles, Hf |]. split; assumption. }
    destruct (forallb ok (drop_duplicates key (concat dfs))) eqn:Hok.
    + eexists _, _. split; [exact Hrun |]. split; [reflexivity |]. cbn [fs].
      split; [reflexivity |]. split.
      { exists f0. apply Hfiles. left. reflexivity. }
      split.
      { apply Forall_forall. intros r Hr. apply list_elem_of_In in Hr.
        apply (proj1 (sort_values_In ts _ r)) in Hr.
        rewrite forallb_forall in Hok. apply Hok, Hr. }
      split; [exact Hsorted |]. split; [exact Hnodup |]. split; [exact Hnat |]. split.
      * intros r Hr. apply Hlisted. apply (proj1 (sort_values_In ts _ r)), Hr.
      * intros f df r Hm Hread Hin.
        assert (Hf : In f (f0 :: rest))
          by (apply Hfiles; split; [eexists; exact Hread | exact Hm]).
        destruct (Forall2_In_l _ _ _ _ Hdfs Hf) as (df' & Hdf' & Hread').
        rewrite Hread in Hread'. injection Hread' as <-.
        apply (Hcover df r Hdf' Hin).
    + exists (Exc ValueError), w. split; [exact Hrun |]. split; [reflexivity |].
      split; [reflexivity |]. split; [reflexivity |].
      assert (Hex : exists r, In r (drop_duplicates key (concat dfs)) /\ ok r = false).
      { clear -Hok. induction (drop_duplicates key (concat dfs)) as [|r l IH];
          [discriminate |].
        cbn [forallb] in Hok. destruct (ok r) eqn:Hr.
        - destruct (IH Hok) as (r' & Hin & Hr'). exists r'. split; [right; exact Hin | exact Hr'].
        - exists r. split; [left; reflexivity | exact Hr]. }
      destruct Hex as (r & Hin & Hr). destruct (Hlisted r Hin) as (f & df & Hm & Hread & Hrdf).
      exists f, df, r. auto.
Qed.
End CombineOutcome.

Lemma nyt_combine_outcome to_datetime (w : World NYTimes.Doc NYTimes.Row) :
  exists res w',
    NYTimes.combine_all_files to_datetime w = (res, w') /\ trace w' = trace w /\
    match res with
    | Ok None =>
        w' = w /\ forall f, is_Some (fs w !! f) -> matches_csv NYTimes.output_dir f = false
    | Ok (Some combined) =>
        fs w' = <[NYTimes.combined_path := combined]> (fs w) /\
        (exists f, is_Some (fs w !! f) /\ matches_csv NYTimes.output_dir f = true) /\
        Forall (fun r => parses (to_datetime (NYTimes.pub_date r)) = true) combined /\
        combined_from NYTimes.web_url (NYTimes.timestamp to_datetime)
          NYTimes.output_dir w combined
    | Exc e =>
        e = ValueError /\ w' = w /\
        exists f df r,
          matches_csv NYTimes.output_dir f = true /\ fs w !! f = Some df /\ In r df /\
          parses (to_datetime (NYTimes.pub_date r)) = false
    | OutOfFuel => False
    end.
Proof.
  apply (combine_outcome NYTimes.web_url (NYTimes.timestamp to_datetime)
           (fun r => parses (to_datetime (NYTimes.pub_date r)))).
  intros w0. exact (NYTimesFacts.nyt_combine_all_files_run to_datetime w0).
Qed.

Lemma gdn_combine_outcome to_datetime (w : World Guardian.Doc Guardian.Row) :
  exists res w',
    Guardian.combine_all_files to_datetime w = (res, w') /\ trace w' = trace w /\
    match res with
    | Ok None =>
        w' = w /\ forall f, is_Some (fs w !! f) -> matches_csv Guardian.output_dir f = false
    | Ok (Some combined) =>
        fs w' = <[Guardian.combined_path := combined]> (fs w) /\
        (exists f, is_Some (fs w !! f) /\ matches_csv Guardian.output_dir f = true) /\
        Forall (fun r => parses (to_datetime (Guardian.pub_date r)) = true) combined /\
        combined_from Guardian.article_id (Guardian.timestamp to_datetime)
          Guardian.output_dir w combined
    | Exc e =>
        e = ValueError /\ w' = w /\
        exists f df r,
          matches_csv Guardian.output_dir f = true /\ fs w !! f = Some df /\ In r df /\
          parses (to_datetime (Guardian.pub_date r)) = false
    | OutOfFuel => False
    end.
Proof.
  apply (combine_outcome Guardian.article_id (Guardian.timestamp to_datetime)
           (fun r => parses (to_datetime (Guardian.pub_date r)))).
  intros w0. exact (GuardianFacts.gdn_combine_all_files_run to_datetime w0).
Qed.

Lemma nyt_csv_path_facts y m :
  0 <= y ->
  NYTimes.csv_path y m <> NYTimes.combined_path /\
  (0 <= m -> matches_csv NYTimes.output_dir (NYTimes.csv_path y m) = true).
Proof.
  intros Hy. split.
  - apply (monthly_path_not_combined NYTimes.output_dir y m Hy).
  - intros Hm. apply (monthly_path_matches NYTimes.output_dir y m Hy Hm).
Qed.

Lemma gdn_csv_path_facts y m :
  0 <= y ->
  Guardian.csv_path y m <> Guardian.combined_path /\
  (0 <= m -> matches_csv Guardian.output_dir (Guardian.csv_path y m) = true).
Proof.
  intros Hy. split.
  - apply (monthly_path_not_combined Guardian.output_dir y m Hy).
  - intros Hm. apply (monthly_path_matches Guardian.output_dir y m Hy Hm).
Qed.

(** X9: the monthly files of different months are different files, and
    no monthly file is the combined file: a month's write never touches
    another month's data or the combined dataset (both scripts). *)
Theorem X9_monthly_files_are_distinct :
  (forall y m y' m',
      0 <= y -> 0 <= y' -> 1 <= m <= 12 -> 1 <= m' <= 12 ->
      (y, m) <> (y', m') ->
      NYTimes.csv_path y m <> NYTimes.csv_path y' m' /\
      NYTimes.csv_path y m <> NYTimes.combined_path) /\
  (forall y m y' m',
      0 <= y -> 0 <= y' -> 1 <= m <= 12 -> 1 <= m' <= 12 ->
      (y, m) <> (y', m') ->
      Guardian.csv_path y m <> Guardian.csv_path y' m' /\
      Guardian.csv_path y m <> Guardian.combined_path).
Proof.
  split; intros y m y' m' Hy Hy' Hm Hm' Hne.
  - split; [| apply (nyt_csv_path_facts y m Hy)].
    intros Heq. apply Hne.
    destruct (monthly_path_inj NYTimes.output_dir y m y' m' Hy Hy' Hm Hm' Heq) as [-> ->].
    reflexivity.
  - split; [| apply (gdn_csv_path_facts y m Hy)].
    intros Heq. apply Hne.
    destruct (monthly_path_inj Guardian.output_dir y m y' m' Hy Hy' Hm Hm' Heq) as [-> ->].
    reflexivity.
Qed.

Lemma X9_witness :
  0 <= 2023 /\ 1 <= 8 <= 12 /\ 1 <= 9 <= 12 /\ (2023, 8) <> (2023, 9) /\
  (NYTimes.csv_path 2023 8 <> NYTimes.csv_path 2023 9 /\
   NYTimes.csv_path 2023 8 <> NYTimes.combined_path) /\
  (Guardian.csv_path 2023 8 <> Guardian.csv_path 2023 9 /\
   Guardian.csv_path 2023 8 <> Guardian.combined_path).
Proof.
  assert (Hy : 0 <= 2023) by lia.
  assert (H8 : 1 <= 8 <= 12) by lia.
  assert (H9 : 1 <= 9 <= 12) by lia.
  assert (Hne : (2023, 8) <> (2023, 9)) by discriminate.
  split; [exact Hy |]. split; [exact H8 |]. split; [exact H9 |]. split; [exact Hne |].
  split.
  - apply (proj1 X9_monthly_files_are_distinct 2023 8 2023 9 Hy Hy H8 H9 Hne).
  - apply (proj2 X9_monthly_files_are_distinct 2023 8 2023 9 Hy Hy H8 H9 Hne).
Defined.

(** X10: the combine step sends no request.  It returns [None] and
    changes nothing when the directory lists no [.csv] file.  When
    [pd.to_datetime] meets a [pub_date] that is no date, the step raises
    [ValueError] and writes nothing; some listed file then holds such a
    row.  Otherwise it writes the combined file and nothing else, and the
    combined frame is sorted newest first with the undated rows last,
    holds one row for each key, only rows of listed files, and every key
    of every listed file (both scripts). *)
Theorem X10_combine_step :
  (forall to_datetime (w : World NYTimes.Doc NYTimes.Row),
      exists res w',
        NYTimes.combine_all_files to_datetime w = (res, w') /\
        trace w' = trace w /\
        match res with
        | Ok None =>
            w' = w /\
            forall f, is_Some (fs w !! f) -> matches_csv NYTimes.output_dir f = false
        | Ok (Some combined) =>
            fs w' = <[NYTimes.combined_path := combined]> (fs w) /\
            (exists f, is_Some (fs w !! f) /\ matches_csv NYTimes.output_dir f = true) /\
            Forall (fun r => parses (to_datetime (NYTimes.pub_date r)) = true) combined /\
            combined_from NYTimes.web_url (NYTimes.timestamp to_datetime)
              NYTimes.output_dir w combined
        | Exc e =>
            e = ValueError /\ w' = w /\
            exists f df r,
              matches_csv NYTimes.output_dir f = true /\ fs w !! f = Some df /\ In r df /\
              parses (to_datetime (NYTimes.pub_date r)) = false
        | OutOfFuel => False
        end) /\
  (forall to_datetime (w : World Guardian.Doc Guardian.Row),
      exists res w',
        Guardian.combine_all_files to_datetime w = (res, w') /\
        trace w' = trace w /\
        match res with
        | Ok None =>
            w' = w /\
            forall f, is_Some (fs w !! f) -> matches_csv Guardian.output_dir f = false
        | Ok (Some combined) =>
            fs w' = <[Guardian.combined_path := combined]> (fs w) /\
            (exists f, is_Some (fs w !! f) /\ matches_csv Guardian.output_dir f = true) /\
            Forall (fun r => parses (to_datetime (Guardian.pub_date r)) = true) combined /\
            combined_from Guardian.article_id (Guardian.timestamp to_datetime)
              Guardian.output_dir w combined
        | Exc e =>
            e = ValueError /\ w' = w /\
            exists f df r,
              matches_csv Guardian.output_dir f = true /\ fs w !! f = Some df /\ In r df /\
              parses (to_datetime (Guardian.pub_date r)) = false
        | OutOfFuel => False
        end).
Proof.
  split; intros to_datetime w.
  - apply nyt_combine_outcome.
  - apply gdn_combine_outcome.
Qed.

(** The step on a directory whose one monthly file holds a [pub_date]
    that is no date: [ValueError], and no combined file. *)
Example nyt_combine_raises_on_bad_date :
  NYTimes.combine_all_files to_datetime nyt_bad_date = (Exc ValueError, nyt_bad_date).
Proof. vm_compute. reflexivity. Qed.

(** X11: a monthly file on disk is listed by the glob, so the combine
    step does not return [None]: either it raises [ValueError] on a
    [pub_date] that is no date and writes nothing, or it stores in the
    combined file a combination that holds every key of the frame read
    from the monthly file.  The monthly file is as it was in both cases
    (both scripts). *)
Theorem X11_monthly_file_reaches_the_combination :
  (forall to_datetime (w : World NYTimes.Doc NYTimes.Row) y m df,
      0 <= y -> 0 <= m ->
      fs w !! NYTimes.csv_path y m = Some df ->
      exists res w',
        NYTimes.combine_all_files to_datetime w = (res, w') /\
        fs w' !! NYTimes.csv_path y m = Some df /\
        match res with
        | Ok (Some combined) =>
            fs w' !! NYTimes.combined_path = Some combined /\
            forall r, In r df ->
              exists r', In r' combined /\ NYTimes.web_url r' = NYTimes.web_url r
        | Exc e => e = ValueError /\ w' = w
        | Ok None | OutOfFuel => False
        end) /\
  (forall to_datetime (w : World Guardian.Doc Guardian.Row) y m df,
      0 <= y -> 0 <= m ->
      fs w !! Guardian.csv_path y m = Some df ->
      exists res w',
        Guardian.combine_all_files to_datetime w = (res, w') /\
        fs w' !! Guardian.csv_path y m = Some df /\
        match res with
        | Ok (Some combined) =>
            fs w' !! Guardian.combined_path = Some combined /\
            forall r, In r df ->
              exists r', In r' combined /\ Guardian.article_id r' = Guardian.article_id r
        | Exc e => e = ValueError /\ w' = w
        | Ok None | OutOfFuel => False
        end).
Proof.
  split; intros to_datetime w y m df Hy Hm Hfile.
  - destruct (nyt_csv_path_facts y m Hy) as [Hne Hmatch]. specialize (Hmatch Hm).
    destruct (nyt_combine_outcome to_datetime w) as (res & w' & Hrun & _ & Hres).
    exists res, w'. split; [exact Hrun |].
    destruct res as [[combined|] | e |].
    + destruct Hres as (Hfs & _ & _ & _ & _ & _ & _ & Hcover). rewrite Hfs.
      split; [rewrite lookup_insert_ne by (intros H; apply Hne; symmetry; exact H); exact Hfile |].
      split; [apply lookup_insert_eq |].
      intros r Hr. apply (Hcover _ df r Hmatch Hfile Hr).
    + destruct Hres as [_ Hnone].
      rewrite (Hnone _ (ex_intro _ df Hfile)) in Hmatch. discriminate.
    + destruct Hres as (-> & -> & _). split; [exact Hfile |]. split; reflexivity.
    + destruct Hres.
  - destruct (gdn_csv_path_facts y m Hy) as [Hne Hmatch]. specialize (Hmatch Hm).
    destruct (gdn_combine_outcome to_datetime w) as (res & w' & Hrun & _ & Hres).
    exists res, w'. split; [exact Hrun |].
    destruct res as [[combined|] | e |].
    + destruct Hres as (Hfs & _ & _ & _ & _ & _ & _ & Hcover). rewrite Hfs.
      split; [rewrite lookup_insert_ne by (intros H; apply Hne; symmetry; exact H); exact Hfile |].
      split; [apply lookup_insert_eq |].
      intros r Hr. apply (Hcover _ df r Hmatch Hfile Hr).
    + destruct Hres as [_ Hnone].
      rewrite (Hnone _ (ex_intro _ df Hfile)) in Hmatch. discriminate.
    + destruct Hres as (-> & -> & _). split; [exact Hfile |]. split; reflexivity.
    + destruct Hres.
Qed.

Lemma X11_witness :
  0 <= 2023 /\ 0 <= 8 /\
  fs nyt_resumed !! NYTimes.csv_path 2023 8 = Some nyt_august /\
  fs gdn_resumed !! Guardian.csv_path 2023 8 = Some gdn_august /\
  (exists res w',
     NYTimes.combine_all_files to_datetime nyt_resumed = (res, w') /\
     fs w' !! NYTimes.csv_path 2023 8 = Some nyt_august /\
     match res with
     | Ok (Some combined) =>
         fs w' !! NYTimes.combined_path = Some combined /\
         forall r, In r nyt_august ->
           exists r', In r' combined /\ NYTimes.web_url r' = NYTimes.web_url r
     | Exc e => e = ValueError /\ w' = nyt_resumed
     | Ok None | OutOfFuel => False
     end) /\
  (exists res w',
     Guardian.combine_all_files to_datetime gdn_resumed = (res, w') /\
     fs w' !! Guardian.csv_path 2023 8 = Some gdn_august /\
     match res with
     | Ok (Some combined) =>
         fs w' !! Guardian.combined_path = Some combined /\
         forall r, In r gdn_august ->
           exists r', In r' combined /\ Guardian.article_id r' = Guardian.article_id r
     | Exc e => e = ValueError /\ w' = gdn_resumed
     | Ok None | OutOfFuel => False
     end).
Proof.
  assert (Hy : 0 <= 2023) by lia.
  assert (Hm : 0 <= 8) by lia.
  assert (Hn : fs nyt_resumed !! NYTimes.csv_path 2023 8 = Some nyt_august)
    by apply lookup_insert_eq.
  assert (Hg : fs gdn_resumed !! Guardian.csv_path 2023 8 = Some gdn_august)
    by apply lookup_insert_eq.
  split; [exact Hy |]. split; [exact Hm |]. split; [exact Hn |]. split; [exact Hg |].
  split.
  - exact (proj1 X11_monthly_file_reaches_the_combination to_datetime nyt_resumed
             2023 8 nyt_august Hy Hm Hn).
  - exact (proj2 X11_monthly_file_reaches_the_combination to_datetime gdn_resumed
             2023 8 gdn_august Hy Hm Hg).
Defined.

(** ** The whole script *)

Lemma months_from_years current n :
  Forall (fun ym => year current <= ym.1) (months_from current n).
Proof.
  revert current. induction n as [|n IH]; intros current; [constructor |].
  cbn [months_from]. constructor; [cbn; lia |].
  eapply Forall_impl; [apply IH |]. intros ym Hym. cbn beta in Hym.
  assert (year current <= year (next_month current)); [| lia].
  unfold next_month. destruct (month current =? 12); cbn; lia.
Qed.

Lemma sum_counts_zero (monthly_counts : list (Z * Z * Z)) :
  Forall (fun c => c.2 = 0) monthly_counts -> sum_counts monthly_counts = 0.
Proof.
  induction 1 as [|c l Hc _ IH]; [reflexivity |].
  unfold sum_counts in *. cbn [fold_right]. lia.
Qed.


Section MainOutcome.
Context {D R : Type} (key : R -> Cell) (ts : R -> option Z) (ok : R -> bool).
Context (dir cpath : string).
Variables (mpath : Z -> Z -> string) (len : list R -> Z).
Variables (w w1 : World D R) (monthly_counts : list (Z * Z * Z)).
Variable combine : M D R (option (list R)).

Hypothesis Hsub : fs w ⊆ fs w1.
Hypothesis Hfiles :
  Forall (fun c => 0 <= c.2 /\
            (0 < c.2 -> exists df, fs w1 !! mpath c.1.1 c.1.2 = Some df /\ len df = c.2))
    monthly_counts.
Hypothesis Hnew : forall p df, fs w1 !! p = Some df ->
  fs w !! p = Some df \/
  (df <> [] /\ exists c, In c monthly_counts /\ p = mpath c.1.1 c.1.2).
Hypothesis Hvalid : Forall (fun c => 0 <= c.1.1 /\ 0 <= c.1.2) monthly_counts.
Hypothesis Hpath : forall y m, 0 <= y ->
  mpath y m <> cpath /\ (0 <= m -> matches_csv dir (mpath y m) = true).
Hypothesis Hcomb :
  exists res w',
    combine w1 = (res, w') /\ trace w' = trace w1 /\
    match res with
    | Ok None => w' = w1 /\ forall f, is_Some (fs w1 !! f) -> matches_csv dir f = false
    | Ok (Some combined) =>
        fs w' = <[cpath := combined]> (fs w1) /\
        (exists f, is_Some (fs w1 !! f) /\ matches_csv dir f = true) /\
        Forall (fun r => ok r = true) combined /\
        combined_from key ts dir w1 combined
    | Exc e =>
        e = ValueError /\ w' = w1 /\
        exists f df r,
          matches_csv dir f = true /\ fs w1 !! f = Some df /\ In r df /\ ok r = false
    | OutOfFuel => False
    end.

Lemma main_outcome :
  exists res w',
    combine w1 = (res, w') /\ trace w' = trace w1 /\
    (forall y m df, 0 <= y -> fs w !! mpath y m = Some df ->
                    fs w' !! mpath y m = Some df) /\
    match res with
    | Ok None => sum_counts monthly_counts = 0 /\ fs w' = fs w
    | Ok (Some combined) =>
        fs w' !! cpath = Some combined /\ Forall (fun r => ok r = true) combined
    | Exc e => e = ValueError /\ w' = w1
    | OutOfFuel => False
    end.
Proof.
  destruct Hcomb as (res & w' & Hrun & Htrace & Hres).
  exists res, w'. split; [exact Hrun |]. split; [exact Htrace |].
  destruct res as [[combined|] | e |].
  - destruct Hres as (Hfs & _ & Hok & _). rewrite Hfs. split; [| split; [| exact Hok]].
    + intros y m df Hy Hfile.
      rewrite lookup_insert_ne by (intros H; apply (proj1 (Hpath y m Hy)); symmetry; exact H).
      eapply lookup_weaken; [exact Hfile | exact Hsub].
    + apply lookup_insert_eq.
  - destruct Hres as [-> Hnone]. split; [| split].
    + intros y m df Hy Hfile. eapply lookup_weaken; [exact Hfile | exact Hsub].
    + apply sum_counts_zero.
      rewrite Forall_forall in Hfiles, Hvalid. apply Forall_forall. intros c Hc.
      destruct (Hfiles c Hc) as [Hnonneg Hpos]. destruct (Hvalid c Hc) as [Hy Hm].
      destruct (Z.eq_dec c.2 0) as [Hz | Hnz]; [exact Hz |].
      destruct Hpos as (df & Hdf & _); [lia |].
      pose proof (Hnone _ (ex_intro _ df Hdf)) as Hno.
      rewrite (proj2 (Hpath _ _ Hy) Hm) in Hno. discriminate.
    + apply map_eq. intros p. destruct (fs w1 !! p) as [df|] eqn:Hp.
      * destruct (Hnew p df Hp) as [H | (_ & c & Hc & ->)]; [symmetry; exact H |].
        rewrite Forall_forall in Hvalid.
        destruct (Hvalid c (proj2 (list_elem_of_In _ _) Hc)) as [Hy Hm].
        pose proof (Hnone _ (ex_intro _ df Hp)) as Hno.
        rewrite (proj2 (Hpath _ _ Hy) Hm) in Hno. discriminate.
      * symmetry. eapply lookup_weaken_None; [exact Hp | exact Hsub].
  - destruct Hres as (-> & -> & _). split; [| split; reflexivity].
    intros y m df Hy Hfile. eapply lookup_weaken; [exact Hfile | exact Hsub].
  - destruct Hres.
Qed.
End MainOutcome.

Lemma visited_months_valid start_date n (monthly_counts : list (Z * Z * Z)) :
  1 <= month start_date <= 12 -> 0 <= year start_date ->
  map (fun c => (c.1.1, c.1.2)) monthly_counts = months_from start_date n ->
  Forall (fun c => 0 <= c.1.1 /\ 0 <= c.1.2) monthly_counts.
Proof.
  intros Hm Hy Hmap.
  pose proof (months_from_years start_date n) as Hyears.
  destruct (months_from_index start_date n Hm) as [_ Hmonths].
  rewrite <- Hmap in Hyears, Hmonths.
  rewrite Forall_forall in Hyears, Hmonths. apply Forall_forall. intros c Hc.
  assert (Hin : (c.1.1, c.1.2) ∈ map (fun c => (c.1.1, c.1.2)) monthly_counts).
  { apply list_elem_of_In, in_map_iff. exists c. split; [reflexivity |].
    apply list_elem_of_In, Hc. }
  specialize (Hyears _ Hin). specialize (Hmonths _ Hin). cbn in Hyears, Hmonths. lia.
Qed.


(** X12: the driver followed by the combine step, on dates of year 0 or
    later and with fuel for the months of the range.  The combine step
    adds no request and no pause to the trace the driver left; the
    monthly files that were on disk at the start are there unchanged at
    the end; the step returns [None] only when the driver counted no
    article at all, and the disk is then as it was at the start; when
    it returns a frame, that frame is the contents of the combined file
    and every [pub_date] in it is a date; when [pd.to_datetime] raises,
    the disk is as the driver left it (both scripts). *)
Theorem X12_whole_script :
  (forall (net : Net NYTimes.Doc) fuel to_datetime start_date end_date
          (w : World NYTimes.Doc NYTimes.Row),
      valid_date start_date -> valid_date end_date -> 0 <= year start_date ->
      (months_to_visit start_date end_date <= fuel)%nat ->
      exists total monthly_counts w1 res w',
        NYTimes.scrape_by_month net fuel start_date end_date w =
          (Ok (total, monthly_counts), w1) /\
        NYTimes.main net fuel to_datetime start_date end_date w = (res, w') /\
        trace w' = trace w1 /\
        (forall y m df, 0 <= y -> fs w !! NYTimes.csv_path y m = Some df ->
                        fs w' !! NYTimes.csv_path y m = Some df) /\
        match res with
        | Ok None => total = 0 /\ fs w' = fs w
        | Ok (Some combined) =>
            fs w' !! NYTimes.combined_path = Some combined /\
            Forall (fun r => parses (to_datetime (NYTimes.pub_date r)) = true) combined
        | Exc e => e = ValueError /\ w' = w1
        | OutOfFuel => False
        end) /\
  (forall (net : Net Guardian.Doc) pfuel fuel to_datetime start_date end_date
          (w : World Guardian.Doc Guardian.Row),
      (19 <= pfuel)%nat ->
      valid_date start_date -> valid_date end_date -> 0 <= year start_date ->
      (months_to_visit start_date end_date <= fuel)%nat ->
      exists total monthly_counts w1 res w',
        Guardian.scrape_by_month net pfuel fuel start_date end_date w =
          (Ok (total, monthly_counts), w1) /\
        Guardian.main net pfuel fuel to_datetime start_date end_date w = (res, w') /\
        trace w' = trace w1 /\
        (forall y m df, 0 <= y -> fs w !! Guardian.csv_path y m = Some df ->
                        fs w' !! Guardian.csv_path y m = Some df) /\
        match res with
        | Ok None => total = 0 /\ fs w' = fs w
        | Ok (Some combined) =>
            fs w' !! Guardian.combined_path = Some combined /\
            Forall (fun r => parses (to_datetime (Guardian.pub_date r)) = true) combined
        | Exc e => e = ValueError /\ w' = w1
        | OutOfFuel => False
        end).
Proof.
  split.
  - intros net fuel to_datetime start_date end_date w Hs He Hy Hfuel.
    destruct (nyt_scrape_by_month_run net fuel start_date end_date w Hs He Hfuel)
      as (counts & fs' & evs & Hrun & Hmonths & Hsub & Hfiles & Hnew & _).
    destruct (main_outcome NYTimes.web_url (NYTimes.timestamp to_datetime)
                (fun r => parses (to_datetime (NYTimes.pub_date r)))
                NYTimes.output_dir NYTimes.combined_path NYTimes.csv_path NYTimes.len
                w (mkWorld fs' (trace w ++ evs)) counts
                (NYTimes.combine_all_files to_datetime))
      as (res & w' & Hcomb & Htrace & Hkeep & Hres).
    + exact Hsub.
    + exact Hfiles.
    + intros p df Hp. destruct (Hnew p df Hp) as [H | (Hne & ym & Hin & ->)]; [left; exact H |].
      right. split; [exact Hne |].
      rewrite <- Hmonths in Hin. apply in_map_iff in Hin as (c & <- & Hc).
      exists c. split; [exact Hc | reflexivity].
    + exact (visited_months_valid _ _ _ (proj1 Hs) Hy Hmonths).
    + exact nyt_csv_path_facts.
    + apply nyt_combine_outcome.
    + exists (sum_counts counts), counts, (mkWorld fs' (trace w ++ evs)), res, w'.
      split; [exact Hrun |]. split; [| split; [exact Htrace | split; [exact Hkeep | exact Hres]]].
      unfold NYTimes.main. erewrite bind_ok by exact Hrun. exact Hcomb.
  - intros net pfuel fuel to_datetime start_date end_date w Hpf Hs He Hy Hfuel.
    destruct (gdn_scrape_by_month_run net pfuel fuel start_date end_date w Hpf Hs He Hfuel)
      as (counts & fs' & evs & Hrun & Hmonths & Hsub & Hfiles & Hnew & _).
    destruct (main_outcome Guardian.article_id (Guardian.timestamp to_datetime)
                (fun r => parses (to_datetime (Guardian.pub_date r)))
                Guardian.output_dir Guardian.combined_path Guardian.csv_path Guardian.len
                w (mkWorld fs' (trace w ++ evs)) counts
                (Guardian.combine_all_files to_datetime))
      as (res & w' & Hcomb & Htrace & Hkeep & Hres).
    + exact Hsub.
    + exact Hfiles.
    + intros p df Hp. destruct (Hnew p df Hp) as [H | (Hne & ym & Hin & ->)]; [left; exact H |].
      right. split; [exact Hne |].
      rewrite <- Hmonths in Hin. apply in_map_iff in Hin as (c & <- & Hc).
      exists c. split; [exact Hc | reflexivity].
    + exact (visited_months_valid _ _ _ (proj1 Hs) Hy Hmonths).
    + exact gdn_csv_path_facts.
    + apply gdn_combine_outcome.
    + exists (sum_counts counts), counts, (mkWorld fs' (trace w ++ evs)), res, w'.
      split; [exact Hrun |]. split; [| split; [exact Htrace | split; [exact Hkeep | exact Hres]]].
      unfold Guardian.main. erewrite bind_ok by exact Hrun. exact Hcomb.
Qed.

Lemma X12_witness :
  valid_date (mkdate 2023 8 1) /\ valid_date (mkdate 2023 8 31) /\
  0 <= year (mkdate 2023 8 1) /\
  (months_to_visit (mkdate 2023 8 1) (mkdate 2023 8 31) <= 1)%nat /\
  (19 <= 19)%nat /\
  (exists total monthly_counts w1 res w',
     NYTimes.scrape_by_month (net_pages 500) 1 (mkdate 2023 8 1) (mkdate 2023 8 31) nyt_fresh =
       (Ok (total, monthly_counts), w1) /\
     NYTimes.main (net_pages 500) 1 to_datetime (mkdate 2023 8 1) (mkdate 2023 8 31) nyt_fresh =
       (res, w') /\
     trace w' = trace w1 /\
     (forall y m df, 0 <= y -> fs nyt_fresh !! NYTimes.csv_path y m = Some df ->
                     fs w' !! NYTimes.csv_path y m = Some df) /\
     match res with
     | Ok None => total = 0 /\ fs w' = fs nyt_fresh
     | Ok (Some combined) =>
         fs w' !! NYTimes.combined_path = Some combined /\
         Forall (fun r => parses (to_datetime (NYTimes.pub_date r)) = true) combined
     | Exc e => e = ValueError /\ w' = w1
     | OutOfFuel => False
     end) /\
  (exists total monthly_counts w1 res w',
     Guardian.scrape_by_month net_down 19 1 (mkdate 2023 8 1) (mkdate 2023 8 31) gdn_resumed =
       (Ok (total, monthly_counts), w1) /\
     Guardian.main net_down 19 1 to_datetime (mkdate 2023 8 1) (mkdate 2023 8 31) gdn_resumed =
       (res, w') /\
     trace w' = trace w1 /\
     (forall y m df, 0 <= y -> fs gdn_resumed !! Guardian.csv_path y m = Some df ->
                     fs w' !! Guardian.csv_path y m = Some df) /\
     match res with
     | Ok None => total = 0 /\ fs w' = fs gdn_resumed
     | Ok (Some combined) =>
         fs w' !! Guardian.combined_path = Some combined /\
         Forall (fun r => parses (to_datetime (Guardian.pub_date r)) = true) combined
     | Exc e => e = ValueError /\ w' = w1
     | OutOfFuel => False
     end).
Proof.
  assert (Hs : valid_date (mkdate 2023 8 1)) by valid_date_tac.
  assert (He : valid_date (mkdate 2023 8 31)) by valid_date_tac.
  assert (Hy : 0 <= year (mkdate 2023 8 1)) by (cbn; lia).
  assert (Hfuel : (months_to_visit (mkdate 2023 8 1) (mkdate 2023 8 31) <= 1)%nat)
    by fuel_tac.
  split; [exact Hs |]. split; [exact He |]. split; [exact Hy |]. split; [exact Hfuel |].
  split; [lia |]. split.
  - exact (proj1 X12_whole_script (net_pages 500) 1%nat to_datetime _ _ nyt_fresh
             Hs He Hy Hfuel).
  - exact (proj2 X12_whole_script net_down 19%nat 1%nat to_datetime _ _ gdn_resumed
             (le_n 19) Hs He Hy Hfuel).
Defined.

(** ** The frame of the multi-query pass *)

Section MergeDistinct.
Context {D : Type} (field : D -> JField).

Lemma merge_docs_NoDup (docs : list D) : forall all_docs seen_urls,
  (forall s, s ∈ seen_urls <-> CStr s ∈ map (raw_key field) all_docs) ->
  NoDup (map (raw_key field) all_docs) ->
  NoDup (map (raw_key field) (merge_docs field docs (all_docs, seen_urls)).1).
Proof.
  induction docs as [|d rest IH]; intros all_docs seen_urls Hinv Hnd; [exact Hnd |].
  rewrite merge_docs_cons. unfold merge_step.
  destruct (get (field d)) as [|url] eqn:Hd; [apply IH; assumption |].
  destruct (truthy (CStr url) && negb (bool_decide (url ∈ seen_urls))) eqn:Hg;
    [| apply IH; assumption].
  apply andb_true_iff in Hg as [_ Hnew]. apply negb_true_iff, bool_decide_eq_false in Hnew.
  apply IH.
  - intros s. rewrite elem_of_union, elem_of_singleton, Hinv.
    rewrite map_app, elem_of_app. cbn [map]. unfold raw_key at 3. rewrite Hd.
    rewrite list_elem_of_singleton. split.
    + intros [-> | H]; auto.
    + intros [H | [= ->]]; auto.
  - rewrite map_app. apply NoDup_app. split; [exact Hnd |]. split.
    + intros k Hk. cbn [map]. unfold raw_key at 1. rewrite Hd.
      rewrite list_elem_of_singleton. intros ->. apply Hnew, Hinv, Hk.
    + cbn [map]. apply NoDup_singleton.
Qed.

Lemma merged_NoDup (docs : list D) : NoDup (map (raw_key field) (merged field docs)).
Proof.
  apply merge_docs_NoDup; [| constructor].
  intros s. cbn. rewrite elem_of_empty, elem_of_nil. reflexivity.
Qed.
End MergeDistinct.

Lemma omap_keys_sublist {D R} (f : D -> option R) (key : R -> Cell) (dkey : D -> Cell) :
  (forall d r, f d = Some r -> key r = dkey d) ->
  forall l, sublist (map key (omap f l)) (map dkey l).
Proof.
  intros Hkey l. induction l as [|d l IH]; [constructor |].
  cbn [omap list_omap map]. destruct (f d) as [r|] eqn:Hr.
  - cbn [map]. rewrite (Hkey d r Hr). apply sublist_skip, IH.
  - apply sublist_cons, IH.
Qed.

Lemma get_default_truthy (f : JField) :
  truthy (get f) = true -> get_default f "" = get f.
Proof. destruct f; cbn; congruence. Qed.

Lemma merged_rows_NoDup {D R} (field : D -> JField) (parse_row : D -> option R)
    (key : R -> Cell) (docs : list D) :
  (forall d r, parse_row d = Some r -> key r = get_default (field d) "") ->
  NoDup (map key (omap parse_row (merged field docs))).
Proof.
  intros Hkey.
  eapply sublist_NoDup; [| apply (omap_keys_sublist _ _ _ Hkey)].
  erewrite map_ext_Forall; [apply (merged_NoDup field docs) |].
  eapply Forall_impl; [apply merged_truthy |].
  intros d Hd. apply get_default_truthy, Hd.
Qed.

Lemma sublist_map {A B} (f : A -> B) (l1 l2 : list A) :
  sublist l1 l2 -> sublist (map f l1) (map f l2).
Proof.
  induction 1; cbn [map]; [constructor | apply sublist_skip | apply sublist_cons]; assumption.
Qed.

Lemma merged_sublist {D} (field : D -> JField) (docs : list D) :
  sublist (merged field docs) docs.
Proof.
  destruct (merge_docs_invariant field docs [] ∅) as (kept & Hall & Hsub & _).
  { intros s. cbn. rewrite elem_of_empty, elem_of_nil. reflexivity. }
  unfold merged. rewrite Hall. exact Hsub.
Qed.

Lemma merged_rows_in_order {D R} (field : D -> JField) (parse_row : D -> option R)
    (key : R -> Cell) (docs : list D) :
  (forall d r, parse_row d = Some r -> key r = get_default (field d) "") ->
  sublist (map key (omap parse_row (merged field docs))) (map (raw_key field) docs).
Proof.
  intros Hkey.
  transitivity (map (raw_key field) (merged field docs)).
  - replace (map (raw_key field) (merged field docs))
      with (map (fun d => get_default (field d) "") (merged field docs));
      [apply (omap_keys_sublist _ _ _ Hkey) |].
    apply map_ext_Forall.
    eapply Forall_impl; [apply merged_truthy |].
    intros d Hd. apply get_default_truthy, Hd.
  - apply sublist_map, merged_sublist.
Qed.

(** X13: the frame parsed from the answer of the multi-query pass is
    already deduplicated: its keys are pairwise distinct and non-empty
    and follow the order in which the documents were first delivered, so
    [drop_duplicates] leaves it as it is (both scripts). *)
Theorem X13_multi_query_frame_is_deduplicated :
  (forall (net : Net NYTimes.Doc) y m page (w : World NYTimes.Doc NYTimes.Row),
      exists response evs,
        NYTimes.search_trump_covid_comprehensive net y m page w =
          (Ok response, log evs w) /\
        let df := NYTimes.parse_articles response in
        NoDup (map NYTimes.web_url df) /\
        Forall (fun r => nonempty_key (NYTimes.web_url r)) df /\
        sublist (map NYTimes.web_url df)
                (map (raw_key NYTimes.d_web_url) (delivered_docs evs)) /\
        drop_duplicates NYTimes.web_url df = df) /\
  (forall (net : Net Guardian.Doc) from_date to_date page
          (w : World Guardian.Doc Guardian.Row),
      exists response evs,
        Guardian.search_trump_covid_comprehensive net from_date to_date page w =
          (Ok response, log evs w) /\
        let df := Guardian.parse_guardian_articles response in
        NoDup (map Guardian.article_id df) /\
        Forall (fun r => nonempty_key (Guardian.article_id r)) df /\
        sublist (map Guardian.article_id df)
                (map (raw_key Guardian.d_id) (delivered_docs evs)) /\
        drop_duplicates Guardian.article_id df = df).
Proof.
  split.
  - intros net y m page w.
    destruct (NYTimesFacts.nyt_search_trump_covid_comprehensive_run net y m page w)
      as (evs & _ & Hrun & _).
    eexists _, evs. split; [exact Hrun |]. cbv zeta.
    assert (Hdf : NYTimes.parse_articles
                    match merged NYTimes.d_web_url (delivered_docs evs) with
                    | [] => None
                    | _ :: _ =>
                        Some (BResponse
                                (mkRespObj (Some (merged NYTimes.d_web_url (delivered_docs evs)))
                                   None None))
                    end =
                  omap NYTimes.parse_row (merged NYTimes.d_web_url (delivered_docs evs)))
      by (destruct (merged NYTimes.d_web_url (delivered_docs evs)); reflexivity).
    rewrite Hdf.
    pose proof (merged_rows_NoDup NYTimes.d_web_url NYTimes.parse_row NYTimes.web_url
                  (delivered_docs evs) nyt_parse_row_web_url) as Hnd.
    split; [exact Hnd |]. split; [apply nyt_multi_query_rows_nonempty |].
    split; [apply merged_rows_in_order, nyt_parse_row_web_url |].
    apply drop_duplicates_id, Hnd.
  - intros net from_date to_date page w.
    destruct (GuardianFacts.gdn_search_trump_covid_comprehensive_run net from_date to_date page w)
      as (evs & _ & Hrun & _).
    eexists _, evs. split; [exact Hrun |]. cbv zeta.
    assert (Hdf : Guardian.parse_guardian_articles
                    match merged Guardian.d_id (delivered_docs evs) with
                    | [] => None
                    | _ :: _ =>
                        Some (BResponse
                                (mkRespObj (Some (merged Guardian.d_id (delivered_docs evs)))
                                   None None))
                    end =
                  omap Guardian.parse_row (merged Guardian.d_id (delivered_docs evs)))
      by (destruct (merged Guardian.d_id (delivered_docs evs)); reflexivity).
    rewrite Hdf.
    pose proof (merged_rows_NoDup Guardian.d_id Guardian.parse_row Guardian.article_id
                  (delivered_docs evs) gdn_parse_row_article_id) as Hnd.
    split; [exact Hnd |]. split; [apply gdn_multi_query_rows_nonempty |].
    split; [apply merged_rows_in_order, gdn_parse_row_article_id |].
    apply drop_duplicates_id, Hnd.
Qed.

(** ** Pages and parsed rows *)

Lemma length_omap_le {A B} (f : A -> option B) (l : list A) :
  (length (omap f l) <= length l)%nat.
Proof.
  induction l as [|a l IH]; [constructor |].
  cbn [omap list_omap length]. destruct (f a); cbn [length]; lia.
Qed.

Lemma length_omap_lt {A B} (f : A -> option B) (l : list A) :
  Exists (fun a => f a = None) l -> (length (omap f l) < length l)%nat.
Proof.
  induction 1 as [a l Ha | a l _ IH]; cbn [omap list_omap length].
  - rewrite Ha. pose proof (length_omap_le f l). lia.
  - destruct (f a); cbn [length]; lia.
Qed.

Lemma omap_all_none {A B} (f : A -> option B) (l : list A) :
  Forall (fun a => f a = None) l -> omap f l = [].
Proof.
  induction 1 as [|a l Ha _ IH]; [reflexivity |].
  cbn [omap list_omap]. rewrite Ha. exact IH.
Qed.

Lemma delivered_body_truthy {D} (o : Outcome D) :
  delivered o <> [] -> body_truthy (single_result o) = true.
Proof.
  unfold delivered. destruct (single_result o) as [[| |r]|]; cbn; congruence.
Qed.

Lemma nyt_parse_articles_delivered (o : Outcome NYTimes.Doc) :
  NYTimes.parse_articles (single_result o) = omap NYTimes.parse_row (delivered o).
Proof.
  unfold delivered, NYTimes.parse_articles.
  destruct (single_result o) as [[| |r]|]; try reflexivity.
  destruct (r_docs r); reflexivity.
Qed.

Lemma gdn_parse_articles_delivered (o : Outcome Guardian.Doc) :
  Guardian.parse_guardian_articles (single_result o) =
  omap Guardian.parse_row (delivered o).
Proof.
  unfold delivered, Guardian.parse_guardian_articles.
  destruct (single_result o) as [[| |r]|]; try reflexivity.
  destruct (r_docs r); reflexivity.
Qed.

(** X14: a page is judged by the rows parsed from it, not by the
    documents it carried.  The frame of a page holds the rows of the
    delivered documents that parse, so never more rows than documents;
    on NYTimes a page of at most 10 documents one of which does not
    parse counts as a short page and ends the pagination; on the
    Guardian a page none of whose documents parses counts as an empty
    page. *)
Theorem X14_pages_are_judged_by_parsed_rows :
  (forall o : Outcome NYTimes.Doc,
      NYTimes.parse_articles (single_result o) = omap NYTimes.parse_row (delivered o) /\
      NYTimes.len (NYTimes.parse_articles (single_result o)) <= NYTimes.len (delivered o)) /\
  (forall o : Outcome NYTimes.Doc,
      NYTimes.len (delivered o) <= 10 ->
      Exists (fun d => NYTimes.parse_row d = None) (delivered o) ->
      NYTimes.short_page o = true /\ NYTimes.page_stops o = true) /\
  (forall o : Outcome Guardian.Doc,
      Guardian.parse_guardian_articles (single_result o) =
        omap Guardian.parse_row (delivered o) /\
      Guardian.len (Guardian.parse_guardian_articles (single_result o)) <=
        Guardian.len (delivered o)) /\
  (forall o : Outcome Guardian.Doc,
      delivered o <> [] ->
      Forall (fun d => Guardian.parse_row d = None) (delivered o) ->
      Guardian.empty_page o = true /\ Guardian.page_stops o = true).
Proof.
  split; [| split; [| split]].
  - intros o. split; [apply nyt_parse_articles_delivered |].
    rewrite nyt_parse_articles_delivered. unfold NYTimes.len.
    pose proof (length_omap_le NYTimes.parse_row (delivered o)). lia.
  - intros o Hlen Hbad.
    assert (Hshort : NYTimes.short_page o = true).
    { unfold NYTimes.short_page. rewrite delivered_body_truthy.
      - rewrite nyt_parse_articles_delivered. cbn [andb]. apply Z.ltb_lt.
        unfold NYTimes.len in *.
        pose proof (length_omap_lt NYTimes.parse_row (delivered o) Hbad). lia.
      - intros Hnil. rewrite Hnil in Hbad. inversion Hbad. }
    split; [exact Hshort |]. unfold NYTimes.page_stops. rewrite Hshort.
    apply orb_true_r.
  - intros o. split; [apply gdn_parse_articles_delivered |].
    rewrite gdn_parse_articles_delivered. unfold Guardian.len.
    pose proof (length_omap_le Guardian.parse_row (delivered o)). lia.
  - intros o Hne Hbad.
    assert (Hempty : Guardian.empty_page o = true).
    { unfold Guardian.empty_page. rewrite (delivered_body_truthy o Hne).
      rewrite gdn_parse_articles_delivered, (omap_all_none _ _ Hbad). reflexivity. }
    split; [exact Hempty |]. unfold Guardian.page_stops. rewrite Hempty.
    rewrite orb_true_r. reflexivity.
Qed.

Lemma X14_witness :
  NYTimes.len (delivered nyt_page_bad_headline) <= 10 /\
  Exists (fun d => NYTimes.parse_row d = None) (delivered nyt_page_bad_headline) /\
  delivered gdn_page_bad_fields <> [] /\
  Forall (fun d => Guardian.parse_row d = None) (delivered gdn_page_bad_fields) /\
  (NYTimes.short_page nyt_page_bad_headline = true /\
   NYTimes.page_stops nyt_page_bad_headline = true) /\
  (Guardian.empty_page gdn_page_bad_fields = true /\
   Guardian.page_stops gdn_page_bad_fields = true).
Proof.
  assert (Hlen : NYTimes.len (delivered nyt_page_bad_headline) <= 10)
    by (vm_compute; discriminate).
  assert (Hbad : Exists (fun d => NYTimes.parse_row d = None)
                   (delivered nyt_page_bad_headline))
    by (apply Exists_cons_tl, Exists_cons_hd; reflexivity).
  assert (Hne : delivered gdn_page_bad_fields <> []) by discriminate.
  assert (Hall : Forall (fun d => Guardian.parse_row d = None)
                   (delivered gdn_page_bad_fields))
    by (repeat constructor).
  split; [exact Hlen |]. split; [exact Hbad |]. split; [exact Hne |]. split; [exact Hall |].
  split.
  - exact (proj1 (proj2 X14_pages_are_judged_by_parsed_rows)
             nyt_page_bad_headline Hlen Hbad).
  - exact (proj2 (proj2 (proj2 X14_pages_are_judged_by_parsed_rows))
             gdn_page_bad_fields Hne Hall).
Defined.

(** ** The windows of the months *)

Lemma date_leb_spec d1 d2 :
  date_leb d1 d2 = true <->
  year d1 < year d2 \/
  (year d1 = year d2 /\
   (month d1 < month d2 \/ (month d1 = month d2 /\ day d1 <= day d2))).
Proof.
  unfold date_leb.
  rewrite orb_true_iff, andb_true_iff, orb_true_iff, andb_true_iff.
  rewrite !Z.ltb_lt, !Z.eqb_eq, Z.leb_le. reflexivity.
Qed.

Lemma months_from_In n : forall current y m,
  1 <= month current <= 12 -> 1 <= m <= 12 ->
  month_index (year current) (month current) <= month_index y m <
    month_index (year current) (month current) + Z.of_nat n ->
  In (y, m) (months_from current n).
Proof.
  induction n as [|n IH]; intros current y m Hcur Hm Hidx; [lia |].
  cbn [months_from].
  destruct (Z.eq_dec (month_index y m) (month_index (year current) (month current)))
    as [Heq | Hne].
  - left. unfold month_index in Heq. f_equal; lia.
  - right. destruct (next_month_index current Hcur) as [Hnext Hnextm].
    apply IH; [exact Hnextm | exact Hm |]. rewrite Hnext. lia.
Qed.

Lemma months_to_visit_count start_date end_date :
  1 <= month start_date <= 12 -> 1 <= month end_date <= 12 ->
  date_leb start_date end_date = true ->
  Z.of_nat (months_to_visit start_date end_date) =
  month_index (year end_date) (month end_date) -
  month_index (year start_date) (month start_date) + 1.
Proof.
  intros Hs He Hle. unfold months_to_visit. rewrite Hle.
  destruct (date_leb_index _ _ Hle) as [Hidx | Hbad]; [| tauto].
  unfold month_span. rewrite length_map, length_seq. lia.
Qed.

(** X15: the windows of the months tile the calendar.  A date lies in
    the window of its own month and of no other month, and when it lies
    between the start date and the end date of a backfill, its month is
    among the months the driver visits. *)
Theorem X15_month_windows_tile_the_range :
  forall start_date end_date d,
    valid_date start_date -> valid_date end_date -> valid_date d ->
    date_leb start_date d = true -> date_leb d end_date = true ->
    In (year d, month d)
       (months_from start_date (months_to_visit start_date end_date)) /\
    forall y m, 1 <= m <= 12 ->
      (date_leb (month_window y m).1 d && date_leb d (month_window y m).2 = true <->
       (y, m) = (year d, month d)).
Proof.
  intros start_date end_date d [Hs _] [He _] [Hd Hday] Hsd Hde.
  pose proof (proj1 (date_leb_spec _ _) Hsd) as Hsd'.
  pose proof (proj1 (date_leb_spec _ _) Hde) as Hde'.
  assert (Hse : date_leb start_date end_date = true) by (apply date_leb_spec; lia).
  split.
  - apply months_from_In; [exact Hs | exact Hd |].
    rewrite (months_to_visit_count _ _ Hs He Hse). unfold month_index. lia.
  - intros y m Hm. rewrite (month_window_first_last y m Hm). cbn [fst snd].
    rewrite andb_true_iff, !date_leb_spec. cbn [year month day]. split.
    + intros [H1 H2]. f_equal; lia.
    + intros [= -> ->]. lia.
Qed.

Lemma X15_witness :
  valid_date (mkdate 2023 8 1) /\ valid_date (mkdate 2023 9 30) /\
  valid_date (mkdate 2023 9 15) /\
  date_leb (mkdate 2023 8 1) (mkdate 2023 9 15) = true /\
  date_leb (mkdate 2023 9 15) (mkdate 2023 9 30) = true /\
  In (2023, 9)
     (months_from (mkdate 2023 8 1)
        (months_to_visit (mkdate 2023 8 1) (mkdate 2023 9 30))) /\
  forall y m, 1 <= m <= 12 ->
    (date_leb (month_window y m).1 (mkdate 2023 9 15) &&
     date_leb (mkdate 2023 9 15) (month_window y m).2 = true <->
     (y, m) = (2023, 9)).
Proof.
  assert (Hs : valid_date (mkdate 2023 8 1)) by valid_date_tac.
  assert (He : valid_date (mkdate 2023 9 30)) by valid_date_tac.
  assert (Hd : valid_date (mkdate 2023 9 15)) by valid_date_tac.
  assert (H1 : date_leb (mkdate 2023 8 1) (mkdate 2023 9 15) = true) by reflexivity.
  assert (H2 : date_leb (mkdate 2023 9 15) (mkdate 2023 9 30) = true) by reflexivity.
  split; [exact Hs |]. split; [exact He |]. split; [exact Hd |].
  split; [exact H1 |]. split; [exact H2 |].
  exact (X15_month_windows_tile_the_range _ _ _ Hs He Hd H1 H2).
Defined.

(** ** No request is sent twice *)

Lemma NoDup_map_inj {A B} (f : A -> B) (l : list A) :
  (forall a b, f a = f b -> a = b) -> NoDup l -> NoDup (map f l).
Proof.
  intros Hinj. induction 1 as [|a l Ha _ IH]; cbn [map]; [constructor |].
  constructor; [| exact IH].
  intros Hin. apply list_elem_of_In, in_map_iff in Hin as (b & Hb & Hin).
  apply Hinj in Hb. subst b. apply Ha, list_elem_of_In, Hin.
Qed.

Lemma month_requests_NoDup (s e : date) (page : Z) (ps : list Z) :
  NoDup ps ->
  NoDup (map (fun q => mkRequest q s e page) queries ++
         map (fun p => mkRequest QSingle s e p) ps).
Proof.
  intros Hps. apply NoDup_app. split; [| split].
  - apply NoDup_map_inj; [intros a b [= ->]; reflexivity |].
    unfold queries. repeat constructor; rewrite ?elem_of_cons, ?elem_of_nil; intuition discriminate.
  - intros rq Hq Hp.
    apply list_elem_of_In, in_map_iff in Hq as (q & <- & Hq).
    apply list_elem_of_In, in_map_iff in Hp as (p & Hp & _).
    injection Hp as Hquery _. subst q.
    unfold queries in Hq. cbn in Hq. intuition discriminate.
  - apply NoDup_map_inj; [intros a b [= ->]; reflexivity | exact Hps].
Qed.

(** X16: no request is sent twice within the fetch of a month, so a
    request that failed or was rate limited is never tried again: the
    requests of a month are the five queries on the first page, then
    the broad query on consecutive pages (1 to at most 14 on NYTimes, 2
    to at most 20 on the Guardian), each once. *)
Theorem X16_no_request_is_retried :
  (forall (net : Net NYTimes.Doc) y m (w : World NYTimes.Doc NYTimes.Row),
      exists df evs k,
        NYTimes.get_all_articles_for_month net y m w = (Ok df, log evs w) /\
        (1 <= k <= 14)%nat /\
        requests_of evs =
          NYTimes.query_requests (month_window y m).1 (month_window y m).2 0 ++
          NYTimes.page_requests (month_window y m).1 (month_window y m).2
            (firstn k NYTimes.pages) /\
        NoDup (requests_of evs)) /\
  (forall (net : Net Guardian.Doc) pfuel y m (w : World Guardian.Doc Guardian.Row),
      (19 <= pfuel)%nat ->
      exists df evs k,
        Guardian.get_all_articles_for_month net pfuel y m w = (Ok df, log evs w) /\
        (1 <= k <= 19)%nat /\
        requests_of evs =
          Guardian.query_requests (month_window y m).1 (month_window y m).2 1 ++
          Guardian.page_requests (month_window y m).1 (month_window y m).2
            (Guardian.pages_from 2 k) /\
        NoDup (requests_of evs)).
Proof.
  split.
  - intros net y m w.
    destruct (NYTimesFacts.nyt_get_all_articles_for_month_run net y m w)
      as (evs_q & evs_p & Hrun & Hq & Hp & Hstops & _).
    pose proof (stops_at_first_length _ _ _ Hstops) as Hlen.
    pose proof (stops_at_first_nonempty _ _ _ Hstops) as Hne.
    eexists _, _, (length (outcomes_of evs_p)). split; [exact Hrun |].
    split; [destruct (outcomes_of evs_p); [congruence | cbn in *; lia] |].
    rewrite requests_of_app, Hq, Hp. split; [reflexivity |].
    apply month_requests_NoDup.
    eapply sublist_NoDup; [| apply sublist_take].
    unfold NYTimes.pages, py_range.
    apply NoDup_map_inj; [intros a b; lia | apply NoDup_seq].
  - intros net pfuel y m w Hpf.
    destruct (GuardianFacts.gdn_get_all_articles_for_month_run net pfuel y m w Hpf)
      as (evs_q & evs_p & Hrun & Hq & Hp & Hstops & _).
    pose proof (stops_at_first_length _ _ _ Hstops) as Hlen.
    pose proof (stops_at_first_nonempty _ _ _ Hstops) as Hne.
    eexists _, _, (length (outcomes_of evs_p)). split; [exact Hrun |].
    split; [destruct (outcomes_of evs_p); [congruence | cbn in *; lia] |].
    rewrite requests_of_app, Hq, Hp. split; [reflexivity |].
    apply month_requests_NoDup.
    unfold Guardian.pages_from.
    apply NoDup_map_inj; [intros a b; lia | apply NoDup_seq].
Qed.

Lemma X16_witness :
  (19 <= 19)%nat /\
  exists df evs k,
    Guardian.get_all_articles_for_month gdn_net_quiet 19 2023 8 gdn_fresh =
      (Ok df, log evs gdn_fresh) /\
    (1 <= k <= 19)%nat /\
    requests_of evs =
      Guardian.query_requests (month_window 2023 8).1 (month_window 2023 8).2 1 ++
      Guardian.page_requests (month_window 2023 8).1 (month_window 2023 8).2
        (Guardian.pages_from 2 k) /\
    NoDup (requests_of evs).
Proof.
  split; [lia |].
  exact (proj2 X16_no_request_is_retried gdn_net_quiet 19%nat 2023 8 gdn_fresh (le_n 19)).
Defined.

Lemma NoDup_map_inv {A B} (f : A -> B) (l : list A) :
  NoDup (map f l) -> NoDup l.
Proof.
  induction l as [|a l IH]; cbn [map]; intros H; [constructor |].
  apply NoDup_cons in H as [Ha Hl]. constructor; [| apply IH, Hl].
  intros Hin. apply Ha, list_elem_of_In, in_map, list_elem_of_In, Hin.
Qed.

Lemma months_from_NoDup current n :
  1 <= month current <= 12 -> NoDup (months_from current n).
Proof.
  intros Hcur. destruct (months_from_index current n Hcur) as [Hidx _].
  apply (NoDup_map_inv (fun ym => month_index ym.1 ym.2)). rewrite Hidx.
  apply NoDup_map_inj; [intros a b; lia | apply NoDup_seq].
Qed.

Lemma nyt_pages_NoDup k : NoDup (firstn k NYTimes.pages).
Proof.
  eapply sublist_NoDup; [| apply sublist_take].
  unfold NYTimes.pages, py_range.
  apply NoDup_map_inj; [intros a b; lia | apply NoDup_seq].
Qed.

Lemma gdn_pages_NoDup page k : NoDup (Guardian.pages_from page k).
Proof.
  unfold Guardian.pages_from.
  apply NoDup_map_inj; [intros a b; lia | apply NoDup_seq].
Qed.

Lemma month_requests_from (s e : date) (page : Z) (ps : list Z) :
  Forall (fun rq => rq_from rq = s)
    (map (fun q => mkRequest q s e page) queries ++
     map (fun p => mkRequest QSingle s e p) ps).
Proof.
  apply Forall_app. split; apply Forall_map, Forall_forall; intros x _; reflexivity.
Qed.

Section VisitRequests.
Context {D R : Type} (body : Z -> Z -> M D R (list R * Z)).

Hypothesis body_requests : forall y m (w : World D R),
  exists a w' evs,
    body y m w = (Ok a, w') /\ trace w' = trace w ++ evs /\
    NoDup (requests_of evs) /\
    Forall (fun rq => rq_from rq = mkdate y m 1) (requests_of evs).

Lemma visit_months_requests (months : list (Z * Z)) :
  NoDup months ->
  forall total monthly_counts (w : World D R),
  exists res w' evs,
    visit_months body months total monthly_counts w = (Ok res, w') /\
    trace w' = trace w ++ evs /\
    NoDup (requests_of evs) /\
    Forall (fun rq => exists ym, In ym months /\ rq_from rq = mkdate ym.1 ym.2 1)
      (requests_of evs).
Proof.
  induction 1 as [|[y m] rest Hnew _ IH]; intros total monthly_counts w.
  - exists (total, monthly_counts), w, []. rewrite app_nil_r.
    split; [reflexivity |]. split; [reflexivity |]. split; constructor.
  - destruct (body_requests y m w) as ([df count] & w1 & evs1 & Hbody & Htr1 & Hnd1 & Hfrom1).
    cbn [visit_months]. erewrite bind_ok by exact Hbody.
    destruct (IH (total + count) (monthly_counts ++ [(y, m, count)]) w1)
      as (res & w' & evs2 & Hrun & Htr2 & Hnd2 & Hfrom2).
    exists res, w', (evs1 ++ evs2). split; [exact Hrun |].
    split; [rewrite Htr2, Htr1, app_assoc; reflexivity |].
    rewrite requests_of_app. split.
    + apply NoDup_app. split; [exact Hnd1 |]. split; [| exact Hnd2].
      intros rq Hin1 Hin2.
      rewrite Forall_forall in Hfrom1, Hfrom2.
      specialize (Hfrom1 rq Hin1). destruct (Hfrom2 rq Hin2) as ([y' m'] & Hym & Hfrom').
      rewrite Hfrom1 in Hfrom'. cbn [fst snd] in Hfrom'. injection Hfrom' as -> ->.
      apply Hnew, list_elem_of_In, Hym.
    + apply Forall_app. split.
      * eapply Forall_impl; [exact Hfrom1 |]. intros rq Hrq.
        exists (y, m). split; [left; reflexivity | exact Hrq].
      * eapply Forall_impl; [exact Hfrom2 |]. intros rq (ym & Hym & Hrq).
        exists ym. split; [right; exact Hym | exact Hrq].
Qed.
End VisitRequests.

Lemma nyt_month_body_requests (net : Net NYTimes.Doc) y m
    (w : World NYTimes.Doc NYTimes.Row) :
  exists a w' evs,
    NYTimes.month_body net y m w = (Ok a, w') /\ trace w' = trace w ++ evs /\
    NoDup (requests_of evs) /\
    Forall (fun rq => rq_from rq = mkdate y m 1) (requests_of evs).
Proof.
  destruct (fs w !! NYTimes.csv_path y m) as [df|] eqn:Hf.
  - eexists _, w, []. rewrite (NYTimesFacts.nyt_month_body_resume net y m w df Hf).
    rewrite app_nil_r. split; [reflexivity |]. split; [reflexivity |]. split; constructor.
  - destruct (NYTimesFacts.nyt_month_body_fetch net y m w Hf)
      as (evs_q & evs_p & Hrun & Hq & Hp & _).
    cbv zeta in Hrun. eexists _, _, (evs_q ++ evs_p). split; [exact Hrun |].
    split; [reflexivity |]. rewrite requests_of_app, Hq, Hp.
    split; [apply month_requests_NoDup, nyt_pages_NoDup |].
    apply (month_requests_from (mkdate y m 1)).
Qed.

Lemma gdn_month_body_requests (net : Net Guardian.Doc) pfuel y m
    (w : World Guardian.Doc Guardian.Row) :
  (19 <= pfuel)%nat ->
  exists a w' evs,
    Guardian.month_body net pfuel y m w = (Ok a, w') /\ trace w' = trace w ++ evs /\
    NoDup (requests_of evs) /\
    Forall (fun rq => rq_from rq = mkdate y m 1) (requests_of evs).
Proof.
  intros Hpf. destruct (fs w !! Guardian.csv_path y m) as [df|] eqn:Hf.
  - eexists _, w, []. rewrite (GuardianFacts.gdn_month_body_resume net pfuel y m w df Hf).
    rewrite app_nil_r. split; [reflexivity |]. split; [reflexivity |]. split; constructor.
  - destruct (GuardianFacts.gdn_month_body_fetch net pfuel y m w Hpf Hf)
      as (evs_q & evs_p & Hrun & Hq & Hp & _).
    cbv zeta in Hrun. eexists _, _, (evs_q ++ evs_p). split; [exact Hrun |].
    split; [reflexivity |]. rewrite requests_of_app, Hq, Hp.
    split; [apply month_requests_NoDup, gdn_pages_NoDup |].
    apply (month_requests_from (mkdate y m 1)).
Qed.

(** X17: a backfill never sends the same request twice: the requests of
    a run of the driver are pairwise distinct, and each asks for a
    window that begins on the first day of a month the driver
    visits. *)
Theorem X17_backfill_sends_no_request_twice :
  (forall (net : Net NYTimes.Doc) fuel start_date end_date
          (w : World NYTimes.Doc NYTimes.Row),
      valid_date start_date -> valid_date end_date ->
      (months_to_visit start_date end_date <= fuel)%nat ->
      exists res w' evs,
        NYTimes.scrape_by_month net fuel start_date end_date w = (Ok res, w') /\
        trace w' = trace w ++ evs /\
        NoDup (requests_of evs) /\
        Forall (fun rq =>
                  exists ym,
                    In ym (months_from start_date (months_to_visit start_date end_date)) /\
                    rq_from rq = mkdate ym.1 ym.2 1)
          (requests_of evs)) /\
  (forall (net : Net Guardian.Doc) pfuel fuel start_date end_date
          (w : World Guardian.Doc Guardian.Row),
      (19 <= pfuel)%nat ->
      valid_date start_date -> valid_date end_date ->
      (months_to_visit start_date end_date <= fuel)%nat ->
      exists res w' evs,
        Guardian.scrape_by_month net pfuel fuel start_date end_date w = (Ok res, w') /\
        trace w' = trace w ++ evs /\
        NoDup (requests_of evs) /\
        Forall (fun rq =>
                  exists ym,
                    In ym (months_from start_date (months_to_visit start_date end_date)) /\
                    rq_from rq = mkdate ym.1 ym.2 1)
          (requests_of evs)).
Proof.
  split.
  - intros net fuel start_date end_date w [Hs _] He Hfuel.
    unfold NYTimes.scrape_by_month.
    rewrite (nyt_scrape_loop_as_visit net end_date fuel start_date 0 [] w He Hs Hfuel).
    apply (visit_months_requests (NYTimes.month_body net) (nyt_month_body_requests net)).
    apply months_from_NoDup, Hs.
  - intros net pfuel fuel start_date end_date w Hpf [Hs _] He Hfuel.
    unfold Guardian.scrape_by_month.
    rewrite (gdn_scrape_loop_as_visit net pfuel end_date fuel start_date 0 [] w He Hs Hfuel).
    apply (visit_months_requests (Guardian.month_body net pfuel)
             (fun y m w0 => gdn_month_body_requests net pfuel y m w0 Hpf)).
    apply months_from_NoDup, Hs.
Qed.

Lemma X17_witness :
  valid_date (mkdate 2023 8 1) /\ valid_date (mkdate 2023 9 30) /\
  (months_to_visit (mkdate 2023 8 1) (mkdate 2023 9 30) <= 2)%nat /\
  (19 <= 19)%nat /\
  (exists res w' evs,
     NYTimes.scrape_by_month (net_pages 500) 2 (mkdate 2023 8 1) (mkdate 2023 9 30)
       nyt_fresh = (Ok res, w') /\
     trace w' = trace nyt_fresh ++ evs /\
     NoDup (requests_of evs) /\
     Forall (fun rq =>
               exists ym,
                 In ym (months_from (mkdate 2023 8 1)
                          (months_to_visit (mkdate 2023 8 1) (mkdate 2023 9 30))) /\
                 rq_from rq = mkdate ym.1 ym.2 1)
       (requests_of evs)) /\
  (exists res w' evs,
     Guardian.scrape_by_month gdn_net_quiet 19 2 (mkdate 2023 8 1) (mkdate 2023 9 30)
       gdn_fresh = (Ok res, w') /\
     trace w' = trace gdn_fresh ++ evs /\
     NoDup (requests_of evs) /\
     Forall (fun rq =>
               exists ym,
                 In ym (months_from (mkdate 2023 8 1)
                          (months_to_visit (mkdate 2023 8 1) (mkdate 2023 9 30))) /\
                 rq_from rq = mkdate ym.1 ym.2 1)
       (requests_of evs)).
Proof.
  assert (Hs : valid_date (mkdate 2023 8 1)) by valid_date_tac.
  assert (He : valid_date (mkdate 2023 9 30)) by valid_date_tac.
  assert (Hfuel : (months_to_visit (mkdate 2023 8 1) (mkdate 2023 9 30) <= 2)%nat)
    by fuel_tac.
  split; [exact Hs |]. split; [exact He |]. split; [exact Hfuel |]. split; [lia |].
  split.
  - exact (proj1 X17_backfill_sends_no_request_twice (net_pages 500) 2%nat _ _ nyt_fresh
             Hs He Hfuel).
  - exact (proj2 X17_backfill_sends_no_request_twice gdn_net_quiet 19%nat 2%nat _ _ gdn_fresh
             (le_n 19) Hs He Hfuel).
Defined.

(** ** The Monthly Dataset and the documents that arrived *)

Lemma sublist_omap_inv {A B} (f : A -> option B) (ds : list A) :
  forall l, sublist l (omap f ds) ->
  exists ds', sublist ds' ds /\ Forall2 (fun d r => f d = Some r) ds' l.
Proof.
  induction ds as [|d ds IH]; intros l Hl; cbn [omap list_omap] in Hl.
  - apply sublist_nil_r in Hl. subst l. exists []. split; constructor.
  - destruct (f d) as [r|] eqn:Hd.
    + apply sublist_cons_r in Hl as [Hl | (l' & -> & Hl)].
      * destruct (IH l Hl) as (ds' & Hsub & Hall).
        exists ds'. split; [apply sublist_cons, Hsub | exact Hall].
      * destruct (IH l' Hl) as (ds' & Hsub & Hall).
        exists (d :: ds'). split; [apply sublist_skip, Hsub |].
        constructor; [exact Hd | exact Hall].
    + destruct (IH l Hl) as (ds' & Hsub & Hall).
      exists ds'. split; [apply sublist_cons, Hsub | exact Hall].
Qed.

Lemma In_omap {A B} (f : A -> option B) (ds : list A) d r :
  In d ds -> f d = Some r -> In r (omap f ds).
Proof.
  intros Hd Hr. apply list_elem_of_In, list_elem_of_omap.
  exists d. split; [apply list_elem_of_In, Hd | exact Hr].
Qed.

Lemma nyt_month_rows_delivered (evs_q evs_p : list (Event NYTimes.Doc)) :
  NYTimes.month_rows evs_q evs_p =
  omap NYTimes.parse_row
    (merged NYTimes.d_web_url (delivered_docs evs_q) ++ delivered_docs evs_p).
Proof.
  unfold NYTimes.month_rows. rewrite omap_app. f_equal.
  unfold delivered_docs. induction (outcomes_of evs_p) as [|o os IH]; [reflexivity |].
  cbn [flat_map]. rewrite omap_app, IH, nyt_parse_articles_delivered. reflexivity.
Qed.

Lemma gdn_month_rows_delivered (evs_q evs_p : list (Event Guardian.Doc)) :
  Guardian.month_rows evs_q evs_p =
  omap Guardian.parse_row
    (merged Guardian.d_id (delivered_docs evs_q) ++ delivered_docs evs_p).
Proof.
  unfold Guardian.month_rows. rewrite omap_app. f_equal.
  unfold delivered_docs. induction (outcomes_of evs_p) as [|o os IH]; [reflexivity |].
  cbn [flat_map]. rewrite omap_app, IH, gdn_parse_articles_delivered. reflexivity.
Qed.

Section MonthlyFrame.
Context {D R : Type} (field : D -> JField) (parse_row : D -> option R) (key : R -> Cell).
Hypothesis parse_row_key :
  forall d r, parse_row d = Some r -> key r = get_default (field d) "".

(** The frame of a month against the documents [docs_q] that arrived in
    the multi-query pass and the documents [docs_p] that arrived in the
    pagination pass. *)
Lemma monthly_frame (docs_q docs_p : list D) :
  let df := drop_duplicates key (omap parse_row (merged field docs_q ++ docs_p)) in
  NoDup (map key df) /\
  (exists ds, sublist ds (docs_q ++ docs_p) /\
              Forall2 (fun d r => parse_row d = Some r) ds df) /\
  (forall d r, In d docs_p -> parse_row d = Some r ->
               exists r', In r' df /\ key r' = key r) /\
  (forall k d0 r, k <> "" ->
     first_with (raw_key field) (CStr k) docs_q = [d0] ->
     parse_row d0 = Some r ->
     exists r', In r' df /\ key r' = CStr k).
Proof.
  cbv zeta. split; [apply drop_duplicates_NoDup |]. split; [| split].
  - destruct (sublist_omap_inv parse_row (merged field docs_q ++ docs_p) _
                (drop_duplicates_seen_sublist key
                   (omap parse_row (merged field docs_q ++ docs_p)) []))
      as (ds & Hsub & Hall).
    exists ds. split; [| exact Hall].
    etrans; [exact Hsub |]. apply sublist_app; [apply merged_sublist | reflexivity].
  - intros d r Hd Hr. apply drop_duplicates_covers.
    apply (In_omap parse_row _ d r); [| exact Hr]. apply in_or_app. right. exact Hd.
  - intros k d0 r Hk Hfirst Hr.
    assert (Hin : In d0 (List.filter (has_key (raw_key field) (CStr k)) (merged field docs_q)))
      by (rewrite (merged_first field k docs_q Hk), Hfirst; left; reflexivity).
    apply filter_In in Hin as [Hin Hkey].
    apply bool_decide_eq_true in Hkey.
    destruct (drop_duplicates_covers key
                (omap parse_row (merged field docs_q ++ docs_p)) r) as (r' & Hr' & Hk').
    { apply (In_omap parse_row _ d0 r); [| exact Hr]. apply in_or_app. left. exact Hin. }
    exists r'. split; [exact Hr' |]. rewrite Hk', (parse_row_key d0 r Hr).
    unfold raw_key in Hkey. destruct (field d0); cbn in Hkey |- *; congruence.
Qed.
End MonthlyFrame.

(** A month in which documents arrive that leave no row: on the network
    [nyt_net_mixed] the keys [u0], [''], [u1] and [u2] arrive, and the
    frame of the month holds [u0] and [u1]; the document with the key
    [''] is refused by the merge loop and the one with the key [u2] does
    not parse. *)
Example nyt_month_with_dropped_documents :
  fst (NYTimes.get_all_articles_for_month nyt_net_mixed 2023 8 nyt_fresh) =
    Ok [nyt_row "u0" "2023-08-03"; nyt_row "u1" "2023-08-01"] /\
  map (raw_key NYTimes.d_web_url)
      (delivered_docs
         (trace (snd (NYTimes.get_all_articles_for_month nyt_net_mixed 2023 8 nyt_fresh)))) =
    [CStr "u0"; CStr ""; CStr "u1"; CStr "u2"].
Proof. split; vm_compute; reflexivity. Qed.

(** X3: the frame [get_all_articles_for_month] returns, against the
    documents that arrived for the month.  Its keys are pairwise
    distinct; its rows are rows parsed from documents that arrived, in
    the order of arrival (multi-query pass first, then the pages); the
    key of a document of a page is in the frame when the document
    parses; the non-empty key of a document of the multi-query pass is
    in the frame when the first document that arrived with this key
    parses.  A document that does not parse, or whose key is empty in
    the multi-query pass, leaves no row. *)
Theorem X3_monthly_dataset :
  (forall (net : Net NYTimes.Doc) y m (w : World NYTimes.Doc NYTimes.Row),
      exists df evs_q evs_p,
        NYTimes.get_all_articles_for_month net y m w = (Ok df, log (evs_q ++ evs_p) w) /\
        answered net (trace w) (evs_q ++ evs_p) /\
        requests_of evs_q =
          NYTimes.query_requests (month_window y m).1 (month_window y m).2 0 /\
        Forall (fun rq => rq_query rq = QSingle) (requests_of evs_p) /\
        NoDup (map NYTimes.web_url df) /\
        (exists ds, sublist ds (delivered_docs (evs_q ++ evs_p)) /\
                    Forall2 (fun d r => NYTimes.parse_row d = Some r) ds df) /\
        (forall d r, In d (delivered_docs evs_p) -> NYTimes.parse_row d = Some r ->
                     exists r', In r' df /\ NYTimes.web_url r' = NYTimes.web_url r) /\
        (forall k d0 r, k <> "" ->
           first_with (raw_key NYTimes.d_web_url) (CStr k) (delivered_docs evs_q) = [d0] ->
           NYTimes.parse_row d0 = Some r ->
           exists r', In r' df /\ NYTimes.web_url r' = CStr k)) /\
  (forall (net : Net Guardian.Doc) pfuel y m (w : World Guardian.Doc Guardian.Row),
      (19 <= pfuel)%nat ->
      exists df evs_q evs_p,
        Guardian.get_all_articles_for_month net pfuel y m w =
          (Ok df, log (evs_q ++ evs_p) w) /\
        answered net (trace w) (evs_q ++ evs_p) /\
        requests_of evs_q =
          Guardian.query_requests (month_window y m).1 (month_window y m).2 1 /\
        Forall (fun rq => rq_query rq = QSingle) (requests_of evs_p) /\
        NoDup (map Guardian.article_id df) /\
        (exists ds, sublist ds (delivered_docs (evs_q ++ evs_p)) /\
                    Forall2 (fun d r => Guardian.parse_row d = Some r) ds df) /\
        (forall d r, In d (delivered_docs evs_p) -> Guardian.parse_row d = Some r ->
                     exists r', In r' df /\ Guardian.article_id r' = Guardian.article_id r) /\
        (forall k d0 r, k <> "" ->
           first_with (raw_key Guardian.d_id) (CStr k) (delivered_docs evs_q) = [d0] ->
           Guardian.parse_row d0 = Some r ->
           exists r', In r' df /\ Guardian.article_id r' = CStr k)).
Proof.
  split.
  - intros net y m w.
    destruct (NYTimesFacts.nyt_get_all_articles_for_month_run net y m w)
      as (evs_q & evs_p & Hrun & Hq & Hp & _ & _ & Hans).
    rewrite nyt_month_rows_delivered in Hrun.
    eexists _, evs_q, evs_p. split; [exact Hrun |]. split; [exact Hans |].
    split; [exact Hq |].
    split; [rewrite Hp; apply Forall_map, Forall_forall; intros p _; reflexivity |].
    rewrite delivered_docs_app.
    apply (monthly_frame NYTimes.d_web_url NYTimes.parse_row NYTimes.web_url
             nyt_parse_row_web_url).
  - intros net pfuel y m w Hpf.
    destruct (GuardianFacts.gdn_get_all_articles_for_month_run net pfuel y m w Hpf)
      as (evs_q & evs_p & Hrun & Hq & Hp & _ & _ & Hans).
    rewrite gdn_month_rows_delivered in Hrun.
    eexists _, evs_q, evs_p. split; [exact Hrun |]. split; [exact Hans |].
    split; [exact Hq |].
    split; [rewrite Hp; apply Forall_map, Forall_forall; intros p _; reflexivity |].
    rewrite delivered_docs_app.
    apply (monthly_frame Guardian.d_id Guardian.parse_row Guardian.article_id
             gdn_parse_row_article_id).
Qed.

Lemma X3_witness :
  (19 <= 19)%nat /\
  exists df evs_q evs_p,
    Guardian.get_all_articles_for_month gdn_net_mixed 19 2023 8 gdn_fresh =
      (Ok df, log (evs_q ++ evs_p) gdn_fresh) /\
    answered gdn_net_mixed (trace gdn_fresh) (evs_q ++ evs_p) /\
    requests_of evs_q =
      Guardian.query_requests (month_window 2023 8).1 (month_window 2023 8).2 1 /\
    Forall (fun rq => rq_query rq = QSingle) (requests_of evs_p) /\
    NoDup (map Guardian.article_id df) /\
    (exists ds, sublist ds (delivered_docs (evs_q ++ evs_p)) /\
                Forall2 (fun d r => Guardian.parse_row d = Some r) ds df) /\
    (forall d r, In d (delivered_docs evs_p) -> Guardian.parse_row d = Some r ->
                 exists r', In r' df /\ Guardian.article_id r' = Guardian.article_id r) /\
    (forall k d0 r, k <> "" ->
       first_with (raw_key Guardian.d_id) (CStr k) (delivered_docs evs_q) = [d0] ->
       Guardian.parse_row d0 = Some r ->
       exists r', In r' df /\ Guardian.article_id r' = CStr k).
Proof.
  split; [lia |].
  exact (proj2 X3_monthly_dataset gdn_net_mixed 19%nat 2023 8 gdn_fresh (le_n 19)).
Defined.

(** The same month on the Guardian network [gdn_net_mixed]. *)
Example gdn_month_with_dropped_documents :
  fst (Guardian.get_all_articles_for_month gdn_net_mixed 19 2023 8 gdn_fresh) =
    Ok [gdn_row "world/0" "2023-08-03"; gdn_row "world/1" "2023-08-01"] /\
  map (raw_key Guardian.d_id)
      (delivered_docs
         (trace (snd (Guardian.get_all_articles_for_month gdn_net_mixed 19 2023 8
                        gdn_fresh)))) =
    [CStr "world/0"; CStr ""; CStr "world/1"; CStr "world/2"].
Proof. split; vm_compute; reflexivity. Qed.
(** ** C6 — the months the driver visits and their query windows *)

(** The leap-year rule on four well-known years, and the window of
    February in a leap year and in a common year. *)
Example leap_years :
  is_leap 2024 = true /\ is_leap 2023 = false /\
  is_leap 1900 = false /\ is_leap 2000 = true /\
  month_window 2024 2 = (mkdate 2024 2 1, mkdate 2024 2 29) /\
  month_window 2023 2 = (mkdate 2023 2 1, mkdate 2023 2 28) /\
  month_window 2023 12 = (mkdate 2023 12 1, mkdate 2023 12 31).
Proof. repeat split; reflexivity. Qed.

(** A range across the turn of the year: November, December, January. *)
Example nyt_november_to_january :
  fst (NYTimes.scrape_by_month net_down 3 (mkdate 2023 11 15) (mkdate 2024 1 10) nyt_fresh) =
  Ok (0, [(2023, 11, 0); (2023, 12, 0); (2024, 1, 0)]).
Proof. vm_compute. reflexivity. Qed.


(** The windows of four Februaries and of a December, and the months
    at which the constructor of dates raises. *)
Example checked_windows :
  py_month_window 2024 2 = Some (mkdate 2024 2 1, mkdate 2024 2 29) /\
  py_month_window 2023 2 = Some (mkdate 2023 2 1, mkdate 2023 2 28) /\
  py_month_window 1900 2 = Some (mkdate 1900 2 1, mkdate 1900 2 28) /\
  py_month_window 2000 2 = Some (mkdate 2000 2 1, mkdate 2000 2 29) /\
  py_month_window 2023 12 = Some (mkdate 2023 12 1, mkdate 2023 12 31) /\
  py_month_window 9999 12 = None /\
  py_month_window 2023 13 = None /\
  py_month_window 0 1 = None /\
  py_next_month (mkdate 9999 12 31) = None.
Proof. repeat split; reflexivity. Qed.

(** February 2024 on a network that is down: the five queries and the
    first page, each for the window from the 1st to the 29th. *)
Example nyt_february_2024_requests :
  map (fun rq => (rq_query rq, rq_from rq, rq_to rq, rq_page rq))
      (requests_of
         (trace (snd (NYTimes.scrape_by_month net_down 1 (mkdate 2024 2 10) (mkdate 2024 2 20)
                        nyt_fresh)))) =
  [(Q1, mkdate 2024 2 1, mkdate 2024 2 29, 0);
   (Q2, mkdate 2024 2 1, mkdate 2024 2 29, 0);
   (Q3, mkdate 2024 2 1, mkdate 2024 2 29, 0);
   (Q4, mkdate 2024 2 1, mkdate 2024 2 29, 0);
   (Q5, mkdate 2024 2 1, mkdate 2024 2 29, 0);
   (QSingle, mkdate 2024 2 1, mkdate 2024 2 29, 1)].
Proof. vm_compute. reflexivity. Qed.

Lemma days_in_month_calendar y m :
  1 <= m <= 12 -> days_in_month y m = calendar_last_day y m.
Proof.
  intros Hm.
  assert (m = 1 \/ m = 2 \/ m = 3 \/ m = 4 \/ m = 5 \/ m = 6 \/ m = 7 \/
          m = 8 \/ m = 9 \/ m = 10 \/ m = 11 \/ m = 12) as Hcases by lia.
  repeat destruct Hcases as [-> | Hcases]; try subst m;
    try (rewrite days_in_february; unfold is_leap, calendar_last_day;
         change (2 =? 2) with true; cbv iota; reflexivity);
    reflexivity.
Qed.

Lemma in_datetime_range_spec y m :
  in_datetime_range y m = true <->
  1 <= y <= 9999 /\ 1 <= m <= 12 /\ ~ (y = 9999 /\ m = 12).
Proof.
  unfold in_datetime_range.
  rewrite !andb_true_iff, negb_true_iff, andb_false_iff, !Z.leb_le, !Z.eqb_neq.
  lia.
Qed.

Lemma py_date_spec y m d :
  py_date y m d =
  if bool_decide (1 <= y <= 9999 /\ 1 <= m <= 12 /\ 1 <= d <= days_in_month y m)
  then Some (mkdate y m d) else None.
Proof.
  unfold py_date, MINYEAR, MAXYEAR. case_bool_decide as H.
  - destruct H as ([? ?] & [? ?] & [? ?]).
    repeat (match goal with
            | |- context [?a <=? ?b] =>
                replace (a <=? b) with true by (symmetry; apply Z.leb_le; assumption)
            end).
    reflexivity.
  - destruct ((1 <=? y) && (y <=? 9999) && (1 <=? m) && (m <=? 12) && (1 <=? d) &&
              (d <=? days_in_month y m)) eqn:Hb; [| reflexivity].
    exfalso. apply H. rewrite !andb_true_iff, !Z.leb_le in Hb. tauto.
Qed.

Lemma py_month_window_checked y m :
  py_month_window y m =
  if in_datetime_range y m then Some (month_window y m) else None.
Proof.
  unfold py_month_window. rewrite !py_date_spec.
  destruct (in_datetime_range y m) eqn:Hr.
  - apply in_datetime_range_spec in Hr as (Hy & Hm & Hlast).
    pose proof (days_in_month_pos y m Hm) as Hd.
    rewrite bool_decide_eq_true_2 by lia.
    destruct (m =? 12) eqn:H12.
    + apply Z.eqb_eq in H12.
      rewrite bool_decide_eq_true_2
        by (pose proof (days_in_month_pos (y + 1) 1 ltac:(lia)); lia).
      unfold month_window. rewrite (proj2 (Z.eqb_eq m 12) H12). reflexivity.
    + apply Z.eqb_neq in H12.
      rewrite bool_decide_eq_true_2
        by (pose proof (days_in_month_pos y (m + 1) ltac:(lia)); lia).
      unfold month_window. rewrite (proj2 (Z.eqb_neq m 12) H12). reflexivity.
  - case_bool_decide as H1; [| reflexivity].
    destruct H1 as (Hy & Hm & _).
    assert (Hlast : y = 9999 /\ m = 12).
    { destruct (Z.eq_dec y 9999) as [-> |]; destruct (Z.eq_dec m 12) as [-> |];
        try (split; reflexivity);
        exfalso; apply not_true_iff_false in Hr; apply Hr, in_datetime_range_spec; lia. }
    destruct Hlast as [-> ->]. reflexivity.
Qed.

Lemma month_window_calendar y m :
  1 <= m <= 12 ->
  month_window y m = (mkdate y m 1, mkdate y m (calendar_last_day y m)).
Proof.
  intros Hm. rewrite (month_window_first_last y m Hm), (days_in_month_calendar y m Hm).
  reflexivity.
Qed.

Lemma py_next_month_checked current :
  1 <= year current <= 9999 -> 1 <= month current <= 12 ->
  py_next_month current =
  if in_datetime_range (year current) (month current)
  then Some (next_month current) else None.
Proof.
  intros Hy Hm. unfold py_next_month, next_month. rewrite !py_date_spec.
  destruct (in_datetime_range (year current) (month current)) eqn:Hr.
  - apply in_datetime_range_spec in Hr as (_ & _ & Hlast).
    destruct (month current =? 12) eqn:H12.
    + apply Z.eqb_eq in H12.
      rewrite bool_decide_eq_true_2
        by (pose proof (days_in_month_pos (year current + 1) 1 ltac:(lia)); lia).
      reflexivity.
    + apply Z.eqb_neq in H12.
      rewrite bool_decide_eq_true_2
        by (pose proof (days_in_month_pos (year current) (month current + 1) ltac:(lia)); lia).
      reflexivity.
  - assert (Hlast : year current = 9999 /\ month current = 12).
    { destruct (Z.eq_dec (year current) 9999) as [Hy9 |];
        destruct (Z.eq_dec (month current) 12) as [Hm12 |];
        try (split; assumption);
        exfalso; apply not_true_iff_false in Hr; apply Hr, in_datetime_range_spec; lia. }
    destruct Hlast as [Hy9 Hm12]. rewrite Hy9, Hm12. reflexivity.
Qed.

(** *** The trace of a run, month by month *)

Lemma NoDup_map_inj_on {A B} (f : A -> B) (l : list A) :
  (forall a b, In a l -> In b l -> f a = f b -> a = b) ->
  NoDup l -> NoDup (map f l).
Proof.
  intros Hinj Hnd. induction Hnd as [|a l Ha _ IH]; cbn [map]; [constructor |].
  constructor.
  - intros Hin. apply list_elem_of_In, in_map_iff in Hin as (b & Hb & Hin).
    assert (b = a) by (apply Hinj; [right; exact Hin | left; reflexivity | exact Hb]).
    subst b. apply Ha, list_elem_of_In, Hin.
  - apply IH. intros x y Hx Hy. apply Hinj; right; assumption.
Qed.

Lemma Forall2_map_l {A B C} (f : A -> B) (P : B -> C -> Prop) (l : list A) (k : list C) :
  Forall2 P (map f l) k -> Forall2 (fun a c => P (f a) c) l k.
Proof.
  revert k. induction l as [|a l IH]; intros k H; cbn [map] in H.
  - apply Forall2_nil_inv_l in H. subst k. constructor.
  - apply Forall2_cons_inv_l in H as (c & k' & Hc & Hk & ->).
    constructor; [exact Hc | apply IH, Hk].
Qed.

Section VisitSegments.
Context {D R : Type} (body : Z -> Z -> M D R (list R * Z)) (path : Z -> Z -> string).
Variables (dom : Z -> Z -> Prop) (fetched : Z -> Z -> list Request -> Prop).

Hypothesis body_segment : forall y m (w : World D R), dom y m ->
  exists a w' seg,
    body y m w = (Ok a, w') /\ trace w' = trace w ++ seg /\
    (is_Some (fs w !! path y m) -> seg = []) /\
    (fs w !! path y m = None -> fetched y m (requests_of seg)) /\
    (forall p, p <> path y m -> fs w' !! p = fs w !! p).

(** The events of a run split into one segment for each month; what a
    segment holds is decided by the disk [w0] at the start of the run. *)
Lemma visit_months_segments (months : list (Z * Z)) :
  NoDup (map (fun ym => path ym.1 ym.2) months) ->
  Forall (fun ym => dom ym.1 ym.2) months ->
  forall total monthly_counts (w w0 : World D R),
  (forall ym, In ym months -> fs w !! path ym.1 ym.2 = fs w0 !! path ym.1 ym.2) ->
  exists res w' segs,
    visit_months body months total monthly_counts w = (Ok res, w') /\
    trace w' = trace w ++ concat segs /\
    Forall2 (fun ym seg =>
               dom ym.1 ym.2 /\
               (is_Some (fs w0 !! path ym.1 ym.2) -> seg = []) /\
               (fs w0 !! path ym.1 ym.2 = None -> fetched ym.1 ym.2 (requests_of seg)))
      months segs.
Proof.
  induction months as [|[y m] rest IH]; intros Hnd Hdom total monthly_counts w w0 Hagree.
  - exists (total, monthly_counts), w, []. cbn. rewrite app_nil_r.
    split; [reflexivity |]. split; [reflexivity | constructor].
  - cbn [map fst snd] in Hnd. apply NoDup_cons in Hnd as [Hfresh Hnd].
    apply Forall_cons in Hdom as [Hym Hdom]. cbn [fst snd] in Hym.
    destruct (body_segment y m w Hym)
      as ([df count] & w1 & seg & Hbody & Htr1 & Hhave & Hfetch & Hother).
    cbn [visit_months]. erewrite bind_ok by exact Hbody.
    destruct (IH Hnd Hdom (total + count) (monthly_counts ++ [(y, m, count)]) w1 w0)
      as (res & w' & segs & Hrun & Htr & Hall).
    { intros ym Hin. rewrite Hother; [apply Hagree; right; exact Hin |].
      intros Heq. apply Hfresh. rewrite <- Heq.
      apply list_elem_of_In, (in_map (fun ym => path ym.1 ym.2)), Hin. }
    exists res, w', (seg :: segs). split; [exact Hrun |].
    split; [rewrite Htr, Htr1; cbn [concat]; rewrite app_assoc; reflexivity |].
    constructor; [| exact Hall]. cbn [fst snd].
    specialize (Hagree (y, m) (or_introl eq_refl)). cbn [fst snd] in Hagree.
    rewrite <- Hagree. auto.
Qed.
End VisitSegments.

Lemma nyt_month_body_segment (net : Net NYTimes.Doc) y m
    (w : World NYTimes.Doc NYTimes.Row) :
  in_datetime_range y m = true ->
  exists a w' seg,
    NYTimes.month_body net y m w = (Ok a, w') /\ trace w' = trace w ++ seg /\
    (is_Some (fs w !! NYTimes.csv_path y m) -> seg = []) /\
    (fs w !! NYTimes.csv_path y m = None ->
     exists k, (1 <= k <= 14)%nat /\
       requests_of seg =
         NYTimes.query_requests (mkdate y m 1) (mkdate y m (calendar_last_day y m)) 0 ++
         NYTimes.page_requests (mkdate y m 1) (mkdate y m (calendar_last_day y m))
           (firstn k NYTimes.pages)) /\
    (forall p, p <> NYTimes.csv_path y m -> fs w' !! p = fs w !! p).
Proof.
  intros Hr. apply in_datetime_range_spec in Hr as (_ & Hm & _).
  destruct (fs w !! NYTimes.csv_path y m) as [df|] eqn:Hf.
  - eexists _, w, []. rewrite (NYTimesFacts.nyt_month_body_resume net y m w df Hf).
    rewrite app_nil_r. split; [reflexivity |]. split; [reflexivity |].
    split; [reflexivity |]. split; [discriminate | reflexivity].
  - destruct (NYTimesFacts.nyt_month_body_fetch net y m w Hf)
      as (evs_q & evs_p & Hrun & Hq & Hp & Hstops & _).
    cbv zeta in Hrun. eexists _, _, (evs_q ++ evs_p). split; [exact Hrun |].
    split; [reflexivity |]. split; [intros [? ?]; discriminate |]. split.
    + intros _. exists (length (outcomes_of evs_p)).
      pose proof (stops_at_first_length _ _ _ Hstops) as Hlen.
      pose proof (stops_at_first_nonempty _ _ _ Hstops) as Hne.
      split; [destruct (outcomes_of evs_p); [congruence | cbn in *; lia] |].
      rewrite requests_of_app, Hq, Hp, (month_window_calendar y m Hm). reflexivity.
    + intros p Hp'. cbn [fs]. destruct (0 <? _); [| reflexivity].
      apply lookup_insert_ne. congruence.
Qed.

Lemma gdn_month_body_segment (net : Net Guardian.Doc) pfuel y m
    (w : World Guardian.Doc Guardian.Row) :
  (19 <= pfuel)%nat ->
  in_datetime_range y m = true ->
  exists a w' seg,
    Guardian.month_body net pfuel y m w = (Ok a, w') /\ trace w' = trace w ++ seg /\
    (is_Some (fs w !! Guardian.csv_path y m) -> seg = []) /\
    (fs w !! Guardian.csv_path y m = None ->
     exists k, (1 <= k <= 19)%nat /\
       requests_of seg =
         Guardian.query_requests (mkdate y m 1) (mkdate y m (calendar_last_day y m)) 1 ++
         Guardian.page_requests (mkdate y m 1) (mkdate y m (calendar_last_day y m))
           (Guardian.pages_from 2 k)) /\
    (forall p, p <> Guardian.csv_path y m -> fs w' !! p = fs w !! p).
Proof.
  intros Hpf Hr. apply in_datetime_range_spec in Hr as (_ & Hm & _).
  destruct (fs w !! Guardian.csv_path y m) as [df|] eqn:Hf.
  - eexists _, w, []. rewrite (GuardianFacts.gdn_month_body_resume net pfuel y m w df Hf).
    rewrite app_nil_r. split; [reflexivity |]. split; [reflexivity |].
    split; [reflexivity |]. split; [discriminate | reflexivity].
  - destruct (GuardianFacts.gdn_month_body_fetch net pfuel y m w Hpf Hf)
      as (evs_q & evs_p & Hrun & Hq & Hp & Hstops & _).
    cbv zeta in Hrun. eexists _, _, (evs_q ++ evs_p). split; [exact Hrun |].
    split; [reflexivity |]. split; [intros [? ?]; discriminate |]. split.
    + intros _. exists (length (outcomes_of evs_p)).
      pose proof (stops_at_first_length _ _ _ Hstops) as Hlen.
      pose proof (stops_at_first_nonempty _ _ _ Hstops) as Hne.
      split; [destruct (outcomes_of evs_p); [congruence | cbn in *; lia] |].
      rewrite requests_of_app, Hq, Hp, (month_window_calendar y m Hm). reflexivity.
    + intros p Hp'. cbn [fs]. destruct (0 <? _); [| reflexivity].
      apply lookup_insert_ne. congruence.
Qed.

(** The months of a range that lies in the range of [datetime]. *)
Lemma visited_months_in_range start_date end_date :
  valid_date start_date -> valid_date end_date ->
  1 <= year start_date ->
  in_datetime_range (year end_date) (month end_date) = true ->
  date_leb start_date end_date = true ->
  let months := months_from start_date (months_to_visit start_date end_date) in
  Forall (fun ym => in_datetime_range ym.1 ym.2 = true) months /\
  map (fun ym => month_index ym.1 ym.2) months = month_span start_date end_date.
Proof.
  intros [Hs _] [He _] Hy Hr Hle months.
  apply in_datetime_range_spec in Hr as (Hye & _ & Hlast).
  destruct (months_from_index start_date (months_to_visit start_date end_date) Hs)
    as [Hidx Hmon].
  pose proof (months_from_years start_date (months_to_visit start_date end_date)) as Hyears.
  pose proof (months_to_visit_count _ _ Hs He Hle) as Hcount.
  fold months in Hidx, Hmon, Hyears. split.
  - apply Forall_forall. intros [y m] Hin.
    rewrite Forall_forall in Hmon, Hyears.
    specialize (Hmon _ Hin). specialize (Hyears _ Hin). cbn [fst snd] in *.
    assert (Hi : In (month_index y m) (map (fun ym => month_index ym.1 ym.2) months)).
    { apply in_map_iff. exists (y, m). split; [reflexivity | apply list_elem_of_In, Hin]. }
    rewrite Hidx in Hi. apply in_map_iff in Hi as (k & Hk & Hin').
    apply list_elem_of_In, elem_of_seq in Hin'.
    apply in_datetime_range_spec. unfold month_index in *. lia.
  - rewrite Hidx. unfold month_span. do 2 f_equal. lia.
Qed.

Lemma nyt_visited_paths_NoDup start_date n :
  1 <= month start_date <= 12 -> 0 <= year start_date ->
  NoDup (map (fun ym => NYTimes.csv_path ym.1 ym.2) (months_from start_date n)).
Proof.
  intros Hm Hy.
  destruct (months_from_index start_date n Hm) as [_ Hmon].
  pose proof (months_from_years start_date n) as Hyears.
  rewrite Forall_forall in Hmon, Hyears.
  apply NoDup_map_inj_on; [| apply months_from_NoDup, Hm].
  intros [y1 m1] [y2 m2] H1 H2 Heq. apply list_elem_of_In in H1, H2.
  pose proof (Hmon _ H1). pose proof (Hmon _ H2).
  pose proof (Hyears _ H1). pose proof (Hyears _ H2). cbn [fst snd] in *.
  destruct (monthly_path_inj NYTimes.output_dir y1 m1 y2 m2) as [-> ->];
    [lia | lia | assumption | assumption | exact Heq | reflexivity].
Qed.

Lemma gdn_visited_paths_NoDup start_date n :
  1 <= month start_date <= 12 -> 0 <= year start_date ->
  NoDup (map (fun ym => Guardian.csv_path ym.1 ym.2) (months_from start_date n)).
Proof.
  intros Hm Hy.
  destruct (months_from_index start_date n Hm) as [_ Hmon].
  pose proof (months_from_years start_date n) as Hyears.
  rewrite Forall_forall in Hmon, Hyears.
  apply NoDup_map_inj_on; [| apply months_from_NoDup, Hm].
  intros [y1 m1] [y2 m2] H1 H2 Heq. apply list_elem_of_In in H1, H2.
  pose proof (Hmon _ H1). pose proof (Hmon _ H2).
  pose proof (Hyears _ H1). pose proof (Hyears _ H2). cbn [fst snd] in *.
  destruct (monthly_path_inj Guardian.output_dir y1 m1 y2 m2) as [-> ->];
    [lia | lia | assumption | assumption | exact Heq | reflexivity].
Qed.

(** C6: the months the driver visits and the windows it asks for, on
    the dates [datetime] has.  The window of (year, month) is computed
    without an error for every month of the years 1 to 9999 but December
    9999, and it runs from the first day of the month to its last day:
    the 31st, the 30th in April, June, September and November, and in
    February the 29th in a year that is a multiple of 4 and not of 100
    or a multiple of 400, the 28th otherwise.  From a start date to an
    end date not before it, the driver visits the months at the calendar
    positions of the month of the start date, the next one, and so on
    up to the month of the end date: each month once, in calendar
    order, December followed by January of the next year.  The trace of
    the run splits into one segment for each visited month: nothing for
    a month whose file is on disk, and for a month without a file the
    five queries and one to 14 (Guardian: 19) pages, every request for
    the window of that very month. *)
Theorem C6_backfill_visits_each_month :
  (forall y m,
      py_month_window y m =
        if in_datetime_range y m
        then Some (mkdate y m 1, mkdate y m (calendar_last_day y m))
        else None) /\
  (forall y m,
      in_datetime_range y m = true ->
      month_window y m = (mkdate y m 1, mkdate y m (calendar_last_day y m))) /\
  (forall current,
      1 <= year current <= 9999 -> 1 <= month current <= 12 ->
      py_next_month current =
        if in_datetime_range (year current) (month current)
        then Some (next_month current)
        else None) /\
  (forall (net : Net NYTimes.Doc) fuel start_date end_date
          (w : World NYTimes.Doc NYTimes.Row),
      valid_date start_date -> valid_date end_date ->
      1 <= year start_date ->
      in_datetime_range (year end_date) (month end_date) = true ->
      date_leb start_date end_date = true ->
      (months_to_visit start_date end_date <= fuel)%nat ->
      exists total monthly_counts fs' segs,
        NYTimes.scrape_by_month net fuel start_date end_date w =
          (Ok (total, monthly_counts), mkWorld fs' (trace w ++ concat segs)) /\
        map (fun c => month_index c.1.1 c.1.2) monthly_counts =
          month_span start_date end_date /\
        Forall2
          (fun c seg =>
             in_datetime_range c.1.1 c.1.2 = true /\
             (is_Some (fs w !! NYTimes.csv_path c.1.1 c.1.2) -> seg = []) /\
             (fs w !! NYTimes.csv_path c.1.1 c.1.2 = None ->
              exists k, (1 <= k <= 14)%nat /\
                requests_of seg =
                  NYTimes.query_requests (mkdate c.1.1 c.1.2 1)
                    (mkdate c.1.1 c.1.2 (calendar_last_day c.1.1 c.1.2)) 0 ++
                  NYTimes.page_requests (mkdate c.1.1 c.1.2 1)
                    (mkdate c.1.1 c.1.2 (calendar_last_day c.1.1 c.1.2))
                    (firstn k NYTimes.pages)))
          monthly_counts segs) /\
  (forall (net : Net Guardian.Doc) pfuel fuel start_date end_date
          (w : World Guardian.Doc Guardian.Row),
      (19 <= pfuel)%nat ->
      valid_date start_date -> valid_date end_date ->
      1 <= year start_date ->
      in_datetime_range (year end_date) (month end_date) = true ->
      date_leb start_date end_date = true ->
      (months_to_visit start_date end_date <= fuel)%nat ->
      exists total monthly_counts fs' segs,
        Guardian.scrape_by_month net pfuel fuel start_date end_date w =
          (Ok (total, monthly_counts), mkWorld fs' (trace w ++ concat segs)) /\
        map (fun c => month_index c.1.1 c.1.2) monthly_counts =
          month_span start_date end_date /\
        Forall2
          (fun c seg =>
             in_datetime_range c.1.1 c.1.2 = true /\
             (is_Some (fs w !! Guardian.csv_path c.1.1 c.1.2) -> seg = []) /\
             (fs w !! Guardian.csv_path c.1.1 c.1.2 = None ->
              exists k, (1 <= k <= 19)%nat /\
                requests_of seg =
                  Guardian.query_requests (mkdate c.1.1 c.1.2 1)
                    (mkdate c.1.1 c.1.2 (calendar_last_day c.1.1 c.1.2)) 1 ++
                  Guardian.page_requests (mkdate c.1.1 c.1.2 1)
                    (mkdate c.1.1 c.1.2 (calendar_last_day c.1.1 c.1.2))
                    (Guardian.pages_from 2 k)))
          monthly_counts segs) /\
  (forall start_date end_date,
      month_span start_date end_date =
      map (fun k => month_index (year start_date) (month start_date) + Z.of_nat k)
        (seq 0 (Z.to_nat (month_index (year end_date) (month end_date) -
                          month_index (year start_date) (month start_date) + 1)))) /\
  (forall y1 m1 y2 m2,
      1 <= m1 <= 12 -> 1 <= m2 <= 12 ->
      month_index y1 m1 = month_index y2 m2 -> y1 = y2 /\ m1 = m2).
Proof.
  split; [| split; [| split; [| split; [| split; [| split]]]]].
  - intros y m. rewrite py_month_window_checked.
    destruct (in_datetime_range y m) eqn:Hr; [| reflexivity].
    apply in_datetime_range_spec in Hr as (_ & Hm & _).
    rewrite (month_window_calendar y m Hm). reflexivity.
  - intros y m Hr. apply in_datetime_range_spec in Hr as (_ & Hm & _).
    apply month_window_calendar, Hm.
  - apply py_next_month_checked.
  - intros net fuel start_date end_date w Hs He Hy Hr Hle Hfuel.
    destruct (visited_months_in_range start_date end_date Hs He Hy Hr Hle) as [Hdom Hspan].
    destruct (nyt_scrape_by_month_run net fuel start_date end_date w Hs He Hfuel)
      as (counts & fs' & evs & Hrun & Hmonths & _).
    pose proof Hrun as Hrun0. unfold NYTimes.scrape_by_month in Hrun0.
    rewrite (nyt_scrape_loop_as_visit net end_date fuel start_date 0 [] w He (proj1 Hs) Hfuel)
      in Hrun0.
    destruct (visit_months_segments (NYTimes.month_body net ) NYTimes.csv_path
                (fun y m => in_datetime_range y m = true)
                (fun y m rqs =>
                   exists k, (1 <= k <= 14)%nat /\
                     rqs =
                       NYTimes.query_requests (mkdate y m 1)
                         (mkdate y m (calendar_last_day y m)) 0 ++
                       NYTimes.page_requests (mkdate y m 1)
                         (mkdate y m (calendar_last_day y m)) (firstn k NYTimes.pages))
                (nyt_month_body_segment net)
                (months_from start_date (months_to_visit start_date end_date))
                (nyt_visited_paths_NoDup _ _ (proj1 Hs) ltac:(lia)) Hdom 0 [] w w
                (fun _ _ => eq_refl))
      as (res & w' & segs & Hrun' & Htr & Hall).
    rewrite Hrun0 in Hrun'. injection Hrun' as <- <-. cbn [trace] in Htr.
    apply app_inv_head in Htr. subst evs.
    exists (sum_counts counts), counts, fs', segs. split; [exact Hrun |]. split.
    + rewrite <- Hspan, <- Hmonths, map_map. reflexivity.
    + rewrite <- Hmonths in Hall. apply Forall2_map_l in Hall. exact Hall.
  - intros net pfuel fuel start_date end_date w Hpf Hs He Hy Hr Hle Hfuel.
    destruct (visited_months_in_range start_date end_date Hs He Hy Hr Hle) as [Hdom Hspan].
    destruct (gdn_scrape_by_month_run net pfuel fuel start_date end_date w Hpf Hs He Hfuel)
      as (counts & fs' & evs & Hrun & Hmonths & _).
    pose proof Hrun as Hrun0. unfold Guardian.scrape_by_month in Hrun0.
    rewrite (gdn_scrape_loop_as_visit net pfuel end_date fuel start_date 0 [] w He (proj1 Hs) Hfuel)
      in Hrun0.
    destruct (visit_months_segments (Guardian.month_body net pfuel) Guardian.csv_path
                (fun y m => in_datetime_range y m = true)
                (fun y m rqs =>
                   exists k, (1 <= k <= 19)%nat /\
                     rqs =
                       Guardian.query_requests (mkdate y m 1)
                         (mkdate y m (calendar_last_day y m)) 1 ++
                       Guardian.page_requests (mkdate y m 1)
                         (mkdate y m (calendar_last_day y m)) (Guardian.pages_from 2 k))
                (fun y m w0 Hr => gdn_month_body_segment net pfuel y m w0 Hpf Hr)
                (months_from start_date (months_to_visit start_date end_date))
                (gdn_visited_paths_NoDup _ _ (proj1 Hs) ltac:(lia)) Hdom 0 [] w w
                (fun _ _ => eq_refl))
      as (res & w' & segs & Hrun' & Htr & Hall).
    rewrite Hrun0 in Hrun'. injection Hrun' as <- <-. cbn [trace] in Htr.
    apply app_inv_head in Htr. subst evs.
    exists (sum_counts counts), counts, fs', segs. split; [exact Hrun |]. split.
    + rewrite <- Hspan, <- Hmonths, map_map. reflexivity.
    + rewrite <- Hmonths in Hall. apply Forall2_map_l in Hall. exact Hall.
  - intros start_date end_date. reflexivity.
  - intros y1 m1 y2 m2 H1 H2. unfold month_index. lia.
Qed.

Lemma C6_witness :
  (in_datetime_range 2024 2 = true /\
   month_window 2024 2 = (mkdate 2024 2 1, mkdate 2024 2 29)) /\
  (in_datetime_range 2023 2 = true /\
   month_window 2023 2 = (mkdate 2023 2 1, mkdate 2023 2 28)) /\
  (in_datetime_range 1900 2 = true /\
   month_window 1900 2 = (mkdate 1900 2 1, mkdate 1900 2 28)) /\
  (1 <= year (mkdate 2023 12 15) <= 9999 /\ 1 <= month (mkdate 2023 12 15) <= 12 /\
   py_next_month (mkdate 2023 12 15) = Some (mkdate 2024 1 1)) /\
  (valid_date (mkdate 2023 11 15) /\ valid_date (mkdate 2024 1 10) /\
   1 <= year (mkdate 2023 11 15) /\
   in_datetime_range (year (mkdate 2024 1 10)) (month (mkdate 2024 1 10)) = true /\
   date_leb (mkdate 2023 11 15) (mkdate 2024 1 10) = true /\
   (months_to_visit (mkdate 2023 11 15) (mkdate 2024 1 10) <= 3)%nat /\
   (19 <= 19)%nat) /\
  (exists total monthly_counts fs' segs,
     NYTimes.scrape_by_month nyt_net_mixed 3 (mkdate 2023 11 15) (mkdate 2024 1 10) nyt_fresh =
       (Ok (total, monthly_counts), mkWorld fs' (trace nyt_fresh ++ concat segs)) /\
     map (fun c => month_index c.1.1 c.1.2) monthly_counts =
       month_span (mkdate 2023 11 15) (mkdate 2024 1 10) /\
     Forall2
       (fun c seg =>
          in_datetime_range c.1.1 c.1.2 = true /\
          (is_Some (fs nyt_fresh !! NYTimes.csv_path c.1.1 c.1.2) -> seg = []) /\
          (fs nyt_fresh !! NYTimes.csv_path c.1.1 c.1.2 = None ->
           exists k, (1 <= k <= 14)%nat /\
             requests_of seg =
               NYTimes.query_requests (mkdate c.1.1 c.1.2 1)
                 (mkdate c.1.1 c.1.2 (calendar_last_day c.1.1 c.1.2)) 0 ++
               NYTimes.page_requests (mkdate c.1.1 c.1.2 1)
                 (mkdate c.1.1 c.1.2 (calendar_last_day c.1.1 c.1.2))
                 (firstn k NYTimes.pages)))
       monthly_counts segs) /\
  (exists total monthly_counts fs' segs,
     Guardian.scrape_by_month gdn_net_mixed 19 3 (mkdate 2023 11 15) (mkdate 2024 1 10) gdn_fresh =
       (Ok (total, monthly_counts), mkWorld fs' (trace gdn_fresh ++ concat segs)) /\
     map (fun c => month_index c.1.1 c.1.2) monthly_counts =
       month_span (mkdate 2023 11 15) (mkdate 2024 1 10) /\
     Forall2
       (fun c seg =>
          in_datetime_range c.1.1 c.1.2 = true /\
          (is_Some (fs gdn_fresh !! Guardian.csv_path c.1.1 c.1.2) -> seg = []) /\
          (fs gdn_fresh !! Guardian.csv_path c.1.1 c.1.2 = None ->
           exists k, (1 <= k <= 19)%nat /\
             requests_of seg =
               Guardian.query_requests (mkdate c.1.1 c.1.2 1)
                 (mkdate c.1.1 c.1.2 (calendar_last_day c.1.1 c.1.2)) 1 ++
               Guardian.page_requests (mkdate c.1.1 c.1.2 1)
                 (mkdate c.1.1 c.1.2 (calendar_last_day c.1.1 c.1.2))
                 (Guardian.pages_from 2 k)))
       monthly_counts segs) /\
  (1 <= 11 <= 12 /\ 1 <= 12 <= 12 /\
   (month_index 2023 11 = month_index 2023 12 -> 2023 = 2023 /\ 11 = 12)).
Proof.
  destruct C6_backfill_visits_each_month
    as (_ & Hwin & Hnext & Hnrun & Hgrun & _ & Hinj).
  assert (Hs : valid_date (mkdate 2023 11 15)) by valid_date_tac.
  assert (He : valid_date (mkdate 2024 1 10)) by valid_date_tac.
  assert (Hy : 1 <= year (mkdate 2023 11 15)) by (cbn; lia).
  assert (Hr : in_datetime_range (year (mkdate 2024 1 10)) (month (mkdate 2024 1 10)) = true)
    by reflexivity.
  assert (Hle : date_leb (mkdate 2023 11 15) (mkdate 2024 1 10) = true) by reflexivity.
  assert (Hfuel : (months_to_visit (mkdate 2023 11 15) (mkdate 2024 1 10) <= 3)%nat)
    by fuel_tac.
  assert (Hy12 : 1 <= year (mkdate 2023 12 15) <= 9999) by (cbn; lia).
  assert (Hm12 : 1 <= month (mkdate 2023 12 15) <= 12) by (cbn; lia).
  assert (H11 : 1 <= 11 <= 12) by lia.
  assert (H12 : 1 <= 12 <= 12) by lia.
  split; [split; [reflexivity | exact (Hwin 2024 2 eq_refl)] |].
  split; [split; [reflexivity | exact (Hwin 2023 2 eq_refl)] |].
  split; [split; [reflexivity | exact (Hwin 1900 2 eq_refl)] |].
  split; [split; [exact Hy12 | split; [exact Hm12 | exact (Hnext _ Hy12 Hm12)]] |].
  split.
  { split; [exact Hs |]. split; [exact He |]. split; [exact Hy |]. split; [exact Hr |].
    split; [exact Hle |]. split; [exact Hfuel | lia]. }
  split; [exact (Hnrun nyt_net_mixed 3%nat _ _ nyt_fresh Hs He Hy Hr Hle Hfuel) |].
  split; [exact (Hgrun gdn_net_mixed 19%nat 3%nat _ _ gdn_fresh (le_n 19) Hs He Hy Hr Hle Hfuel) |].
  split; [exact H11 |]. split; [exact H12 |].
  exact (Hinj 2023 11 2023 12 H11 H12).
Defined.
